(** * mewinfo: the hwmon sensor model of [mewinfo.py]

    A shallow embedding of the sensor part of [mewinfo.py]
    ([adc_value], [SensorKind], [SensorValue], [Sensor] with its two
    registered subclasses, [Hwmon] and the [sensors] command) together
    with the Python run-time behaviour these functions rely on: text
    stripping, [int()] and [float()] on file contents, integer and
    binary64 arithmetic, [repr] of numbers, and the three [pathlib]
    operations the code performs on sysfs ([read_text], [glob],
    [resolve]). Besides, [Meminfo.parse] with the part of [re] that
    its pattern needs, and the report [_all] over [ITEMS], in which
    the classes that are not modelled stand as parameters.

    Conventions.
    - A Python [str] is a Rocq [string] holding its UTF-8 bytes; the
      only non-ASCII text of the program is in the unit names.
    - A Python [float] is a [spec_float] at precision 53 and maximal
      exponent 1024 (binary64), in the canonical form the rounding
      functions of [SpecFloat] produce.
    - A call that may raise returns a [result]; the exceptions are the
      ones the modelled code can meet. *)

From Stdlib Require Import ZArith List String Ascii Bool Lia.
From Stdlib Require Import DecimalString Floats.SpecFloat.
From stdpp Require Import base option list strings gmap.

Open Scope string_scope.
Open Scope Z_scope.
Open Scope list_scope.

(** ** Exceptions and results *)

Inductive errno := ENOENT | EISDIR | ENOTDIR | EACCES | ELOOP | EIO.

(** [OSError ENOENT] is Python's [FileNotFoundError]; the other
    [OSError]s are the subclasses or plain [OSError] of their errno. *)
Inductive exn :=
| OSError (e : errno)
| ValueError
| OverflowError
| ZeroDivisionError
| UnboundLocalError
| AttributeError
| RuntimeError
| SensorNotSupported (cls_name base_name : string).

Inductive result (A : Type) :=
| Ok (a : A)
| Raise (e : exn).
Arguments Ok {A} a.
Arguments Raise {A} e.

#[global] Instance result_ret : MRet result := fun A a => Ok a.
#[global] Instance result_bind : MBind result := fun A B k r =>
  match r with
  | Ok a => k a
  | Raise e => Raise e
  end.
#[global] Instance result_fmap : FMap result := fun A B f r =>
  match r with
  | Ok a => Ok (f a)
  | Raise e => Raise e
  end.

(** [try: body  except FileNotFoundError: handler] *)
Definition except_FileNotFoundError {A} (body handler : result A) : result A :=
  match body with
  | Raise (OSError ENOENT) => handler
  | r => r
  end.

(** ** Text *)

(** [Py_ISSPACE], the white space that [int()] and [float()] ignore
    around a number: TAB..CR and the space. *)
Definition is_c_space (c : ascii) : bool :=
  let n := nat_of_ascii c in
  ((9 <=? n) && (n <=? 13) || (n =? 32))%nat.

(** The separators FS, GS, RS and US. *)
Definition is_separator (c : ascii) : bool :=
  let n := nat_of_ascii c in
  ((28 <=? n) && (n <=? 31))%nat.

(** ASCII part of [str.isspace]: [str.strip()] also removes the
    separators. *)
Definition is_space (c : ascii) : bool := is_c_space c || is_separator c.

Fixpoint lstrip_with (sp : ascii -> bool) (s : string) : string :=
  match s with
  | String c s' => if sp c then lstrip_with sp s' else s
  | EmptyString => EmptyString
  end.

Fixpoint rstrip_with (sp : ascii -> bool) (s : string) : string :=
  match s with
  | EmptyString => EmptyString
  | String c s' =>
      match rstrip_with sp s' with
      | EmptyString => if sp c then EmptyString else String c EmptyString
      | r => String c r
      end
  end.

Definition strip_with (sp : ascii -> bool) (s : string) : string :=
  lstrip_with sp (rstrip_with sp s).

(** [str.strip()] *)
Definition strip : string -> string := strip_with is_space.

(** The text of a number, as [int()] and [float()] take it from
    their argument. *)
Definition number_strip : string -> string := strip_with is_c_space.

(** [str.lstrip(chars)] for a one-character [chars] *)
Fixpoint lstrip_char (c : ascii) (s : string) : string :=
  match s with
  | String d s' => if Ascii.eqb d c then lstrip_char c s' else s
  | EmptyString => EmptyString
  end.

(** [str.startswith] *)
Definition startswith (s p : string) : bool := String.prefix p s.

(** [sep.join(l)] *)
Definition join (sep : string) (l : list string) : string := String.concat sep l.

(** [s.split('_')[0]]: the text before the first underscore *)
Fixpoint before_underscore (s : string) : string :=
  match s with
  | EmptyString => EmptyString
  | String c s' => if Ascii.eqb c "_" then EmptyString else String c (before_underscore s')
  end.

(** ASCII [str.lower] *)
Definition lower_ascii (c : ascii) : ascii :=
  let n := nat_of_ascii c in
  if ((65 <=? n) && (n <=? 90))%nat then ascii_of_nat (n + 32) else c.

Fixpoint lower (s : string) : string :=
  match s with
  | EmptyString => EmptyString
  | String c s' => String (lower_ascii c) (lower s')
  end.

(** Truth value of an optional string: [None] and [''] are false. *)
Definition truthy (o : option string) : bool :=
  match o with
  | Some (String _ _) => true
  | _ => false
  end.

(** ** Integers from and to text *)

Definition is_digit (c : ascii) : bool :=
  let n := nat_of_ascii c in ((48 <=? n) && (n <=? 57))%nat.

Definition digit_val (c : ascii) : Z := Z.of_nat (nat_of_ascii c) - 48.

(** The rest of a [digitpart] (digits, single underscores between
    digits): value so far, number of digits so far, remaining text. *)
Fixpoint digitpart_tail (s : string) (acc : Z) (n : nat) : Z * nat * string :=
  match s with
  | String c s' =>
      if is_digit c then digitpart_tail s' (10 * acc + digit_val c) (S n)
      else if Ascii.eqb c "_" then
        match s' with
        | String d s'' =>
            if is_digit d then digitpart_tail s'' (10 * acc + digit_val d) (S n)
            else (acc, n, s)
        | EmptyString => (acc, n, s)
        end
      else (acc, n, s)
  | EmptyString => (acc, n, s)
  end.

Definition digitpart (s : string) : option (Z * nat * string) :=
  match s with
  | String c s' => if is_digit c then Some (digitpart_tail s' (digit_val c) 1%nat) else None
  | EmptyString => None
  end.

(** An optional sign in front: [(negative, rest)]. *)
Definition split_sign (s : string) : bool * string :=
  match s with
  | String c r =>
      if Ascii.eqb c "-" then (true, r)
      else if Ascii.eqb c "+" then (false, r)
      else (false, s)
  | EmptyString => (false, s)
  end.

(** [sys.get_int_max_str_digits()], at its default *)
Definition int_max_str_digits : nat := 4300.

(** [int(s)] for a [str] *)
Definition py_int (s : string) : result Z :=
  let '(neg, body) := split_sign (number_strip s) in
  match digitpart body with
  | Some (v, n, EmptyString) =>
      if (int_max_str_digits <? n)%nat then Raise ValueError
      else Ok (if neg then - v else v)
  | _ => Raise ValueError
  end.

Definition Z_to_string (z : Z) : string := NilZero.string_of_int (Z.to_int z).

(** [str(n)] for an [int] *)
Definition int_str (z : Z) : result string :=
  let s := Z_to_string (Z.abs z) in
  if (int_max_str_digits <? String.length s)%nat then Raise ValueError
  else Ok (Z_to_string z).

(** ** Binary64 floats *)

Definition DBL_MANT_DIG : Z := 53.
Definition DBL_MAX_EXP : Z := 1024.

Definition float_mul : spec_float -> spec_float -> spec_float :=
  SFmul DBL_MANT_DIG DBL_MAX_EXP.
Definition float_div : spec_float -> spec_float -> spec_float :=
  SFdiv DBL_MANT_DIG DBL_MAX_EXP.
Definition float_eqb : spec_float -> spec_float -> bool := SFeqb.

(** The integer [z], rounded to nearest even. *)
Definition float_of_Z (z : Z) : spec_float :=
  binary_normalize DBL_MANT_DIG DBL_MAX_EXP z 0 false.

(** The quotient [n / d] of two positive integers, rounded to nearest
    even: the quotient is taken with enough bits and the remainder
    tells on which side of it the exact value lies. *)
Definition float_of_ratio (neg : bool) (n d : positive) : spec_float :=
  let '(q, e, l) := SFdiv_core_binary DBL_MANT_DIG DBL_MAX_EXP (Zpos n) 0 (Zpos d) 0 in
  binary_round_aux DBL_MANT_DIG DBL_MAX_EXP neg q e l.

(** The decimal [m * 10^e10], correctly rounded, as [float()] reads it. *)
Definition float_of_decimal (neg : bool) (m : Z) (e10 : Z) : spec_float :=
  match m with
  | Zpos p =>
      match e10 with
      | Zneg k => float_of_ratio neg p (Pos.pow 10 k)
      | _ => binary_normalize DBL_MANT_DIG DBL_MAX_EXP
               (if neg then - (m * 10 ^ e10) else m * 10 ^ e10) 0 false
      end
  | _ => S754_zero neg
  end.

(** [float(n)] for an [int], also the conversion of an [int] operand
    of a mixed operation: too large an integer raises. *)
Definition int_to_float (z : Z) : result spec_float :=
  match float_of_Z z with
  | S754_infinity _ => Raise OverflowError
  | f => Ok f
  end.

(** [a / b] on two [int]s *)
Definition int_truediv (a b : Z) : result spec_float :=
  match b with
  | 0 => Raise ZeroDivisionError
  | _ =>
      let neg := xorb (a <? 0) (b <? 0) in
      match Z.abs a with
      | Zpos n =>
          match float_of_ratio neg n (Z.to_pos (Z.abs b)) with
          | S754_infinity _ => Raise OverflowError
          | f => Ok f
          end
      | _ => Ok (S754_zero neg)
      end
  end.

(** The value of a float when it is an integer. *)
Definition float_to_Z_exact (f : spec_float) : option Z :=
  match f with
  | S754_zero _ => Some 0
  | S754_finite s m e =>
      match e with
      | Zneg k =>
          if (Zpos m mod 2 ^ Zpos k =? 0)
          then Some (cond_Zopp s (Zpos m / 2 ^ Zpos k)) else None
      | _ => Some (cond_Zopp s (Zpos m * 2 ^ e))
      end
  | _ => None
  end.

(** [float(s)] for a [str]:
    [sign? (inf | infinity | nan)] in any letter case, or
    [sign? digitpart? (. digitpart?)? ((e|E) sign? digitpart)?] with at
    least one digit before the exponent. *)
Definition exponent_part (s : string) : option Z :=
  match s with
  | EmptyString => Some 0
  | String c r =>
      if Ascii.eqb (lower_ascii c) "e" then
        let '(neg, body) := split_sign r in
        match digitpart body with
        | Some (v, _, EmptyString) => Some (if neg then - v else v)
        | _ => None
        end
      else None
  end.

Definition py_float (s : string) : result spec_float :=
  let '(neg, body) := split_sign (number_strip s) in
  let name := lower body in
  if String.eqb name "inf" || String.eqb name "infinity" then Ok (S754_infinity neg)
  else if String.eqb name "nan" then Ok S754_nan
  else
    let '(i, ni, r) := match digitpart body with
                       | Some x => x
                       | None => (0, 0%nat, body)
                       end in
    let '(f, nf, r') := match r with
                        | String c t =>
                            if Ascii.eqb c "." then
                              match digitpart t with
                              | Some x => x
                              | None => (0, 0%nat, t)
                              end
                            else (0, 0%nat, r)
                        | EmptyString => (0, 0%nat, r)
                        end in
    match (ni + nf)%nat, exponent_part r' with
    | S _, Some e =>
        Ok (float_of_decimal neg (i * 10 ^ Z.of_nat nf + f) (e - Z.of_nat nf))
    | _, _ => Raise ValueError
    end.

(** ** [repr] of a float

    The shortest decimal that reads back as the same float, and among
    two of that length the nearer one; exponent notation from [1e16]
    and below [1e-4]. *)

Definition ndigits (p : positive) : Z :=
  Z.of_nat (String.length (Z_to_string (Zpos p))).

(** The least [j >= 1] with [m * 10^j >= d], searched upwards. *)
Fixpoint first_scale (fuel : nat) (j : Z) (m d : Z) : Z :=
  match fuel with
  | O => j
  | S fuel' => if d <=? m * 10 ^ j then j else first_scale fuel' (j + 1) m d
  end.

(** [k] with [10^(k-1) <= n/d < 10^k], for [n, d > 0]. *)
Definition decimal_point (n d : Z) : Z :=
  match n / d with
  | Zpos q => ndigits q
  | _ => 1 - first_scale 400 1 n d
  end.

(** The [p]-digit decimals around [n/d]: [Some digits] when one of
    them reads back as [x]. [k] is the decimal point of [n/d]. *)
Definition candidate (x : spec_float) (n d k : Z) (p : Z) : option Z :=
  let s := p - k in
  let num := if 0 <=? s then n * 10 ^ s else n in
  let den := if 0 <=? s then d else d * 10 ^ (- s) in
  let lo := num / den in
  let rem := num mod den in
  if rem =? 0 then Some lo
  else
    let hi := lo + 1 in
    let lo_ok := float_eqb (float_of_decimal false lo (- s)) x in
    let hi_ok := float_eqb (float_of_decimal false hi (- s)) x in
    match lo_ok, hi_ok with
    | true, true =>
        match 2 * rem ?= den with
        | Lt => Some lo
        | Gt => Some hi
        | Eq => Some (if Z.even lo then lo else hi)
        end
    | true, false => Some lo
    | false, true => Some hi
    | false, false => None
    end.

Fixpoint shortest (fuel : nat) (x : spec_float) (n d k : Z) (p : Z) : Z * Z :=
  match fuel with
  | O => (n * 10 ^ (p - k) / d, p)
  | S fuel' =>
      match candidate x n d k p with
      | Some digits => (digits, p)
      | None => shortest fuel' x n d k (p + 1)
      end
  end.

Fixpoint rstrip_zeros (s : string) : string :=
  match s with
  | EmptyString => EmptyString
  | String c s' =>
      match rstrip_zeros s' with
      | EmptyString => if Ascii.eqb c "0" then EmptyString else String c EmptyString
      | r => String c r
      end
  end.

Fixpoint zeros (n : nat) : string :=
  match n with
  | O => EmptyString
  | S n' => String "0" (zeros n')
  end.

Fixpoint take_str (n : nat) (s : string) : string :=
  match n, s with
  | S n', String c s' => String c (take_str n' s')
  | _, _ => EmptyString
  end.

Fixpoint drop_str (n : nat) (s : string) : string :=
  match n, s with
  | S n', String _ s' => drop_str n' s'
  | _, _ => s
  end.

(** The digits [ds] with the value [0.ds * 10^decpt], laid out as
    [repr] does. *)
Definition format_repr (ds : string) (decpt : Z) : string :=
  let n := Z.of_nat (String.length ds) in
  if (decpt <=? -4) || (16 <? decpt) then
    let e := decpt - 1 in
    let mant := match ds with
                | String c EmptyString => ds
                | String c r => String c ("." +:+ r)
                | EmptyString => ds
                end in
    let ea := Z_to_string (Z.abs e) in
    mant +:+ "e" +:+ (if e <? 0 then "-" else "+")
         +:+ (if Z.abs e <? 10 then "0" else "") +:+ ea
  else if decpt <=? 0 then "0." +:+ zeros (Z.to_nat (- decpt)) +:+ ds
  else if decpt <? n then
    take_str (Z.to_nat decpt) ds +:+ "." +:+ drop_str (Z.to_nat decpt) ds
  else ds +:+ zeros (Z.to_nat (decpt - n)) +:+ ".0".

Definition float_repr (x : spec_float) : string :=
  match x with
  | S754_nan => "nan"
  | S754_infinity s => if s then "-inf" else "inf"
  | S754_zero s => if s then "-0.0" else "0.0"
  | S754_finite s m e =>
      let n := match e with Zneg _ => Zpos m | _ => Zpos m * 2 ^ e end in
      let d := match e with Zneg k => 2 ^ Zpos k | _ => 1 end in
      let k := decimal_point n d in
      let '(digits, p) := shortest 17 (S754_finite false m e) n d k 1 in
      let ds := Z_to_string digits in
      let decpt := k + (Z.of_nat (String.length ds) - p) in
      (if s then "-" else "") +:+ format_repr (rstrip_zeros ds) decpt
  end.

(** ** Numbers: [int | float] *)

Inductive num :=
| PyInt (z : Z)
| PyFloat (f : spec_float).

Definition is_int (n : num) : bool :=
  match n with PyInt _ => true | PyFloat _ => false end.

Definition is_float (n : num) : bool := negb (is_int n).

Definition float_is_zero (f : spec_float) : bool :=
  match f with S754_zero _ => true | _ => false end.

(** [a * b] *)
Definition py_mul (a b : num) : result num :=
  match a, b with
  | PyInt x, PyInt y => Ok (PyInt (x * y))
  | PyInt x, PyFloat y => fx ← int_to_float x; Ok (PyFloat (float_mul fx y))
  | PyFloat x, PyInt y => fy ← int_to_float y; Ok (PyFloat (float_mul x fy))
  | PyFloat x, PyFloat y => Ok (PyFloat (float_mul x y))
  end.

(** [a / b] *)
Definition py_truediv (a b : num) : result num :=
  match a, b with
  | PyInt x, PyInt y => PyFloat <$> int_truediv x y
  | PyInt x, PyFloat y =>
      fx ← int_to_float x;
      if float_is_zero y then Raise ZeroDivisionError else Ok (PyFloat (float_div fx y))
  | PyFloat x, PyInt y =>
      fy ← int_to_float y;
      if float_is_zero fy then Raise ZeroDivisionError else Ok (PyFloat (float_div x fy))
  | PyFloat x, PyFloat y =>
      if float_is_zero y then Raise ZeroDivisionError else Ok (PyFloat (float_div x y))
  end.

(** [a == b] *)
Definition py_num_eq (a b : num) : bool :=
  match a, b with
  | PyInt x, PyInt y => x =? y
  | PyFloat x, PyFloat y => float_eqb x y
  | PyInt x, PyFloat y | PyFloat y, PyInt x =>
      match float_to_Z_exact y with
      | Some z => x =? z
      | None => false
      end
  end.

(** [str(n)], which is also [format(n, '')] *)
Definition num_str (n : num) : result string :=
  match n with
  | PyInt z => int_str z
  | PyFloat f => Ok (float_repr f)
  end.

(** ** Paths and the file system *)

(** An absolute path, as its components below the root. *)
Definition path := list string.

(** [p / name] for a single component [name] *)
Definition path_join (p : path) (name : string) : path := p ++ [name].
Infix "//" := path_join (at level 40, left associativity).

(** [p.name] *)
Definition path_name (p : path) : string := List.last p "".

(** [p.parent] *)
Definition path_parent (p : path) : path := removelast p.

(** [p.parents], the nearest first *)
Fixpoint parents_from (n : nat) (p : path) : list path :=
  match n with
  | O => []
  | S n' => take n' p :: parents_from n' p
  end.
Definition path_parents (p : path) : list path := parents_from (length p) p.

(** What the program asks of the operating system. [listdir] gives the
    names in a directory in the order the system yields them;
    [resolve] is [Path.resolve()]. *)
Record FileSystem := {
  read_text : path -> result string;
  listdir : path -> result (list string);
  resolve : path -> result path
}.

(** [fnmatch] for patterns of literal characters, [*] and [?]; the
    program's patterns have no bracket. *)
Fixpoint fnmatch (pat : string) : string -> bool :=
  match pat with
  | EmptyString => fun s => match s with EmptyString => true | _ => false end
  | String c pat' =>
      if Ascii.eqb c "*" then
        fix star (s : string) : bool :=
          fnmatch pat' s ||
          match s with
          | String _ s' => star s'
          | EmptyString => false
          end
      else fun s =>
        match s with
        | String d s' => (Ascii.eqb c "?" || Ascii.eqb c d) && fnmatch pat' s'
        | EmptyString => false
        end
  end.

(** [dir.glob(pattern)] for a pattern of one component: the matching
    entries in directory order; a directory that cannot be listed has
    no match. *)
Definition glob (fs : FileSystem) (dir : path) (pattern : string) : list path :=
  match listdir fs dir with
  | Ok names => map (path_join dir) (List.filter (fnmatch pattern) names)
  | Raise _ => []
  end.

(** *** A file system given by a tree *)

#[local] Unset Elimination Schemes.
Inductive node :=
| File (text : string)
| Dir (entries : list (string * node))
| Symlink (target : path).
#[local] Set Elimination Schemes.

Fixpoint assoc {A} (k : string) (l : list (string * A)) : option A :=
  match l with
  | [] => None
  | (k', a) :: l' => if String.eqb k k' then Some a else assoc k l'
  end.

(** The node at [p], no link followed. *)
Fixpoint stat_at (n : node) (p : path) : result node :=
  match p with
  | [] => Ok n
  | c :: p' =>
      match n with
      | Dir es =>
          match assoc c es with
          | Some n' => stat_at n' p'
          | None => Raise (OSError ENOENT)
          end
      | File _ => Raise (OSError ENOTDIR)
      | Symlink _ => Raise (OSError ENOENT)
      end
  end.

(** [os.path.realpath], not strict: components are taken one by one
    from [rest] onto the link-free [cur]; a link restarts from its
    target; what does not exist is kept as it is. At most [links]
    links are followed. *)
Fixpoint realpath (links : nat) (root : node) (cur rest : path) : result path :=
  match links with
  | O => Raise RuntimeError
  | S links' =>
      (fix go (cur rest : path) {struct rest} : result path :=
         match rest with
         | [] => Ok cur
         | c :: rest' =>
             match stat_at root (cur ++ [c]) with
             | Ok (Symlink t) => realpath links' root [] (t ++ rest')
             | _ => go (cur ++ [c]) rest'
             end
         end) cur rest
  end.

Definition MAXSYMLINKS : nat := 40.

Definition tree_resolve (root : node) (p : path) : result path :=
  realpath (S MAXSYMLINKS) root [] p.

Definition tree_stat (root : node) (p : path) : result node :=
  match tree_resolve root p with
  | Ok q => stat_at root q
  | Raise _ => Raise (OSError ELOOP)
  end.

Definition tree_read_text (root : node) (p : path) : result string :=
  n ← tree_stat root p;
  match n with
  | File t => Ok t
  | Dir _ => Raise (OSError EISDIR)
  | Symlink _ => Raise (OSError ENOENT)
  end.

Definition tree_listdir (root : node) (p : path) : result (list string) :=
  n ← tree_stat root p;
  match n with
  | Dir es => Ok (map fst es)
  | _ => Raise (OSError ENOTDIR)
  end.

Definition tree_fs (root : node) : FileSystem :=
  {| read_text := tree_read_text root;
     listdir := tree_listdir root;
     resolve := tree_resolve root |}.

(** ** The program *)

Definition HWMON : path := ["sys"; "class"; "hwmon"].

Definition nl : string := String "010" EmptyString.

(** [adc_value(iio, item)] *)
Definition adc_value (fs : FileSystem) (iio : path) (item : string) : result num :=
  txt ← read_text fs (iio // (item +:+ "_raw"));
  raw ← py_int (strip txt);
  raw ← except_FileNotFoundError
          (txt ← read_text fs (iio // (item +:+ "_offset"));
           offset ← py_int (strip txt);
           Ok (raw + offset))
          (Ok raw);
  except_FileNotFoundError
    (txt ← read_text fs (iio // (item +:+ "_scale"));
     scale ← py_float (strip txt);
     py_mul (PyInt raw) (PyFloat scale))
    (Ok (PyInt raw)).

(** [class SensorKind(Enum)], in the order of its definition *)
Inductive SensorKind :=
| VOLTAGE | FAN | FAN_PWM | TEMPERATURE | CURRENT | POWER | ENERGY
| HUMIDITY | ALARM.

Definition SensorKind_members : list SensorKind :=
  [VOLTAGE; FAN; FAN_PWM; TEMPERATURE; CURRENT; POWER; ENERGY; HUMIDITY; ALARM].

Definition prefix (k : SensorKind) : string :=
  match k with
  | VOLTAGE => "in"
  | FAN => "fan"
  | FAN_PWM => "pwm"
  | TEMPERATURE => "temp"
  | CURRENT => "curr"
  | POWER => "power"
  | ENERGY => "energy"
  | HUMIDITY => "humidity"
  | ALARM => "alarm"
  end.

Definition unit (k : SensorKind) : option string :=
  match k with
  | VOLTAGE => Some "mV"
  | TEMPERATURE => Some "m°C"
  | CURRENT => Some "mA"
  | POWER => Some "µW"
  | ENERGY => Some "µJ"
  | FAN | FAN_PWM | HUMIDITY | ALARM => None
  end.

(** [kind.name] *)
Definition SensorKind_name (k : SensorKind) : string :=
  match k with
  | VOLTAGE => "VOLTAGE"
  | FAN => "FAN"
  | FAN_PWM => "FAN_PWM"
  | TEMPERATURE => "TEMPERATURE"
  | CURRENT => "CURRENT"
  | POWER => "POWER"
  | ENERGY => "ENERGY"
  | HUMIDITY => "HUMIDITY"
  | ALARM => "ALARM"
  end.

#[global] Instance SensorKind_eq_dec : EqDecision SensorKind.
Proof. solve_decision. Defined.

(** [@dataclass class SensorValue] *)
Record SensorValue := {
  label : option string;
  kind : SensorKind;
  value : num
}.

(** The structured form: what [json()] returns, a [dict] being the
    list of its items in insertion order. *)
#[local] Unset Elimination Schemes.
Inductive json :=
| JStr (s : string)
| JNum (n : num)
| JList (l : list json)
| JDict (items : list (string * json)).
#[local] Set Elimination Schemes.

(** [d[k] = v] *)
Fixpoint dict_set {A} (k : string) (v : A) (d : list (string * A)) : list (string * A) :=
  match d with
  | [] => [(k, v)]
  | (k', v') :: d' => if String.eqb k k' then (k, v) :: d' else (k', v') :: dict_set k v d'
  end.

(** [SensorValue.json] *)
Definition SensorValue_json (self : SensorValue) : list (string * json) :=
  let data := [("type", JStr (lower (SensorKind_name (kind self))));
               ("value", JNum (value self))] in
  let data := if truthy (unit (kind self))
              then dict_set "unit" (JStr (default "" (unit (kind self)))) data
              else data in
  let data := if truthy (label self)
              then dict_set "label" (JStr (default "" (label self))) data
              else data in
  data.

(** [x or y] on optional strings, as a string *)
Definition or_str (o : option string) (y : string) : string :=
  if truthy o then default "" o else y.

(** [SensorValue.__str__] *)
Definition SensorValue_str (self : SensorValue) : result string :=
  '(value, unit) ← match unit (kind self) with
                   | Some u =>
                       if startswith u "m"
                       then q ← py_truediv (value self) (PyInt 1000);
                            Ok (q, Some (lstrip_char "m" u))
                       else Ok (value self, Some u)
                   | None => Ok (value self, None)
                   end;
  shown ← num_str value;
  Ok (or_str (label self) (lower (SensorKind_name (kind self)))
      +:+ ": " +:+ shown +:+ " " +:+ or_str unit "").

(** [@dataclass class Sensor] *)
Record Sensor := {
  name : string;
  values : list SensorValue
}.

(** The number a channel contributes in [Sensor._parse]: the lines
    from [value = int(v.read_text())] to the end of the offset
    [try]. *)
Definition channel_value (fs : FileSystem) (hwmon v : path) (s : string) : result Z :=
  txt ← read_text fs v;
  value ← py_int txt;
  except_FileNotFoundError
    (txt ← read_text fs (hwmon // (s +:+ "_offset"));
     offset ← py_int txt;
     Ok (value + offset))
    (Ok value).

(** The body of the inner loop of [Sensor._parse] *)
Definition parse_channel (fs : FileSystem) (hwmon : path) (kind : SensorKind)
    (v : path) : result SensorValue :=
  let s := before_underscore (path_name v) in
  label ← except_FileNotFoundError
            (txt ← read_text fs (hwmon // (s +:+ "_label")); Ok (Some (strip txt)))
            (Ok None);
  value ← channel_value fs hwmon v s;
  Ok {| label := label; kind := kind; value := PyInt value |}.

(** The body of the alarm loop of [Sensor._parse] *)
Definition parse_alarm (fs : FileSystem) (a : path) : result SensorValue :=
  txt ← read_text fs a;
  value ← py_int txt;
  Ok {| label := Some (path_name a); kind := ALARM; value := PyInt value |}.

(** [Sensor._parse(hwmon, name)] *)
Definition Sensor__parse (fs : FileSystem) (hwmon : path) (name : option string)
    : result Sensor :=
  name ← match name with
         | Some n => Ok n
         | None => txt ← read_text fs (hwmon // "name"); Ok (strip txt)
         end;
  channels ← mapM (fun kind =>
                mapM (parse_channel fs hwmon kind)
                     (glob fs hwmon (prefix kind +:+ "*_input")))
              SensorKind_members;
  alarms ← mapM (parse_alarm fs) (glob fs hwmon "*_alarm");
  Ok {| name := name; values := concat channels ++ alarms |}.

(** The sensor [self] seen when its list holds [vs]. *)
Definition with_values (self : Sensor) (vs : list SensorValue) : Sensor :=
  {| name := name self; values := vs |}.

(** [Sensor.json] *)
Definition Sensor_json (self : Sensor) : json :=
  JDict [("name", JStr (name self));
         ("values", JList (map (fun v => JDict (SensorValue_json v)) (values self)))].

(** [Sensor.__str__] *)
Definition Sensor_str (self : Sensor) : result string :=
  lines ← mapM SensorValue_str (values self);
  Ok ("Sensor " +:+ name self +:+ ":" +:+ nl +:+ "  "
      +:+ join (nl +:+ "  ") lines).

(** [a == b] for two [SensorValue]s: the fields compared in order. *)
Definition SensorValue_eq (a b : SensorValue) : bool :=
  bool_decide (label a = label b) && bool_decide (kind a = kind b)
  && py_num_eq (value a) (value b).

(** [l.remove(x)] where [x] is the object held in slot [i] of [l]:
    the first slot, counted from [j], that holds [x] itself or a value
    equal to it is dropped. Each slot holds an object of its own, as
    after [_parse]. *)
Fixpoint list_remove (j i : nat) (x : SensorValue) (l : list SensorValue)
    : result (list SensorValue) :=
  match l with
  | [] => Raise ValueError
  | y :: l' =>
      if (j =? i)%nat || SensorValue_eq y x then Ok l'
      else l'' ← list_remove (S j) i x l'; Ok (y :: l'')
  end.

(** *** The subclasses registered in [Sensor._SPECIAL]

    [extend(hwmon, base)] works on the list object [base.values]: it
    gives its outcome together with what that list holds afterwards.
    A sensor it returns shares the list. *)

(** [cls.name]: [name] is a dataclass field without a default, which
    leaves no attribute on the class. *)
Definition Sensor_class_name : result string := Raise AttributeError.

(** [raise SensorNotSupported(cls.name, base.name)] *)
Definition raise_SensorNotSupported {A} (base : Sensor) : result A :=
  cls_name ← Sensor_class_name;
  Raise (SensorNotSupported cls_name (name base)).

Definition Axp20Battery_POWER_SUPPLY : string := "axp20x-battery-power-supply".
Definition Axp20Battery_DRIVER : string := "axp20x-rsb".
Definition Axp20Battery_ADC : string := "axp813-adc".

(** The loop [for b in hwmon.parents]: [battery] is bound anew at
    every match. *)
Definition find_battery (hwmon : path) : option path :=
  fold_left
    (fun battery b =>
       if String.eqb (path_name b) Axp20Battery_POWER_SUPPLY then Some b else battery)
    (path_parents hwmon) None.

(** [Axp20Battery.extend] *)
Definition Axp20Battery_extend (fs : FileSystem) (hwmon : path) (base : Sensor)
    : result Sensor * list SensorValue :=
  let temp :=
    hwmon ← resolve fs hwmon;
    battery ← match find_battery hwmon with
              | None => raise_SensorNotSupported base
              | Some battery =>
                  driver ← resolve fs (path_parent battery // "driver");
                  if negb (String.eqb (path_name driver) Axp20Battery_DRIVER)
                  then raise_SensorNotSupported base
                  else Ok battery
              end;
    let adc := path_parent battery // Axp20Battery_ADC in
    iio ← match glob fs adc "iio:device*" with
          | iio :: _ => Ok iio
          | [] => raise_SensorNotSupported base
          end;
    adc_value fs iio "in_temp" in
  match temp with
  | Ok t =>
      let vs := values base ++ [{| label := None; kind := TEMPERATURE; value := t |}] in
      (Ok {| name := name base; values := vs |}, vs)
  | Raise e => (Raise e, values base)
  end.

(** The loop [for i, a in enumerate(base.values)] of
    [RpiVoltage.extend]: what [i, a] are bound to when the loop is
    left, [bound] being their binding so far. *)
Fixpoint find_alarm (i : nat) (vs : list SensorValue) (bound : option (nat * SensorValue))
    : option (nat * SensorValue) :=
  match vs with
  | [] => bound
  | a :: vs' =>
      if bool_decide (label a = Some "in0_lcrit_alarm") then Some (i, a)
      else find_alarm (S i) vs' (Some (i, a))
  end.

(** [RpiVoltage.extend] *)
Definition RpiVoltage_extend (fs : FileSystem) (hwmon : path) (base : Sensor)
    : result Sensor * list SensorValue :=
  match find_alarm 0 (values base) None with
  | None => (Raise UnboundLocalError, values base)
  | Some (i, a) =>
      let alarm := {| label := Some "low voltage alarm"; kind := kind a; value := value a |} in
      match list_remove 0 i a (values base) with
      | Ok vs =>
          let vs := vs ++ [alarm] in
          (Ok {| name := name base; values := vs |}, vs)
      | Raise e => (Raise e, values base)
      end
  end.

Inductive Sensor_subclass := Axp20Battery | RpiVoltage.

Definition Sensor_SPECIAL : gmap string Sensor_subclass :=
  <["rpi_volt" := RpiVoltage]> (<["axp20x_battery" := Axp20Battery]> ∅).

Definition extend (cls : Sensor_subclass)
    : FileSystem -> path -> Sensor -> result Sensor * list SensorValue :=
  match cls with
  | Axp20Battery => Axp20Battery_extend
  | RpiVoltage => RpiVoltage_extend
  end.

(** [Sensor.parse(hwmon)]; after a caught [SensorNotSupported] the
    generic sensor is returned with its list as [extend] left it. *)
Definition Sensor_parse (fs : FileSystem) (hwmon : path) : result Sensor :=
  txt ← read_text fs (hwmon // "name");
  let name := strip txt in
  sensor ← Sensor__parse fs hwmon (Some name);
  match Sensor_SPECIAL !! name with
  | Some cls =>
      match extend cls fs hwmon sensor with
      | (Raise (SensorNotSupported _ _), vs) =>
          Ok (with_values sensor vs)
      | (r, _) => r
      end
  | None => Ok sensor
  end.

(** [@dataclass class Hwmon] *)
Record Hwmon := { Hwmon_sensors : list Sensor }.

(** [Hwmon.parse] *)
Definition Hwmon_parse (fs : FileSystem) : result Hwmon :=
  names ← listdir fs HWMON;
  sensors ← mapM (fun h => Sensor_parse fs (HWMON // h)) names;
  Ok {| Hwmon_sensors := sensors |}.

(** [Hwmon.json] *)
Definition Hwmon_json (self : Hwmon) : json :=
  JList (map Sensor_json (Hwmon_sensors self)).

(** [Hwmon.__str__] *)
Definition Hwmon_str (self : Hwmon) : result string :=
  blocks ← mapM Sensor_str (Hwmon_sensors self);
  Ok (join nl blocks).

(** [json.dump] writes a structured form piece by piece; an [int] is
    written with [int.__repr__], which raises [ValueError] for more
    than 4300 digits as [str()] does, and every other piece is
    written. A form can be dumped when none of its numbers is such
    an [int]. *)
Definition num_dumpable (n : num) : bool :=
  match n with
  | PyInt z => match int_str z with Ok _ => true | Raise _ => false end
  | PyFloat _ => true
  end.

Fixpoint json_dumpable (j : json) : bool :=
  match j with
  | JStr _ => true
  | JNum n => num_dumpable n
  | JList l => forallb json_dumpable l
  | JDict items => forallb (fun item => json_dumpable (snd item)) items
  end.

(** What a command writes to the standard output, call by call:
    [Print t] is [print(t)], the text and a newline; [JsonDump j] is
    [json.dump] of an object whose structured form is [j];
    [JsonDumpBroken j] is the part of that dump that is written
    before the first [int] of more than 4300 digits, at which
    [json.dump] raises. *)
Inductive output :=
| Print (text : string)
| JsonDump (j : json)
| JsonDumpBroken (j : json).

(** [sensors(args)], [args.json] being [as_json]: what is written,
    and the exception that ends the call, if any. [print(data)]
    builds the whole text before it writes. *)
Definition sensors (fs : FileSystem) (as_json : bool) : list output * option exn :=
  match Hwmon_parse fs with
  | Raise e => ([], Some e)
  | Ok data =>
      if as_json then
        if json_dumpable (Hwmon_json data)
        then ([JsonDump (Hwmon_json data); Print ""], None)
        else ([JsonDumpBroken (Hwmon_json data)], Some ValueError)
      else
        match Hwmon_str data with
        | Ok text => ([Print text; Print ""; Print "=^.^="], None)
        | Raise e => ([], Some e)
        end
  end.

(** ** Regular expressions *)

(** The part of [re] that the program's pattern is written in: [^],
    [$], a character, a class of characters, the greedy repetition
    [*] of a class, a numbered group and the concatenation. *)
Inductive regex :=
| Bol
| Eol
| Chr (c : ascii)
| Cls (p : ascii -> bool)
| Star (p : ascii -> bool)
| Group (n : nat) (r : regex)
| Cat (r1 r2 : regex).

(** [x+] for a class [x] *)
Definition Plus (p : ascii -> bool) : regex := Cat (Cls p) (Star p).

(** The class [.], without [re.DOTALL]; [\s] is [is_space] and [\d]
    is [is_digit] on ASCII text. *)
Definition dot (c : ascii) : bool := negb (Ascii.eqb c "010").

(** The backtracking of [*]: the longest run of the class first, then
    the shorter ones, until the rest of the pattern [k] matches.
    [pre] is the text before the position, [rest] the text from
    it. *)
Fixpoint match_star {A} (p : ascii -> bool) (pre rest : string)
    (k : string -> string -> option A) : option A :=
  match rest with
  | String c rest' =>
      if p c then
        match match_star p (pre +:+ String c "") rest' k with
        | Some m => Some m
        | None => k pre rest
        end
      else k pre rest
  | EmptyString => k pre rest
  end.

(** The match of [r] at a position, the groups matched so far being
    [groups] and [k] the rest of the pattern. *)
Fixpoint match_at (r : regex) (pre rest : string) (groups : list (nat * string))
    (k : string -> string -> list (nat * string) -> option (list (nat * string)))
    : option (list (nat * string)) :=
  match r with
  | Bol => match pre with EmptyString => k pre rest groups | _ => None end
  | Eol =>
      match rest with
      | EmptyString => k pre rest groups
      | String c EmptyString => if Ascii.eqb c "010" then k pre rest groups else None
      | _ => None
      end
  | Chr c =>
      match rest with
      | String d rest' =>
          if Ascii.eqb d c then k (pre +:+ String d "") rest' groups else None
      | EmptyString => None
      end
  | Cls p =>
      match rest with
      | String d rest' => if p d then k (pre +:+ String d "") rest' groups else None
      | EmptyString => None
      end
  | Star p => match_star p pre rest (fun pre' rest' => k pre' rest' groups)
  | Group n r =>
      match_at r pre rest groups
        (fun pre' rest' groups' =>
           k pre' rest' ((n, drop_str (String.length pre) pre') :: groups'))
  | Cat r1 r2 =>
      match_at r1 pre rest groups (fun pre' rest' groups' => match_at r2 pre' rest' groups' k)
  end.

(** [re.match(r, s)]: the groups of the match, the last closed
    first. *)
Definition re_match (r : regex) (s : string) : option (list (nat * string)) :=
  match_at r "" s [] (fun _ _ groups => Some groups).

(** [m.group(n)] of a group that took part in the match *)
Definition group (m : list (nat * string)) (n : nat) : string :=
  default "" (snd <$> List.find (fun g => Nat.eqb (fst g) n) m).

(** ** Meminfo *)

Definition MEMINFO : path := ["proc"; "meminfo"].

(** [for line in fh] on a text file of content [s]: the lines with
    their newline. *)
Fixpoint file_lines (s : string) : list string :=
  match s with
  | EmptyString => []
  | String c s' =>
      if Ascii.eqb c "010" then String c "" :: file_lines s'
      else
        match file_lines s' with
        | [] => [String c ""]
        | line :: lines => String c line :: lines
        end
  end.

(** The pattern of [Meminfo.parse]: [^], group 1 of any characters,
    a colon, white space, group 2 of digits, the text [ kB] and
    [$]. *)
Definition Meminfo_line : regex :=
  Cat Bol
   (Cat (Group 1 (Star dot))
    (Cat (Chr ":")
     (Cat (Plus is_space)
      (Cat (Group 2 (Plus is_digit))
       (Cat (Chr " ") (Cat (Chr "k") (Cat (Chr "B") Eol))))))).

(** [@dataclass class Meminfo]; the dict in insertion order *)
Record Meminfo := { stats : list (string * Z) }.

(** The body of the loop of [Meminfo.parse] *)
Definition Meminfo_parse_line (data : list (string * Z)) (line : string)
    : result (list (string * Z)) :=
  match re_match Meminfo_line line with
  | Some m =>
      value ← py_int (group m 2);
      Ok (dict_set (group m 1) value data)
  | None => Ok data
  end.

Fixpoint Meminfo_parse_lines (data : list (string * Z)) (lines : list string)
    : result (list (string * Z)) :=
  match lines with
  | [] => Ok data
  | line :: lines' =>
      data ← Meminfo_parse_line data line;
      Meminfo_parse_lines data lines'
  end.

(** [Meminfo.parse] *)
Definition Meminfo_parse (fs : FileSystem) : result Meminfo :=
  text ← read_text fs MEMINFO;
  data ← Meminfo_parse_lines [] (file_lines text);
  Ok {| stats := data |}.

(** ** The report of all items *)

Section Items.
(** Of the classes of [ITEMS] that are not modelled, [J] holds what
    their [json()] returns and [E] the exceptions they raise that are
    not in [exn]; none of [E] is a [FileNotFoundError], which is
    [OSError ENOENT]. [json.dump] writes every value of [J]: these
    classes return text, floats, and ints that [int()] has read from
    a text, which have at most 4300 digits. *)
Variables J E : Type.

(** What a call made by [_all] gives. *)
Inductive outcome (A : Type) :=
| Returns (a : A)
| Raises (e : exn + E).

(** An object of a class of the [InfoItem] protocol, as [_all] sees
    it: through [json()], which returns in every class of the
    program, and through [str()]. *)
Record InfoItem := {
  item_json : json + J;
  item_str : outcome string
}.

(** A parsed [Hwmon] as an item. *)
Definition Hwmon_item (h : Hwmon) : InfoItem :=
  {| item_json := inl (Hwmon_json h);
     item_str := match Hwmon_str h with
                 | Ok t => Returns string t
                 | Raise e => Raises string (inl e)
                 end |}.

(** What [parse()] gives in the five other classes. [Uname.parse] is
    [cls()] of a class without [__init__]: it returns. *)
Record other_classes := {
  Uname_parsed : InfoItem;
  SystemType_parsed : outcome InfoItem;
  Uptime_parsed : outcome InfoItem;
  Cpufreq_parsed : outcome InfoItem;
  Meminfo_parsed : outcome InfoItem
}.

(** [ITEMS], each class with what its [parse()] gives on the system *)
Definition ITEMS (fs : FileSystem) (o : other_classes)
    : list (string * outcome InfoItem) :=
  [("uname", Returns InfoItem (Uname_parsed o));
   ("system", SystemType_parsed o);
   ("uptime", Uptime_parsed o);
   ("cpufreq", Cpufreq_parsed o);
   ("memory", Meminfo_parsed o);
   ("hwmon", match Hwmon_parse fs with
             | Ok h => Returns InfoItem (Hwmon_item h)
             | Raise e => Raises InfoItem (inl e)
             end)].

(** The first loop of [_all] over the entries [items], [data] being
    the dict so far. *)
Fixpoint parse_items (items : list (string * outcome InfoItem))
    (data : list (string * InfoItem)) : outcome (list (string * InfoItem)) :=
  match items with
  | [] => Returns _ data
  | (name, parsed) :: items' =>
      match parsed with
      | Returns _ item => parse_items items' (dict_set name item data)
      | Raises _ (inl (OSError ENOENT)) => parse_items items' data
      | Raises _ e => Raises _ e
      end
  end.

(** The form of an item can be dumped. *)
Definition form_dumpable (form : json + J) : bool :=
  match form with
  | inl j => json_dumpable j
  | inr _ => true
  end.

(** What [_all] writes to the standard output, call by call:
    [Line t] is [print(t)], [Dump d] is [json.dump] of a dict whose
    values have the structured forms in [d], [DumpBroken d] is the
    part of that dump that is written before the first [int] of more
    than 4300 digits, at which [json.dump] raises. *)
Inductive written :=
| Line (text : string)
| Dump (data : list (string * (json + J)))
| DumpBroken (data : list (string * (json + J))).

(** The loop [for item in data.values()]: what is written, and the
    exception that ends it, if any. *)
Fixpoint print_items (data : list (string * InfoItem))
    : list written * option (exn + E) :=
  match data with
  | [] => ([], None)
  | (_, item) :: data' =>
      match item_str item with
      | Raises _ e => ([], Some e)
      | Returns _ text =>
          let (out, r) := print_items data' in
          (Line text :: Line "" :: out, r)
      end
  end.

(** [_all(args)] over the module's [ITEMS], [args.json] being
    [as_json]: what is written, and the exception that ends the call,
    if any. *)
Definition _all (items : list (string * outcome InfoItem)) (as_json : bool)
    : list written * option (exn + E) :=
  match parse_items items [] with
  | Raises _ e => ([], Some e)
  | Returns _ data =>
      if as_json then
        let forms := map (fun d => (d.1, item_json d.2)) data in
        if forallb (fun d => form_dumpable d.2) forms
        then ([Dump forms; Line ""], None)
        else ([DumpBroken forms], Some (inl ValueError))
      else
        match print_items data with
        | (out, None) => (out ++ [Line "=^.^="], None)
        | (out, Some e) => (out, Some e)
        end
  end.

End Items.

Arguments Returns {E A} a.
Arguments Raises {E A} e.
Arguments item_json {J E} _.
Arguments item_str {J E} _.
Arguments Hwmon_item {J E} h.
Arguments Uname_parsed {J E} _.
Arguments SystemType_parsed {J E} _.
Arguments Uptime_parsed {J E} _.
Arguments Cpufreq_parsed {J E} _.
Arguments Meminfo_parsed {J E} _.
Arguments ITEMS {J E} fs o.
Arguments parse_items {J E} items data.
Arguments Line {J} text.
Arguments Dump {J} data.
Arguments DumpBroken {J} data.
Arguments form_dumpable {J} form.
Arguments print_items {J E} data.
Arguments _all {J E} items as_json.

(** ** Vocabulary of the statements *)

(** No file at [p]. *)
Definition absent (fs : FileSystem) (p : path) : Prop :=
  read_text fs p = Raise (OSError ENOENT).

(** The file at [p] holds the integer [z]: [int(text.strip())]. *)
Definition holds_int (fs : FileSystem) (p : path) (z : Z) : Prop :=
  exists t, read_text fs p = Ok t /\ py_int (strip t) = Ok z.

(** The file at [p] holds the float [f]: [float(text.strip())]. *)
Definition holds_float (fs : FileSystem) (p : path) (f : spec_float) : Prop :=
  exists t, read_text fs p = Ok t /\ py_float (strip t) = Ok f.

(** No separator character in [t]. *)
Fixpoint no_separator (t : string) : bool :=
  match t with
  | EmptyString => true
  | String c t' => negb (is_separator c) && no_separator t'
  end.

(** The file at [p], when it can be read, has no separator character. *)
Definition plain_file (fs : FileSystem) (p : path) : Prop :=
  forall t, read_text fs p = Ok t -> no_separator t = true.

(** The exceptions of the operating system calls. *)
Definition os_exn (e : exn) : Prop :=
  match e with
  | OSError _ | RuntimeError => True
  | _ => False
  end.

Definition os_errors_only (fs : FileSystem) : Prop :=
  (forall p e, read_text fs p = Raise e -> os_exn e)
  /\ (forall p e, listdir fs p = Raise e -> os_exn e)
  /\ (forall p e, resolve fs p = Raise e -> os_exn e).

(** The name shown in front of a value. *)
Definition shown_name (v : SensorValue) : string :=
  or_str (label v) (lower (SensorKind_name (kind v))).

Definition has_label (l : string) (v : SensorValue) : bool :=
  bool_decide (label v = Some l).

Definition count_label (l : string) (vs : list SensorValue) : nat :=
  length (List.filter (has_label l) vs).

(** The copy [replace(a, label='low voltage alarm')]. *)
Definition relabelled (a : SensorValue) : SensorValue :=
  {| label := Some "low voltage alarm"; kind := kind a; value := value a |}.

Fixpoint last_char (s : string) : option ascii :=
  match s with
  | EmptyString => None
  | String c EmptyString => Some c
  | String _ s' => last_char s'
  end.

Definition ends_with_newline (s : string) : bool :=
  match last_char s with
  | Some c => Ascii.eqb c "010"
  | None => false
  end.

(** *** A decoder of the structured form *)

(** Modelled from the spec: the decoder of the round trip of §8,
    which the repository does not have. It reads back the keys that
    [json] writes: [type] through the lower-case kind names, [value],
    and [label] when there is one. This is the kind of a [type]. *)
Definition SensorKind_of_type (t : string) : option SensorKind :=
  List.find (fun k => String.eqb (lower (SensorKind_name k)) t) SensorKind_members.

(** Modelled from the spec: the decoder, on the record of a value. *)
Definition SensorValue_of_json (j : json) : option SensorValue :=
  match j with
  | JDict d =>
      match assoc "type" d, assoc "value" d with
      | Some (JStr t), Some (JNum n) =>
          k ← SensorKind_of_type t;
          l ← match assoc "label" d with
              | None => Some None
              | Some (JStr l) => Some (Some l)
              | Some _ => None
              end;
          Some {| label := l; kind := k; value := n |}
      | _, _ => None
      end
  | _ => None
  end.

(** Modelled from the spec: the decoder, on the record of a sensor. *)
Definition Sensor_of_json (j : json) : option Sensor :=
  match j with
  | JDict d =>
      match assoc "name" d, assoc "values" d with
      | Some (JStr n), Some (JList l) =>
          vs ← mapM SensorValue_of_json l;
          Some {| name := n; values := vs |}
      | _, _ => None
      end
  | _ => None
  end.

(** *** Directory entries, values and lines *)

(** A pattern character that stands for itself. *)
Definition literal_char (c : ascii) : bool :=
  negb (Ascii.eqb c "*") && negb (Ascii.eqb c "?").

Fixpoint literal (s : string) : bool :=
  match s with
  | EmptyString => true
  | String c s' => literal_char c && literal s'
  end.

(** The entry [n] is taken for a channel of kind [k]. *)
Definition is_channel_of (k : SensorKind) (n : string) : bool :=
  fnmatch (prefix k +:+ "*_input") n.

(** The entry [n] is taken for an alarm. *)
Definition is_alarm_file (n : string) : bool := fnmatch "*_alarm" n.

(** The entry [n] gives a value of the sensor. *)
Definition sensor_file (n : string) : bool :=
  existsb (fun k => is_channel_of k n) SensorKind_members || is_alarm_file n.

(** The value is a float only as an unlabelled temperature. *)
Definition int_or_temperature (v : SensorValue) : Prop :=
  is_int (value v) = true \/ (kind v = TEMPERATURE /\ label v = None).

(** Every character of [s] is in the class [p]. *)
Fixpoint all_chars (p : ascii -> bool) (s : string) : bool :=
  match s with
  | EmptyString => true
  | String c s' => p c && all_chars p s'
  end.

(** What [r] matches: the text [a] between [pre] and [rest], the
    groups going from [groups] to [groups']. *)
Fixpoint denotes (r : regex) (pre a rest : string) (groups groups' : list (nat * string))
    : Prop :=
  match r with
  | Bol => pre = "" /\ a = "" /\ groups' = groups
  | Eol => a = "" /\ (rest = "" \/ rest = nl) /\ groups' = groups
  | Chr c => a = String c "" /\ groups' = groups
  | Cls p => exists d, p d = true /\ a = String d "" /\ groups' = groups
  | Star p => all_chars p a = true /\ groups' = groups
  | Group n r => exists groups0, denotes r pre a rest groups groups0
                                 /\ groups' = (n, a) :: groups0
  | Cat r1 r2 =>
      exists a1 a2 groups1,
        a = a1 +:+ a2
        /\ denotes r1 pre a1 (a2 +:+ rest) groups groups1
        /\ denotes r2 (pre +:+ a1) a2 rest groups1 groups'
  end.

(** The line [line] has the form of an entry in kB: a key without
    newline, a colon, white space, digits, [ kB] and the end of the
    line. *)
Definition Meminfo_entry (line key digits : string) : Prop :=
  exists ws eol,
    line = key +:+ ":" +:+ ws +:+ digits +:+ " kB" +:+ eol
    /\ (eol = "" \/ eol = nl)
    /\ all_chars dot key = true
    /\ ws <> "" /\ all_chars is_space ws = true
    /\ digits <> "" /\ all_chars is_digit digits = true.

(** What holds of the dict while [Meminfo.parse] goes through the
    lines [seen]. *)
Definition Meminfo_inv (seen : list string) (data : list (string * Z)) : Prop :=
  List.NoDup (map fst data)
  /\ (forall k v, In (k, v) data ->
                  0 <= v /\ exists line digits,
                              In line seen /\ Meminfo_entry line k digits
                              /\ py_int digits = Ok v)
  /\ (forall line key digits,
         In line seen -> Meminfo_entry line key digits -> In key (map fst data)).

(** The value [v] is the reading of the entry [n] of [hwmon]: of a
    channel of the kind whose pattern [n] matches, or of an alarm. *)
Definition entry_value (fs : FileSystem) (hwmon : path) (n : string) (v : SensorValue)
    : Prop :=
  (exists k, is_channel_of k n = true /\ parse_channel fs hwmon k (hwmon // n) = Ok v)
  \/ (is_alarm_file n = true /\ parse_alarm fs (hwmon // n) = Ok v).

(** The number can be written by [str()], [repr()] and [json.dump]:
    it is a float, or an int of at most 4300 digits. *)
Definition few_digits (n : num) : Prop :=
  match n with
  | PyInt z => (String.length (Z_to_string (Z.abs z)) <= int_max_str_digits)%nat
  | PyFloat _ => True
  end.

(** Every value of every sensor can be written. *)
Definition all_few_digits (data : Hwmon) : Prop :=
  Forall (fun s => Forall (fun v => few_digits (value v)) (values s)) (Hwmon_sensors data).

(** ** Sample systems *)

(** An IIO device with a raw value, an offset and a scale. *)
Definition adc_tree : node :=
  Dir [("iio:device0",
        Dir [("in_temp_raw", File ("250" +:+ nl));
             ("in_temp_offset", File ("-10" +:+ nl));
             ("in_temp_scale", File ("0.1" +:+ nl))])].

(** A hwmon directory whose channel [in0] has a scale file next to
    its input, and the same reading under the ADC file name. *)
Definition scaled_tree : node :=
  Dir [("hwmon0",
        Dir [("name", File ("test" +:+ nl));
             ("in0_input", File ("100" +:+ nl));
             ("in0_raw", File ("100" +:+ nl));
             ("in0_scale", File ("0.5" +:+ nl))])].

(** A channel whose reading begins with the separator FS, under the
    hwmon and under the ADC file name, without scale. *)
Definition separator_tree : node :=
  Dir [("hwmon0",
        Dir [("in0_input", File (String "028" "100"));
             ("in0_raw", File (String "028" "100"))])].

(** A hwmon channel and an ADC channel of the same content, with an
    offset and without scale. *)
Definition offset_tree : node :=
  Dir [("hwmon0",
        Dir [("in0_input", File ("100" +:+ nl)); ("in0_offset", File "5")]);
       ("iio:device0",
        Dir [("in_temp_raw", File ("100" +:+ nl)); ("in_temp_offset", File "5")])].

(** The generic sensor of a Raspberry Pi with a supply reading. *)
Definition rpi_base : Sensor :=
  {| name := "rpi_volt";
     values := [{| label := Some "in0_lcrit_alarm"; kind := ALARM; value := PyInt 1 |};
                {| label := None; kind := VOLTAGE; value := PyInt 5000 |}] |}.

(** A battery sensor that is not below a power supply controller. *)
Definition plain_battery_tree : node :=
  Dir [("sys", Dir [("class", Dir [("hwmon", Dir [
    ("hwmon0", Dir [("name", File ("axp20x_battery" +:+ nl));
                    ("in0_input", File ("4100" +:+ nl))])])])])].

(** The sysfs of a phone with the AXP803: [hwmon3] is a link into the
    device tree, the battery is below the RSB device that also holds
    the ADC. [adc] is the content of the ADC's IIO device. *)
Definition phone_tree (adc : list (string * node)) : node :=
  Dir [("sys", Dir [
    ("class", Dir [("hwmon", Dir [
       ("hwmon3", Symlink ["sys"; "devices"; "sunxi-rsb-3a3"; "axp20x-battery-power-supply";
                           "power_supply"; "axp20x-battery"; "hwmon"; "hwmon3"])])]);
    ("bus", Dir [("rsb", Dir [("drivers", Dir [("axp20x-rsb", Dir [])])])]);
    ("devices", Dir [("sunxi-rsb-3a3", Dir [
       ("driver", Symlink ["sys"; "bus"; "rsb"; "drivers"; "axp20x-rsb"]);
       ("axp813-adc", Dir [("iio:device0", Dir adc)]);
       ("axp20x-battery-power-supply", Dir [("power_supply", Dir [("axp20x-battery", Dir [
          ("hwmon", Dir [("hwmon3", Dir [
             ("name", File ("axp20x_battery" +:+ nl));
             ("in0_input", File ("4100" +:+ nl));
             ("curr1_input", File ("-350" +:+ nl))])])])])])])])])].

Definition phone_adc : list (string * node) :=
  [("in_temp_raw", File ("250" +:+ nl)); ("in_temp_scale", File ("0.1" +:+ nl))].

Definition phone_adc_offset : list (string * node) :=
  [("in_temp_raw", File ("250" +:+ nl)); ("in_temp_offset", File ("10" +:+ nl));
   ("in_temp_scale", File ("0.1" +:+ nl))].

Definition phone_generic : Sensor :=
  {| name := "axp20x_battery";
     values := [{| label := None; kind := VOLTAGE; value := PyInt 4100 |};
                {| label := None; kind := CURRENT; value := PyInt (-350) |}] |}.

(** Two sensors as [Hwmon.parse] would give them. *)
Definition two_sensors : Hwmon :=
  {| Hwmon_sensors :=
       [{| name := "cpu_thermal";
           values := [{| label := None; kind := TEMPERATURE; value := PyInt 45000 |}] |};
        {| name := "rpi_volt";
           values := [{| label := Some "low voltage alarm"; kind := ALARM;
                         value := PyInt 0 |}] |}] |}.

(** A board with a thermal zone and the Raspberry Pi supply alarm. *)
Definition board_tree : node :=
  Dir [("sys", Dir [("class", Dir [("hwmon", Dir [
    ("hwmon0", Dir [("name", File ("cpu_thermal" +:+ nl));
                    ("temp1_input", File ("45000" +:+ nl))]);
    ("hwmon1", Dir [("name", File ("rpi_volt" +:+ nl));
                    ("in0_lcrit_alarm", File ("0" +:+ nl))])])])])].

(** *** Further systems *)

Definition bare_tree : node :=
  Dir [("sys", Dir [("class", Dir [("hwmon", Dir [
    ("hwmon0", Dir [("name", File ("soc_thermal" +:+ nl));
                    ("uevent", File "");
                    ("input", File "7")])])])])].

(** A hwmon directory whose second group has lost its name file. *)
Definition broken_tree : node :=
  Dir [("sys", Dir [("class", Dir [("hwmon", Dir [
    ("hwmon0", Dir [("name", File ("cpu_thermal" +:+ nl));
                    ("temp1_input", File ("45000" +:+ nl))]);
    ("hwmon1", Dir [("in0_input", File ("5000" +:+ nl))]);
    ("hwmon2", Dir [("name", File ("rpi_volt" +:+ nl));
                    ("in0_lcrit_alarm", File ("0" +:+ nl))])])])])].

(** A drive whose temperature channel has a label. *)
Definition labelled_tree : node :=
  Dir [("hwmon0",
        Dir [("name", File ("nvme" +:+ nl));
             ("temp1_input", File ("30000" +:+ nl));
             ("temp1_label", File ("Composite" +:+ nl))])].

(** The other classes on a machine without device tree. *)
Definition sample_classes : other_classes string string :=
  {| Uname_parsed := {| item_json := inr "uname"; item_str := Returns "Linux host" |};
     SystemType_parsed := Raises (inl (OSError ENOENT));
     Uptime_parsed := Returns {| item_json := inr "uptime"; item_str := Returns "up 0:01:00" |};
     Cpufreq_parsed := Returns {| item_json := inr "cpufreq"; item_str := Returns "" |};
     Meminfo_parsed := Returns {| item_json := inr "memory";
                                  item_str := Returns "Memory usage: 50.00%" |} |}.

(** A [/proc/meminfo] with a repeated key and an entry without
    [kB]. *)
Definition meminfo_text : string :=
  "MemTotal:       16384 kB" +:+ nl +:+ "MemAvailable:    8192 kB" +:+ nl
  +:+ "HugePages_Total:       0" +:+ nl +:+ "MemTotal:       32768 kB" +:+ nl.

Definition meminfo_tree : node :=
  Dir [("proc", Dir [("meminfo", File meminfo_text)])].


(** A text of [n] nines. *)
Fixpoint nines (n : nat) : string :=
  match n with
  | O => EmptyString
  | S n' => String "9" (nines n')
  end.

(** A group whose reading and offset have 4300 digits and less, and
    whose sum has 4301. *)
Definition huge_tree : node :=
  Dir [("sys", Dir [("class", Dir [("hwmon", Dir [
    ("hwmon0", Dir [("name", File ("big" +:+ nl));
                    ("in0_input", File (nines 4300));
                    ("in0_offset", File "1")])])])])].

(** What [Hwmon.parse] gives on it. *)
Definition huge_data : Hwmon :=
  {| Hwmon_sensors :=
       [{| name := "big";
           values := [{| label := None; kind := VOLTAGE; value := PyInt (10 ^ 4300) |}] |}] |}.

(** * Properties *)

(** ** Text and number parsing *)

Section Strip.
Variable sp : ascii -> bool.

Lemma lstrip_with_idem (s : string) : lstrip_with sp (lstrip_with sp s) = lstrip_with sp s.
Proof.
  induction s as [|c s IH]; simpl; [reflexivity|].
  destruct (sp c) eqn:E; [exact IH|]. simpl. now rewrite E.
Qed.

Lemma rstrip_with_idem (s : string) : rstrip_with sp (rstrip_with sp s) = rstrip_with sp s.
Proof.
  induction s as [|c s IH]; simpl; [reflexivity|].
  destruct (rstrip_with sp s) as [|d r] eqn:E.
  - destruct (sp c) eqn:Ec; simpl; [reflexivity|]. now rewrite Ec.
  - simpl in *. now rewrite IH.
Qed.

Lemma rstrip_with_fixed_tail (c : ascii) (s : string) :
  rstrip_with sp (String c s) = String c s -> rstrip_with sp s = s.
Proof.
  simpl. destruct (rstrip_with sp s) as [|d r] eqn:E.
  - destruct (sp c); [discriminate|]. now intros [= <-].
  - now intros [= <-].
Qed.

Lemma rstrip_lstrip_with_fixed (s : string) :
  rstrip_with sp s = s -> rstrip_with sp (lstrip_with sp s) = lstrip_with sp s.
Proof.
  induction s as [|c s IH]; intros H; [reflexivity|].
  simpl. destruct (sp c); [|exact H].
  apply IH. eapply rstrip_with_fixed_tail, H.
Qed.

Lemma strip_with_idem (s : string) : strip_with sp (strip_with sp s) = strip_with sp s.
Proof.
  unfold strip_with.
  rewrite (rstrip_lstrip_with_fixed (rstrip_with sp s)) by apply rstrip_with_idem.
  apply lstrip_with_idem.
Qed.
End Strip.

(** Without separators, [str.strip()] removes what [int()] ignores. *)
Lemma strip_number_strip (t : string) : no_separator t = true -> strip t = number_strip t.
Proof.
  intros H. unfold strip, number_strip, strip_with.
  assert (Hr : rstrip_with is_space t = rstrip_with is_c_space t
               /\ no_separator (rstrip_with is_c_space t) = true).
  { induction t as [|c t IH]; [split; reflexivity|].
    cbn [no_separator] in H. apply andb_prop in H as [Hc Ht].
    destruct (IH Ht) as [IH1 IH2]. cbn [rstrip_with]. rewrite IH1.
    unfold is_space. apply negb_true_iff in Hc. rewrite Hc, orb_false_r.
    destruct (rstrip_with is_c_space t) as [|d r].
    - destruct (is_c_space c); [split; reflexivity|].
      split; [reflexivity|]. cbn [no_separator]. now rewrite Hc.
    - split; [reflexivity|]. cbn [no_separator] in *. now rewrite Hc. }
  destruct Hr as [-> Hn]. revert Hn.
  generalize (rstrip_with is_c_space t) as u.
  induction u as [|c u IH]; [reflexivity|].
  cbn [no_separator lstrip_with]. intros Hn. apply andb_prop in Hn as [Hc Hu].
  unfold is_space at 1. apply negb_true_iff in Hc. rewrite Hc, orb_false_r.
  destruct (is_c_space c); [apply IH, Hu|reflexivity].
Qed.

Lemma py_int_strip (t : string) : no_separator t = true -> py_int (strip t) = py_int t.
Proof.
  intros H. unfold py_int. rewrite (strip_number_strip t H).
  unfold number_strip. now rewrite strip_with_idem.
Qed.

Lemma py_int_raises (s : string) (e : exn) : py_int s = Raise e -> e = ValueError.
Proof.
  unfold py_int. destruct (split_sign (number_strip s)) as [neg body].
  destruct (digitpart body) as [[[v n] [|c r]]|]; try (now intros [= <-]).
  destruct (int_max_str_digits <? n)%nat; [now intros [= <-]|discriminate].
Qed.

Lemma py_float_raises (s : string) (e : exn) : py_float s = Raise e -> e = ValueError.
Proof.
  unfold py_float. destruct (split_sign (number_strip s)) as [neg body].
  destruct (_ || _); [discriminate|].
  destruct (String.eqb _ _); [discriminate|].
  destruct (match digitpart body with Some x => x | None => _ end) as [[i ni] r].
  destruct (match r with String _ _ => _ | EmptyString => _ end) as [[f nf] r'].
  destruct (ni + nf)%nat; [now intros [= <-]|].
  destruct (exponent_part r'); [discriminate|now intros [= <-]].
Qed.

Lemma int_to_float_raises (z : Z) (e : exn) : int_to_float z = Raise e -> e = OverflowError.
Proof. unfold int_to_float. destruct (float_of_Z z); congruence. Qed.

(** ** The derivation of a reading *)

Ltac reads :=
  repeat match goal with
    | H : absent _ _ |- _ => unfold absent in H
    | H : holds_int _ _ _ |- _ => destruct H as (? & ? & ?)
    | H : holds_float _ _ _ |- _ => destruct H as (? & ? & ?)
    | H : read_text ?fs ?p = _ |- context [read_text ?fs ?p] => rewrite H
    | H : py_int ?t = _ |- context [py_int ?t] => rewrite H
    | H : py_float ?t = _ |- context [py_float ?t] => rewrite H
    | |- _ => progress cbn [mbind mret result_bind result_ret except_FileNotFoundError fmap result_fmap]
    end.

Lemma adc_value_int_iff (fs : FileSystem) (iio : path) (item : string) (v : num) :
  adc_value fs iio item = Ok v ->
  (is_int v = true <-> absent fs (iio // (item +:+ "_scale"))).
Proof.
  unfold adc_value, absent.
  destruct (read_text fs (iio // (item +:+ "_raw"))) as [t|]; [|discriminate].
  cbn [mbind result_bind]. destruct (py_int (strip t)) as [raw|]; [|discriminate].
  cbn [mbind result_bind].
  destruct (except_FileNotFoundError _ _) as [raw'|]; [|discriminate].
  cbn [mbind result_bind].
  destruct (read_text fs (iio // (item +:+ "_scale"))) as [ts|e] eqn:Hs.
  - cbn [mbind result_bind]. destruct (py_float (strip ts)) as [s|e] eqn:Hf.
    + cbn [mbind result_bind py_mul].
      destruct (int_to_float raw') as [f|e] eqn:Hc; cbn.
      * intros [= <-]. split; discriminate.
      * apply int_to_float_raises in Hc as ->. discriminate.
    + apply py_float_raises in Hf as ->. discriminate.
  - cbn. destruct e as [[]| | | | | | |]; try discriminate.
    intros [= <-]. split; reflexivity.
Qed.

(** C2. Reading [<item>_raw] as the integer [raw], [adc_value] gives
    [raw] as an integer when there is neither an offset nor a scale
    file, [raw + o] as an integer when only the offset file is there,
    and the float product of [raw + o] and [s] when both are (the
    product of Python, which converts [raw + o] to a float first and
    raises [OverflowError] when it is too large for one); what it
    returns is an integer exactly when there is no scale file. *)
Theorem adc_value_derivation (fs : FileSystem) (iio : path) (item t : string) (raw : Z) :
  read_text fs (iio // (item +:+ "_raw")) = Ok t ->
  py_int (strip t) = Ok raw ->
  let offset_file := iio // (item +:+ "_offset") in
  let scale_file := iio // (item +:+ "_scale") in
  (absent fs offset_file -> absent fs scale_file ->
   adc_value fs iio item = Ok (PyInt raw))
  /\ (forall o, holds_int fs offset_file o -> absent fs scale_file ->
      adc_value fs iio item = Ok (PyInt (raw + o)))
  /\ (forall o s, holds_int fs offset_file o -> holds_float fs scale_file s ->
      adc_value fs iio item = py_mul (PyInt (raw + o)) (PyFloat s)
      /\ py_mul (PyInt (raw + o)) (PyFloat s)
         = (f ← int_to_float (raw + o); Ok (PyFloat (float_mul f s)))
      /\ (forall v, adc_value fs iio item = Ok v -> is_float v = true))
  /\ (forall v, adc_value fs iio item = Ok v ->
      (is_int v = true <-> absent fs scale_file)).
Proof.
  intros Hraw Hint offset_file scale_file. subst offset_file scale_file.
  split; [|split; [|split]].
  - intros Ho Hs. unfold adc_value. reads; reflexivity.
  - intros o Ho Hs. unfold adc_value. reads; reflexivity.
  - intros o s Ho Hs. split; [|split; [reflexivity|]].
    + unfold adc_value. reads.
      cbn [py_mul]. destruct (int_to_float (raw + o)) as [f|e] eqn:Hc; [reflexivity|].
      now apply int_to_float_raises in Hc as ->.
    + intros v Hv. apply adc_value_int_iff in Hv. unfold is_float.
      destruct (is_int v); [|reflexivity].
      destruct Hs as (ts & Hts & _). destruct Hv as [Hv _].
      specialize (Hv eq_refl). unfold absent in Hv. congruence.
  - intros v. apply adc_value_int_iff.
Qed.

Lemma adc_value_derivation_witness :
  adc_value (tree_fs adc_tree) ["iio:device0"] "in_temp" = Ok (PyFloat (float_of_Z 24)).
Proof.
  destruct (adc_value_derivation (tree_fs adc_tree) ["iio:device0"] "in_temp"
              ("250" +:+ nl) 250 eq_refl eq_refl) as (_ & _ & H & _).
  destruct (H (-10) (float_of_decimal false 1 (-1))) as (-> & _ & _).
  - exists ("-10" +:+ nl). split; reflexivity.
  - exists ("0.1" +:+ nl). split; reflexivity.
  - reflexivity.
Defined.

(** C1, as stated, fails: with the same reading, the same (absent)
    offset and the same scale file, generic parsing leaves the integer
    100 where [adc_value] gives the float 50.0. Also without scale the
    two differ on a text with a separator character at its end, which
    [str.strip()] in [adc_value] removes and [int()] in generic
    parsing rejects. *)
Lemma channel_value_ignores_scale :
  let fs := tree_fs scaled_tree in
  let fs' := tree_fs separator_tree in
  let hwmon := ["hwmon0"] in
  (read_text fs (hwmon // "in0_input") = read_text fs (hwmon // "in0_raw")
   /\ PyInt <$> channel_value fs hwmon (hwmon // "in0_input") "in0" = Ok (PyInt 100)
   /\ adc_value fs hwmon "in0" = Ok (PyFloat (float_of_Z 50))
   /\ PyInt <$> channel_value fs hwmon (hwmon // "in0_input") "in0"
      <> adc_value fs hwmon "in0")
  /\ (read_text fs' (hwmon // "in0_input") = read_text fs' (hwmon // "in0_raw")
      /\ absent fs' (hwmon // "in0_scale")
      /\ PyInt <$> channel_value fs' hwmon (hwmon // "in0_input") "in0" = Raise ValueError
      /\ adc_value fs' hwmon "in0" = Ok (PyInt 100)).
Proof. cbv zeta. repeat split. vm_compute. discriminate. Qed.

(** C1, amended. Generic parsing reads the input file as an integer
    and adds the offset when there is an offset file; it reads no
    scale file. Where the ADC channel has no scale file and the raw
    and offset files have no separator character, the reading, the
    offset and the error behaviour of generic parsing are those of
    [adc_value] on files of the same content. *)
Theorem channel_value_eq_adc_value (fs : FileSystem) (hwmon v iio : path) (s item : string) :
  read_text fs v = read_text fs (iio // (item +:+ "_raw")) ->
  read_text fs (hwmon // (s +:+ "_offset")) = read_text fs (iio // (item +:+ "_offset")) ->
  absent fs (iio // (item +:+ "_scale")) ->
  plain_file fs (iio // (item +:+ "_raw")) ->
  plain_file fs (iio // (item +:+ "_offset")) ->
  PyInt <$> channel_value fs hwmon v s = adc_value fs iio item.
Proof.
  intros Hraw Hoff Hscale Praw Poff. unfold channel_value, adc_value.
  rewrite Hraw, Hoff, Hscale.
  destruct (read_text fs (iio // (item +:+ "_raw"))) as [t|e] eqn:Er; [|reflexivity].
  cbn [mbind result_bind]. rewrite (py_int_strip t (Praw t Er)).
  destruct (py_int t) as [raw|e]; [|reflexivity].
  cbn [mbind result_bind].
  destruct (read_text fs (iio // (item +:+ "_offset"))) as [t'|e] eqn:Eo.
  - cbn [mbind result_bind]. rewrite (py_int_strip t' (Poff t' Eo)).
    destruct (py_int t') as [o|e] eqn:Ho; [reflexivity|].
    now apply py_int_raises in Ho as ->.
  - destruct e as [[]| | | | | | |]; reflexivity.
Qed.

Lemma channel_value_eq_adc_value_witness :
  PyInt <$> channel_value (tree_fs offset_tree) ["hwmon0"] (["hwmon0"] // "in0_input") "in0"
  = adc_value (tree_fs offset_tree) ["iio:device0"] "in_temp"
  /\ adc_value (tree_fs offset_tree) ["iio:device0"] "in_temp" = Ok (PyInt 105).
Proof.
  split; [|reflexivity].
  apply (channel_value_eq_adc_value (tree_fs offset_tree) ["hwmon0"]
           (["hwmon0"] // "in0_input") ["iio:device0"] "in0" "in_temp");
    try reflexivity; intros t [= <-]; reflexivity.
Defined.

(** ** Rendering of a value *)

(** C4. A value whose kind has a unit beginning with [m] (voltage,
    temperature, current) is shown divided by 1000, followed by the
    unit without that prefix; a value whose unit begins with the micro
    sign (power, energy) is shown as stored, followed by the whole
    unit. The division and the conversion to text are Python's: they
    raise on integers beyond the range of a float or of [str]. *)
Theorem SensorValue_str_unit_prefix (v : SensorValue) (u : string) :
  unit (kind v) = Some u ->
  (startswith u "m" = true ->
     In (kind v) [VOLTAGE; TEMPERATURE; CURRENT]
     /\ u = "m" +:+ lstrip_char "m" u
     /\ SensorValue_str v =
          (q ← py_truediv (value v) (PyInt 1000);
           shown ← num_str q;
           Ok (shown_name v +:+ ": " +:+ shown +:+ " " +:+ lstrip_char "m" u)))
  /\ (startswith u "µ" = true ->
     In (kind v) [POWER; ENERGY]
     /\ SensorValue_str v =
          (shown ← num_str (value v);
           Ok (shown_name v +:+ ": " +:+ shown +:+ " " +:+ u)))
  /\ (startswith u "m" = true \/ startswith u "µ" = true).
Proof.
  destruct v as [l k x]. cbn [kind label value]. unfold SensorValue_str, shown_name.
  cbn [kind label value].
  destruct k; cbn [unit]; intros [= <-];
    (split; [intros Hm; try discriminate Hm|split; [intros Hu; try discriminate Hu|]]);
    try (right; reflexivity); try (left; reflexivity).
  all: cbn [startswith String.prefix Ascii.eqb Bool.eqb lstrip_char].
  all: try (split; [cbn; tauto|split; [reflexivity|]]).
  all: try (split; [cbn; tauto|]).
  all: destruct (py_truediv x (PyInt 1000)) as [q|e] || idtac; cbn [mbind result_bind];
       try reflexivity.
  all: destruct (num_str _); reflexivity.
Qed.

Lemma SensorValue_str_unit_prefix_witness :
  SensorValue_str {| label := None; kind := TEMPERATURE; value := PyInt 45000 |}
  = Ok "temperature: 45.0 °C"
  /\ SensorValue_str {| label := Some "rail"; kind := POWER; value := PyInt 1500000 |}
     = Ok "rail: 1500000 µW".
Proof.
  split.
  - destruct (SensorValue_str_unit_prefix
                {| label := None; kind := TEMPERATURE; value := PyInt 45000 |}
                "m°C" eq_refl) as [H _].
    destruct (H eq_refl) as (_ & _ & ->). reflexivity.
  - destruct (SensorValue_str_unit_prefix
                {| label := Some "rail"; kind := POWER; value := PyInt 1500000 |}
                "µW" eq_refl) as (_ & H & _).
    destruct (H eq_refl) as (_ & ->). reflexivity.
Defined.

(** ** The structured form *)

(** C10. The record of a value carries the stored number as it is,
    and the unit of its kind whole, also where text rendering would
    divide and strip; it has no [unit] key for a kind without unit and
    no [label] key for a label that is [None] or empty. *)
Theorem SensorValue_json_fields (v : SensorValue) :
  let d := SensorValue_json v in
  assoc "type" d = Some (JStr (lower (SensorKind_name (kind v))))
  /\ assoc "value" d = Some (JNum (value v))
  /\ assoc "unit" d = JStr <$> unit (kind v)
  /\ (In (kind v) [VOLTAGE; TEMPERATURE; CURRENT] ->
      exists u, assoc "unit" d = Some (JStr ("m" +:+ u)))
  /\ (assoc "unit" d = None <-> unit (kind v) = None)
  /\ (assoc "label" d = None <-> label v = None \/ label v = Some "")
  /\ (forall l, label v = Some l -> l <> "" -> assoc "label" d = Some (JStr l)).
Proof.
  destruct v as [l k x]. cbn [kind label value]. unfold SensorValue_json.
  cbn [kind label value].
  destruct k; destruct l as [[|c l]|]; cbn;
    (split; [reflexivity|split; [reflexivity|split; [reflexivity|split; [|split; [|split]]]]]).
  all: try (intros _; eexists; reflexivity).
  all: try (intros [H|[H|[H|[]]]]; discriminate H).
  all: try (split; [reflexivity || discriminate | reflexivity || discriminate]).
  all: try (split; [reflexivity || discriminate | tauto]).
  all: try (split; [tauto | reflexivity || discriminate]).
  all: try (split; [discriminate | intros [H|H]; discriminate H]).
  all: try (intros l' [= <-] Hne; reflexivity || congruence).
  all: try (intros l' H; discriminate H).
Qed.

Lemma SensorValue_json_fields_witness :
  let v := {| label := Some ""; kind := VOLTAGE; value := PyInt 5000 |} in
  assoc "value" (SensorValue_json v) = Some (JNum (PyInt 5000))
  /\ assoc "unit" (SensorValue_json v) = Some (JStr "mV")
  /\ assoc "label" (SensorValue_json v) = None.
Proof.
  intros v.
  destruct (SensorValue_json_fields v) as (_ & Hv & Hu & _ & _ & Hl & _).
  split; [exact Hv|split; [exact Hu|]].
  apply Hl. right. reflexivity.
Defined.

Lemma SensorValue_of_json_json (v : SensorValue) :
  label v <> Some "" -> SensorValue_of_json (JDict (SensorValue_json v)) = Some v.
Proof.
  destruct v as [l k x]. cbn [label]. intros Hl.
  destruct k; destruct l as [[|c l]|]; try congruence; reflexivity.
Qed.

(** C5, as stated, fails: a label that is the empty string is left
    out of the record like an absent one, so two sensors whose values
    differ have the same structured form, and the decoder gives the
    one without label for both. *)
Lemma Sensor_json_forgets_empty_label :
  let s1 := {| name := "s"; values := [{| label := Some ""; kind := ALARM; value := PyInt 0 |}] |} in
  let s2 := {| name := "s"; values := [{| label := None; kind := ALARM; value := PyInt 0 |}] |} in
  Sensor_json s1 = Sensor_json s2
  /\ Sensor_of_json (Sensor_json s1) = Some s2
  /\ ~ values s2 ≡ₚ values s1.
Proof.
  cbv zeta. split; [reflexivity|split; [reflexivity|]].
  cbn [values]. intros H. apply Permutation_singleton_l in H. discriminate H.
Qed.

(** C5, amended. For a sensor none of whose values has the empty
    string as label, decoding the structured form gives the sensor
    back: the same name, and the same values (in the same order, hence
    also as a multiset). *)
Theorem Sensor_json_roundtrip (s : Sensor) :
  Forall (fun v => label v <> Some "") (values s) ->
  Sensor_of_json (Sensor_json s) = Some s
  /\ exists s', Sensor_of_json (Sensor_json s) = Some s'
       /\ name s' = name s /\ values s' ≡ₚ values s.
Proof.
  intros H.
  assert (E : Sensor_of_json (Sensor_json s) = Some s).
  { destruct s as [n vs]. cbn [values] in H. unfold Sensor_json, Sensor_of_json.
    cbn [name values assoc String.eqb Ascii.eqb Bool.eqb].
    assert (Hm : mapM SensorValue_of_json
                   (map (fun v => JDict (SensorValue_json v)) vs) = Some vs).
    { induction H as [|v vs Hv _ IH]; [reflexivity|].
      cbn [map mapM]. rewrite (SensorValue_of_json_json v Hv). cbn.
      cbn in IH. now rewrite IH. }
    now rewrite Hm. }
  split; [exact E|]. exists s. split; [exact E|split; reflexivity].
Qed.

Lemma Sensor_json_roundtrip_witness :
  let s := {| name := "cpu_thermal";
              values := [{| label := None; kind := TEMPERATURE; value := PyInt 45000 |};
                         {| label := Some "vdd"; kind := VOLTAGE;
                            value := PyFloat (float_of_Z 25) |}] |} in
  Sensor_of_json (Sensor_json s) = Some s.
Proof.
  intros s. apply (Sensor_json_roundtrip s).
  repeat constructor; discriminate.
Defined.

(** ** The low voltage alarm of Raspberry Pi boards *)

Lemma count_label_app (l : string) (xs ys : list SensorValue) :
  count_label l (xs ++ ys) = (count_label l xs + count_label l ys)%nat.
Proof. unfold count_label. now rewrite List.filter_app, length_app. Qed.

Lemma count_label_cons (l : string) (x : SensorValue) (xs : list SensorValue) :
  count_label l (x :: xs) = ((if has_label l x then 1 else 0) + count_label l xs)%nat.
Proof. unfold count_label. cbn [List.filter]. now destruct (has_label l x). Qed.

Lemma count_label_zero (l : string) (vs : list SensorValue) :
  count_label l vs = 0%nat -> Forall (fun v => has_label l v = false) vs.
Proof.
  induction vs as [|v vs IH]; [constructor|].
  rewrite count_label_cons. destruct (has_label l v) eqn:E; [discriminate|].
  intros H. constructor; [exact E|apply IH, H].
Qed.

(** Exactly one value labelled [l]: the list splits around it. *)
Lemma count_label_one (l : string) (vs : list SensorValue) :
  count_label l vs = 1%nat ->
  exists before a after,
    vs = before ++ a :: after /\ has_label l a = true
    /\ count_label l before = 0%nat /\ count_label l after = 0%nat.
Proof.
  induction vs as [|v vs IH]; [discriminate|].
  rewrite count_label_cons. destruct (has_label l v) eqn:E.
  - intros [= H]. exists [], v, vs. repeat split; assumption.
  - intros H. destruct (IH H) as (b & a & r & -> & Ha & Hb & Hr).
    exists (v :: b), a, r. repeat split; try assumption.
    rewrite count_label_cons, E. exact Hb.
Qed.

Lemma find_alarm_first (i : nat) (before after : list SensorValue) (a : SensorValue)
    (bound : option (nat * SensorValue)) :
  Forall (fun v => has_label "in0_lcrit_alarm" v = false) before ->
  has_label "in0_lcrit_alarm" a = true ->
  find_alarm i (before ++ a :: after) bound = Some ((i + length before)%nat, a).
Proof.
  intros Hb Ha. revert i bound.
  induction Hb as [|v before Hv _ IH]; intros i bound; cbn [app find_alarm length].
  - fold (has_label "in0_lcrit_alarm" a). rewrite Ha. do 2 f_equal. lia.
  - fold (has_label "in0_lcrit_alarm" v). rewrite Hv, IH. do 2 f_equal. lia.
Qed.

(** Without a match the loop ends on the last value. *)
Lemma find_alarm_none (i : nat) (vs : list SensorValue) (bound : option (nat * SensorValue)) :
  Forall (fun v => has_label "in0_lcrit_alarm" v = false) vs ->
  find_alarm i vs bound =
    match List.rev vs with
    | [] => bound
    | a :: _ => Some ((i + length vs - 1)%nat, a)
    end.
Proof.
  intros H. revert i bound.
  induction H as [|v vs Hv _ IH]; intros i bound; [reflexivity|].
  cbn [find_alarm]. fold (has_label "in0_lcrit_alarm" v). rewrite Hv, IH.
  cbn [List.rev length]. destruct (List.rev vs) as [|a r] eqn:E; cbn [app].
  - apply (f_equal (@length _)) in E. rewrite length_rev in E.
    destruct vs; [|discriminate]. do 2 f_equal. cbn. lia.
  - do 2 f_equal. lia.
Qed.

Lemma list_remove_at (j : nat) (before after : list SensorValue) (a : SensorValue) :
  Forall (fun v => SensorValue_eq v a = false) before ->
  list_remove j (j + length before) a (before ++ a :: after) = Ok (before ++ after).
Proof.
  intros H. revert j.
  induction H as [|v before Hv _ IH]; intros j; cbn [app list_remove length].
  - replace (j =? j + 0)%nat with true by (symmetry; apply Nat.eqb_eq; lia). reflexivity.
  - replace (j =? j + S (length before))%nat with false
      by (symmetry; apply Nat.eqb_neq; lia).
    rewrite Hv. cbn [orb].
    replace (j + S (length before))%nat with (S j + length before)%nat by lia.
    now rewrite IH.
Qed.

Lemma other_label_not_eq (l : string) (v a : SensorValue) :
  has_label l v = false -> has_label l a = true -> SensorValue_eq v a = false.
Proof.
  unfold has_label, SensorValue_eq. intros Hv Ha.
  apply bool_decide_eq_false in Hv. apply bool_decide_eq_true in Ha.
  rewrite Ha. rewrite bool_decide_eq_false_2 by exact Hv. reflexivity.
Qed.

(** C6, as stated, fails: a sensor with one value labelled
    [in0_lcrit_alarm] and another already labelled [low voltage alarm],
    of the same kind and value, has two values of that label, kind and
    value after the extension. *)
Lemma RpiVoltage_extend_second_alarm_label :
  let base := {| name := "rpi_volt";
                 values := [{| label := Some "in0_lcrit_alarm"; kind := ALARM; value := PyInt 0 |};
                            {| label := Some "low voltage alarm"; kind := ALARM; value := PyInt 0 |}] |} in
  count_label "in0_lcrit_alarm" (values base) = 1%nat
  /\ exists s, fst (RpiVoltage_extend (tree_fs (Dir [])) (HWMON // "hwmon0") base) = Ok s
       /\ values s = [{| label := Some "low voltage alarm"; kind := ALARM; value := PyInt 0 |};
                      {| label := Some "low voltage alarm"; kind := ALARM; value := PyInt 0 |}]
       /\ count_label "low voltage alarm" (values s) = 2%nat.
Proof. cbv zeta. split; [reflexivity|]. eexists. repeat split. Qed.

(** C6, amended. On a sensor with exactly one value labelled
    [in0_lcrit_alarm] and none labelled [low voltage alarm], the
    extension drops that value, keeps the others as they are and in
    their order, and appends a copy of the dropped one under the label
    [low voltage alarm]: afterwards no value has the old label and
    exactly one has the new one, with the kind and value of the
    original. The returned sensor shares the list of [base]. *)
Theorem RpiVoltage_extend_relabels (fs : FileSystem) (hwmon : path) (base : Sensor) :
  count_label "in0_lcrit_alarm" (values base) = 1%nat ->
  count_label "low voltage alarm" (values base) = 0%nat ->
  exists before a after,
    values base = before ++ a :: after
    /\ label a = Some "in0_lcrit_alarm"
    /\ let vs := before ++ after ++ [relabelled a] in
       RpiVoltage_extend fs hwmon base = (Ok {| name := name base; values := vs |}, vs)
       /\ count_label "in0_lcrit_alarm" vs = 0%nat
       /\ count_label "low voltage alarm" vs = 1%nat
       /\ kind (relabelled a) = kind a /\ value (relabelled a) = value a.
Proof.
  intros H1 H0.
  destruct (count_label_one _ _ H1) as (before & a & after & E & Ha & Hb & Hr).
  exists before, a, after. split; [exact E|].
  split; [now apply bool_decide_eq_true in Ha|].
  cbv zeta. rewrite E in H0. rewrite count_label_app, count_label_cons in H0.
  split; [|split; [|split; [|split; reflexivity]]].
  - unfold RpiVoltage_extend. rewrite E.
    rewrite (find_alarm_first 0 before after a None (count_label_zero _ _ Hb) Ha).
    pose proof (list_remove_at 0 before after a) as Hrm. cbn [Nat.add] in *.
    rewrite Hrm.
    + fold (relabelled a). now rewrite <- app_assoc.
    + eapply Forall_impl; [apply (count_label_zero _ _ Hb)|].
      intros v Hv. cbn beta in Hv. eapply other_label_not_eq; eassumption.
  - rewrite !count_label_app, Hb, Hr. reflexivity.
  - rewrite !count_label_app.
    change (count_label "low voltage alarm" [relabelled a]) with 1%nat. lia.
Qed.

Lemma RpiVoltage_extend_relabels_witness :
  exists before a after,
    values rpi_base = before ++ a :: after
    /\ label a = Some "in0_lcrit_alarm"
    /\ let vs := before ++ after ++ [relabelled a] in
       RpiVoltage_extend (tree_fs (Dir [])) (HWMON // "hwmon1") rpi_base
       = (Ok {| name := name rpi_base; values := vs |}, vs)
       /\ count_label "in0_lcrit_alarm" vs = 0%nat
       /\ count_label "low voltage alarm" vs = 1%nat
       /\ kind (relabelled a) = kind a /\ value (relabelled a) = value a.
Proof.
  exact (RpiVoltage_extend_relabels (tree_fs (Dir [])) (HWMON // "hwmon1") rpi_base
           eq_refl eq_refl).
Defined.

Example RpiVoltage_extend_rpi_base :
  fst (RpiVoltage_extend (tree_fs (Dir [])) (HWMON // "hwmon1") rpi_base)
  = Ok {| name := "rpi_volt";
          values := [{| label := None; kind := VOLTAGE; value := PyInt 5000 |};
                     {| label := Some "low voltage alarm"; kind := ALARM; value := PyInt 1 |}] |}.
Proof. reflexivity. Qed.

(** The extension never signals [SensorNotSupported]. *)
Lemma list_remove_raises (j i : nat) (x : SensorValue) (l : list SensorValue) (e : exn) :
  list_remove j i x l = Raise e -> e = ValueError.
Proof.
  revert j. induction l as [|y l IH]; intros j; cbn [list_remove].
  - now intros [= <-].
  - destruct (_ || _); [discriminate|].
    destruct (list_remove (S j) i x l) eqn:E; [discriminate|].
    cbn. intros [= <-]. eapply IH, E.
Qed.

Lemma RpiVoltage_extend_never_declines (fs : FileSystem) (hwmon : path) (base : Sensor)
    (c b : string) :
  fst (RpiVoltage_extend fs hwmon base) <> Raise (SensorNotSupported c b).
Proof.
  unfold RpiVoltage_extend. destruct (find_alarm 0 (values base) None) as [[i a]|].
  - destruct (list_remove 0 i a (values base)) as [vs|e] eqn:E; [discriminate|].
    apply list_remove_raises in E as ->. discriminate.
  - discriminate.
Qed.

(** With no value at all the loop variable is unbound. *)
Lemma RpiVoltage_extend_no_values (fs : FileSystem) (hwmon : path) (n : string) :
  RpiVoltage_extend fs hwmon {| name := n; values := [] |} = (Raise UnboundLocalError, []).
Proof. reflexivity. Qed.

Lemma list_remove_in_range (j i : nat) (x : SensorValue) (l : list SensorValue) :
  (j <= i < j + length l)%nat -> exists l', list_remove j i x l = Ok l'.
Proof.
  revert j. induction l as [|y l IH]; intros j H; cbn [length] in H; [lia|].
  cbn [list_remove]. destruct (j =? i)%nat eqn:E; cbn [orb]; [eauto|].
  destruct (SensorValue_eq y x); [eauto|].
  apply Nat.eqb_neq in E. destruct (IH (S j)) as [l' ->]; [lia|]. cbn. eauto.
Qed.

(** Without a value labelled [in0_lcrit_alarm], a sensor that has
    values goes through the extension without an error: the loop ends
    on the last value, which is taken for the alarm. *)
Lemma RpiVoltage_extend_no_match (fs : FileSystem) (hwmon : path) (base : Sensor) :
  count_label "in0_lcrit_alarm" (values base) = 0%nat ->
  values base <> [] ->
  exists vs a, RpiVoltage_extend fs hwmon base
               = (Ok {| name := name base; values := vs ++ [relabelled a] |},
                  vs ++ [relabelled a])
               /\ List.last (values base) a = a.
Proof.
  intros H0 Hne. unfold RpiVoltage_extend.
  rewrite (find_alarm_none 0 (values base) None (count_label_zero _ _ H0)).
  destruct (values base) as [|v vs] eqn:E using rev_ind; [congruence|]. clear IHvs.
  rewrite rev_unit.
  destruct (list_remove_in_range 0 (0 + length (vs ++ [v]) - 1) v (vs ++ [v])) as [l' ->].
  { rewrite length_app. cbn. lia. }
  exists l', v. split; [reflexivity|]. apply last_last.
Qed.

(** C7: the code does not fail. A sensor named [rpi_volt] whose only
    value is a voltage reading, none labelled [in0_lcrit_alarm], comes
    back with that reading labelled [low voltage alarm]. *)
Theorem RpiVoltage_extend_without_alarm_returns :
  let base := {| name := "rpi_volt";
                 values := [{| label := None; kind := VOLTAGE; value := PyInt 5000 |}] |} in
  count_label "in0_lcrit_alarm" (values base) = 0%nat
  /\ RpiVoltage_extend (tree_fs (Dir [])) (HWMON // "hwmon1") base
     = (Ok {| name := "rpi_volt";
              values := [{| label := Some "low voltage alarm"; kind := VOLTAGE;
                            value := PyInt 5000 |}] |},
        [{| label := Some "low voltage alarm"; kind := VOLTAGE; value := PyInt 5000 |}]).
Proof. cbv zeta. split; reflexivity. Qed.

(** ** Dispatch to the registered subclasses *)

Lemma stat_at_raises (n : node) (p : path) (e : exn) : stat_at n p = Raise e -> os_exn e.
Proof.
  revert n. induction p as [|c p IH]; intros n; cbn [stat_at]; [discriminate|].
  destruct n as [t|es|t]; try (intros [= <-]; exact I).
  destruct (assoc c es) as [n'|]; [apply IH|intros [= <-]; exact I].
Qed.

Lemma realpath_raises (links : nat) (root : node) (cur rest : path) (e : exn) :
  realpath links root cur rest = Raise e -> os_exn e.
Proof.
  revert cur rest. induction links as [|links IH]; intros cur rest; cbn [realpath].
  - intros [= <-]. exact I.
  - revert cur. induction rest as [|c rest IHr]; intros cur; [discriminate|].
    destruct (stat_at root (cur ++ [c])) as [[t|es|t]|e']; try apply IHr. apply IH.
Qed.

Lemma tree_stat_raises (root : node) (p : path) (e : exn) :
  tree_stat root p = Raise e -> os_exn e.
Proof.
  unfold tree_stat. destruct (tree_resolve root p); [apply stat_at_raises|].
  intros [= <-]. exact I.
Qed.

Lemma tree_fs_os_errors_only (root : node) : os_errors_only (tree_fs root).
Proof.
  repeat split; cbn [read_text listdir resolve tree_fs]; intros p e.
  - unfold tree_read_text. destruct (tree_stat root p) as [[t|es|t]|e'] eqn:E; cbn;
      try discriminate; try (intros [= <-]; exact I).
    intros [= <-]. eapply tree_stat_raises, E.
  - unfold tree_listdir. destruct (tree_stat root p) as [[t|es|t]|e'] eqn:E; cbn;
      try discriminate; try (intros [= <-]; exact I).
    intros [= <-]. eapply tree_stat_raises, E.
  - apply realpath_raises.
Qed.

Lemma py_mul_raises (a b : num) (e : exn) : py_mul a b = Raise e -> e = OverflowError.
Proof.
  destruct a as [x|x], b as [y|y]; cbn [py_mul]; try discriminate.
  - destruct (int_to_float x) eqn:E; [discriminate|]. cbn. intros [= <-].
    eapply int_to_float_raises, E.
  - destruct (int_to_float y) eqn:E; [discriminate|]. cbn. intros [= <-].
    eapply int_to_float_raises, E.
Qed.

(** What [adc_value] can raise. *)
Lemma adc_value_raises (fs : FileSystem) (iio : path) (item : string) (e : exn) :
  os_errors_only fs ->
  adc_value fs iio item = Raise e -> os_exn e \/ e = ValueError \/ e = OverflowError.
Proof.
  intros (Hr & _ & _). unfold adc_value.
  destruct (read_text fs (iio // (item +:+ "_raw"))) as [t|e0] eqn:E0;
    [|intros [= <-]; left; eapply Hr, E0].
  cbn [mbind result_bind].
  destruct (py_int (strip t)) as [raw|e1] eqn:E1;
    [|intros [= <-]; right; left; eapply py_int_raises, E1].
  cbn [mbind result_bind].
  destruct (read_text fs (iio // (item +:+ "_offset"))) as [t2|e2] eqn:E2.
  - cbn [mbind result_bind]. destruct (py_int (strip t2)) as [o|e3] eqn:E3.
    + cbn [mbind result_bind except_FileNotFoundError].
      destruct (read_text fs (iio // (item +:+ "_scale"))) as [t4|e4] eqn:E4.
      * cbn [mbind result_bind]. destruct (py_float (strip t4)) as [s|e5] eqn:E5.
        -- cbn [mbind result_bind]. destruct (py_mul _ _) as [v|e6] eqn:E6; [discriminate|].
           apply py_mul_raises in E6 as ->. cbn. intros [= <-]. tauto.
        -- apply py_float_raises in E5 as ->. cbn. intros [= <-]. tauto.
      * cbn. pose proof (Hr _ _ E4) as H4.
        destruct e4 as [[]| | | | | | |]; try discriminate; intros [= <-]; tauto.
    + apply py_int_raises in E3 as ->. cbn. intros [= <-]. tauto.
  - pose proof (Hr _ _ E2) as H2. cbn [mbind result_bind].
    assert (Hs : forall raw' : Z,
               except_FileNotFoundError
                 (txt ← read_text fs (iio // (item +:+ "_scale"));
                  scale ← py_float (strip txt);
                  py_mul (PyInt raw') (PyFloat scale)) (Ok (PyInt raw')) = Raise e ->
               os_exn e \/ e = ValueError \/ e = OverflowError).
    { intros raw'.
      destruct (read_text fs (iio // (item +:+ "_scale"))) as [t4|e4] eqn:E4.
      * cbn [mbind result_bind]. destruct (py_float (strip t4)) as [s|e5] eqn:E5.
        -- cbn [mbind result_bind]. destruct (py_mul _ _) as [v|e6] eqn:E6; [discriminate|].
           apply py_mul_raises in E6 as ->. cbn. intros [= <-]. tauto.
        -- apply py_float_raises in E5 as ->. cbn. intros [= <-]. tauto.
      * cbn. pose proof (Hr _ _ E4) as H4.
        destruct e4 as [[]| | | | | | |]; try discriminate; intros [= <-]; tauto. }
    destruct e2 as [[]| | | | | | |]; cbn; try (intros [= <-]; tauto); try apply Hs.
Qed.

(** No input makes [Axp20Battery.extend] raise [SensorNotSupported]:
    building the exception fails first, on [cls.name]. *)
Lemma Axp20Battery_extend_never_declines (fs : FileSystem) (hwmon : path) (base : Sensor)
    (c b : string) :
  os_errors_only fs ->
  fst (Axp20Battery_extend fs hwmon base) <> Raise (SensorNotSupported c b).
Proof.
  intros Hfs. pose proof Hfs as (_ & _ & Hres). unfold Axp20Battery_extend.
  match goal with |- fst (match ?t with _ => _ end) <> _ => destruct t as [v|e] eqn:E end;
    [discriminate|].
  cbn [fst]. intros [= H]. subst e. revert E.
  destruct (resolve fs hwmon) as [p|e0] eqn:E0;
    [|intros [= ->]; exact (Hres _ _ E0)].
  cbn [mbind result_bind].
  destruct (find_battery p) as [battery|]; [|discriminate].
  destruct (resolve fs (path_parent battery // "driver")) as [d|e1] eqn:E1;
    [|intros [= ->]; exact (Hres _ _ E1)].
  cbn [mbind result_bind].
  destruct (negb _); [discriminate|]. cbn [mbind result_bind].
  destruct (glob fs _ _) as [|iio l]; [discriminate|]. cbn [mbind result_bind].
  intros E. apply (adc_value_raises fs iio "in_temp" _ Hfs) in E.
  destruct E as [H|[H|H]]; [exact H|discriminate H|discriminate H].
Qed.

(** The handler of [Sensor.parse] is never reached. *)
Lemma registered_extend_never_declines (cls : Sensor_subclass) (fs : FileSystem)
    (hwmon : path) (base : Sensor) (c b : string) :
  os_errors_only fs ->
  fst (extend cls fs hwmon base) <> Raise (SensorNotSupported c b).
Proof.
  intros Hfs. destruct cls; cbn [extend].
  - now apply Axp20Battery_extend_never_declines.
  - apply RpiVoltage_extend_never_declines.
Qed.

(** C3: the fallback is not reached. For a group named
    [axp20x_battery] whose path has no ancestor
    [axp20x-battery-power-supply], generic parsing succeeds, the
    extension fails with [AttributeError] while it builds its
    [SensorNotSupported], and [Sensor.parse] passes that error on
    instead of returning the generic sensor. *)
Theorem Sensor_parse_unsupported_battery :
  let fs := tree_fs plain_battery_tree in
  let hwmon := HWMON // "hwmon0" in
  let generic := {| name := "axp20x_battery";
                    values := [{| label := None; kind := VOLTAGE; value := PyInt 4100 |}] |} in
  Sensor__parse fs hwmon None = Ok generic
  /\ Sensor_SPECIAL !! "axp20x_battery" = Some Axp20Battery
  /\ find_battery hwmon = None
  /\ Axp20Battery_extend fs hwmon generic = (Raise AttributeError, values generic)
  /\ Sensor_parse fs hwmon = Raise AttributeError.
Proof. cbv zeta. repeat split; vm_compute; reflexivity. Qed.

(** ** The battery temperature of the AXP20x *)

Lemma path_name_app (p : path) (c : string) : path_name (p ++ [c]) = c.
Proof. apply last_last. Qed.

Lemma path_parent_app (p : path) (c : string) : path_parent (p ++ [c]) = p.
Proof. apply removelast_last. Qed.

(** The walk over the parents keeps the outermost directory of the
    wanted name. *)
Lemma find_battery_outermost (pre post : path) :
  ~ In Axp20Battery_POWER_SUPPLY pre -> post <> [] ->
  find_battery (pre ++ Axp20Battery_POWER_SUPPLY :: post)
  = Some (pre ++ [Axp20Battery_POWER_SUPPLY]).
Proof.
  intros Hpre Hpost. unfold find_battery, path_parents.
  set (p := pre ++ Axp20Battery_POWER_SUPPLY :: post).
  set (f := fun (battery : option path) (b : path) =>
              if String.eqb (path_name b) Axp20Battery_POWER_SUPPLY then Some b else battery).
  assert (Hlow : forall n acc, (n <= S (length pre))%nat ->
                               fold_left f (parents_from n p) acc = acc).
  { induction n as [|n IH]; intros acc Hn; [reflexivity|].
    cbn [parents_from fold_left]. rewrite IH by lia. unfold f.
    replace (take n p) with (take n pre)
      by (unfold p; rewrite take_app_le by lia; reflexivity).
    destruct (String.eqb_spec (path_name (take n pre)) Axp20Battery_POWER_SUPPLY) as [E|];
      [|reflexivity].
    exfalso. unfold path_name in E.
    destruct (take n pre) as [|x l] eqn:Et; [discriminate E|].
    assert (Hin : In (List.last (x :: l) "") (x :: l))
      by (destruct (exists_last (l := x :: l)) as (l' & a & ->);
          [discriminate|rewrite last_last; apply in_or_app; right; left; reflexivity]).
    rewrite E, <- Et in Hin. apply Hpre.
    apply list_elem_of_In, (subseteq_take n pre), list_elem_of_In, Hin. }
  assert (Hhigh : forall n acc, (S (S (length pre)) <= n)%nat ->
                                fold_left f (parents_from n p) acc
                                = Some (pre ++ [Axp20Battery_POWER_SUPPLY])).
  { induction n as [|n IH]; intros acc Hn; [lia|].
    cbn [parents_from fold_left].
    destruct (Nat.eq_dec n (S (length pre))) as [->|Hne]; [|apply IH; lia].
    rewrite Hlow by lia. unfold f.
    replace (take (S (length pre)) p) with (pre ++ [Axp20Battery_POWER_SUPPLY]).
    - rewrite path_name_app, String.eqb_refl. reflexivity.
    - unfold p. rewrite take_app_ge by lia.
      replace (S (length pre) - length pre)%nat with 1%nat by lia. reflexivity. }
  apply Hhigh. unfold p. rewrite length_app. cbn [length].
  destruct post; [congruence|]. cbn [length]. lia.
Qed.

(** C8, as stated, fails: the ADC channel may have an offset file
    besides the raw value 250 and the scale 0.1; with an offset of 10
    the appended temperature is 26.0. *)
Lemma Axp20Battery_extend_adds_offset :
  let fs := tree_fs (phone_tree phone_adc_offset) in
  let hwmon := HWMON // "hwmon3" in
  let device := ["sys"; "devices"; "sunxi-rsb-3a3"] in
  let iio := device // "axp813-adc" // "iio:device0" in
  Sensor__parse fs hwmon None = Ok phone_generic
  /\ resolve fs hwmon = Ok (device ++ ["axp20x-battery-power-supply"; "power_supply";
                                        "axp20x-battery"; "hwmon"; "hwmon3"])
  /\ path_name <$> resolve fs (device // "driver") = Ok "axp20x-rsb"
  /\ glob fs (device // "axp813-adc") "iio:device*" = [iio]
  /\ holds_int fs (iio // "in_temp_raw") 250
  /\ holds_float fs (iio // "in_temp_scale") (float_of_decimal false 1 (-1))
  /\ fst (Axp20Battery_extend fs hwmon phone_generic)
     = Ok {| name := "axp20x_battery";
             values := values phone_generic
                       ++ [{| label := None; kind := TEMPERATURE;
                              value := PyFloat (float_of_Z 26) |}] |}
  /\ float_of_Z 26 <> float_of_Z 25.
Proof.
  cbv zeta. repeat split; try (vm_compute; reflexivity).
  - exists ("250" +:+ nl). split; reflexivity.
  - exists ("0.1" +:+ nl). split; reflexivity.
  - vm_compute. discriminate.
Qed.

(** C8, amended. Let the resolved path of the group have an ancestor
    named [axp20x-battery-power-supply], the outermost of that name,
    let the [driver] next to it resolve to a path named [axp20x-rsb],
    and let the first [iio:device*] entry of the [axp813-adc] next to
    it have [in_temp_raw] 250, [in_temp_scale] 0.1 and no
    [in_temp_offset]. Then the extension returns the sensor of the
    same name whose values are those of the generic sensor followed by
    one temperature value 25.0 without label. *)
Theorem Axp20Battery_extend_temperature (fs : FileSystem) (hwmon pre post driver iio : path)
    (others : list path) (base : Sensor) :
  resolve fs hwmon = Ok (pre ++ Axp20Battery_POWER_SUPPLY :: post) ->
  ~ In Axp20Battery_POWER_SUPPLY pre ->
  post <> [] ->
  resolve fs (pre // "driver") = Ok driver ->
  path_name driver = Axp20Battery_DRIVER ->
  glob fs (pre // Axp20Battery_ADC) "iio:device*" = iio :: others ->
  holds_int fs (iio // "in_temp_raw") 250 ->
  absent fs (iio // "in_temp_offset") ->
  holds_float fs (iio // "in_temp_scale") (float_of_decimal false 1 (-1)) ->
  let t := {| label := None; kind := TEMPERATURE; value := PyFloat (float_of_Z 25) |} in
  Axp20Battery_extend fs hwmon base
  = (Ok {| name := name base; values := values base ++ [t] |}, values base ++ [t])
  /\ num_str (value t) = Ok "25.0".
Proof.
  intros Hres Hpre Hpost Hdrv Hname Hglob Hraw Hoff Hscale.
  split; [|reflexivity].
  unfold Axp20Battery_extend. rewrite Hres. cbn [mbind result_bind].
  rewrite (find_battery_outermost pre post Hpre Hpost), path_parent_app, Hdrv.
  cbn [mbind result_bind]. rewrite Hname, String.eqb_refl. cbn [negb mbind result_bind].
  rewrite path_parent_app, Hglob. cbn [mbind result_bind].
  unfold adc_value.
  change ("in_temp" +:+ "_raw") with "in_temp_raw".
  change ("in_temp" +:+ "_offset") with "in_temp_offset".
  change ("in_temp" +:+ "_scale") with "in_temp_scale".
  reads. reflexivity.
Qed.

Lemma Axp20Battery_extend_temperature_witness :
  let t := {| label := None; kind := TEMPERATURE; value := PyFloat (float_of_Z 25) |} in
  Sensor__parse (tree_fs (phone_tree phone_adc)) (HWMON // "hwmon3") None = Ok phone_generic
  /\ (Axp20Battery_extend (tree_fs (phone_tree phone_adc)) (HWMON // "hwmon3") phone_generic
      = (Ok {| name := name phone_generic; values := values phone_generic ++ [t] |},
         values phone_generic ++ [t])
      /\ num_str (value t) = Ok "25.0").
Proof.
  split; [reflexivity|].
  apply (Axp20Battery_extend_temperature (tree_fs (phone_tree phone_adc)) (HWMON // "hwmon3")
           ["sys"; "devices"; "sunxi-rsb-3a3"]
           ["power_supply"; "axp20x-battery"; "hwmon"; "hwmon3"]
           ["sys"; "bus"; "rsb"; "drivers"; "axp20x-rsb"]
           ["sys"; "devices"; "sunxi-rsb-3a3"; "axp813-adc"; "iio:device0"] []).
  - reflexivity.
  - cbn. intros [H|[H|[H|[]]]]; discriminate H.
  - discriminate.
  - reflexivity.
  - reflexivity.
  - reflexivity.
  - exists ("250" +:+ nl). split; reflexivity.
  - reflexivity.
  - exists ("0.1" +:+ nl). split; reflexivity.
Defined.

(** The same through [Sensor.parse]. *)
Example Sensor_parse_phone :
  Sensor_parse (tree_fs (phone_tree phone_adc)) (HWMON // "hwmon3")
  = Ok {| name := "axp20x_battery";
          values := [{| label := None; kind := VOLTAGE; value := PyInt 4100 |};
                     {| label := None; kind := CURRENT; value := PyInt (-350) |};
                     {| label := None; kind := TEMPERATURE;
                        value := PyFloat (float_of_Z 25) |}] |}.
Proof. vm_compute. reflexivity. Qed.

(** ** The text of the whole collection *)

Lemma append_cons (c : ascii) (a b : string) : String c a +:+ b = String c (a +:+ b).
Proof. reflexivity. Qed.

Lemma last_char_app (a b : string) :
  b <> EmptyString -> last_char (a +:+ b) = last_char b.
Proof.
  intros Hb. induction a as [|c a IH]; [reflexivity|].
  rewrite append_cons, <- IH.
  destruct (a +:+ b) eqn:E; [|reflexivity].
  destruct a; [change (b = EmptyString) in E; congruence|discriminate E].
Qed.

Lemma append_nonempty (a b : string) : b <> EmptyString -> a +:+ b <> EmptyString.
Proof. destruct a; [exact id|discriminate]. Qed.

Lemma startswith_append (p s : string) : startswith (p +:+ s) p = true.
Proof.
  unfold startswith. induction p as [|c p IH]; [now destruct s|].
  rewrite append_cons. cbn [String.prefix]. now destruct (ascii_dec c c).
Qed.

Lemma join_cons2 (sep x y : string) (l : list string) :
  join sep (x :: y :: l) = x +:+ sep +:+ join sep (y :: l).
Proof. reflexivity. Qed.

Lemma SensorValue_str_last (v : SensorValue) (t : string) :
  SensorValue_str v = Ok t -> t <> EmptyString /\ ends_with_newline t = false.
Proof.
  unfold SensorValue_str.
  destruct (match unit (kind v) with Some _ => _ | None => _ end) as [[x u]|e] eqn:E;
    [|discriminate].
  cbn [mbind result_bind]. destruct (num_str x) as [shown|e]; [|discriminate].
  cbn [mbind result_bind]. intros [= <-].
  assert (Hu : last_char (" " +:+ or_str u "") <> Some "010"%char
               /\ " " +:+ or_str u "" <> EmptyString).
  { destruct (kind v); cbn [unit startswith String.prefix Ascii.eqb Bool.eqb] in E;
      try (destruct (py_truediv (value v) (PyInt 1000)); [|discriminate E]);
      cbn in E; injection E as <- <-; split; vm_compute; congruence. }
  destruct Hu as [Hu Hne].
  split; [do 3 apply append_nonempty; exact Hne|].
  unfold ends_with_newline.
  rewrite !last_char_app by (repeat (exact Hne || apply append_nonempty)).
  destruct (last_char (" " +:+ or_str u "")) as [c|]; [|reflexivity].
  destruct (Ascii.eqb_spec c "010"); [congruence|reflexivity].
Qed.

Lemma mapM_Ok_Forall2 {A B} (f : A -> result B) (l : list A) (k : list B) :
  mapM f l = Ok k -> Forall2 (fun a b => f a = Ok b) l k.
Proof.
  revert k. induction l as [|a l IH]; intros k; cbn [mapM].
  - intros [= <-]. constructor.
  - destruct (f a) as [b|e] eqn:E; [|discriminate]. cbn [mbind result_bind].
    destruct (mapM f l) as [k'|e]; [|discriminate]. cbn. intros [= <-].
    constructor; [exact E|now apply IH].
Qed.

Lemma join_last (sep : string) (l : list string) :
  l <> [] ->
  Forall (fun t => t <> EmptyString /\ ends_with_newline t = false) l ->
  join sep l <> EmptyString /\ ends_with_newline (join sep l) = false.
Proof.
  intros Hne H. induction H as [|x l Hx Hl IH]; [congruence|].
  destruct l as [|y l]; [exact Hx|].
  rewrite join_cons2. destruct IH as [IH1 IH2]; [discriminate|].
  split; [now do 2 apply append_nonempty|].
  unfold ends_with_newline in *.
  rewrite !last_char_app by (repeat (exact IH1 || apply append_nonempty)).
  exact IH2.
Qed.

(** A sensor's block begins with [Sensor ] and does not end in a
    newline. *)
Lemma Sensor_str_block (s : Sensor) (b : string) :
  Sensor_str s = Ok b -> startswith b "Sensor " = true /\ ends_with_newline b = false.
Proof.
  unfold Sensor_str. destruct (mapM SensorValue_str (values s)) as [lines|e] eqn:E;
    [|discriminate].
  cbn [mbind result_bind]. intros [= <-]. split; [apply startswith_append|].
  apply mapM_Ok_Forall2 in E.
  destruct lines as [|x lines].
  - unfold ends_with_newline. rewrite !last_char_app by (repeat (discriminate || apply append_nonempty)).
    reflexivity.
  - destruct (join_last (nl +:+ "  ") (x :: lines)) as [J1 J2]; [discriminate| |].
    + clear -E. induction E as [|v t vs ts Hv _ IH]; constructor; [|exact IH].
      eapply SensorValue_str_last, Hv.
    + unfold ends_with_newline in *.
      rewrite !last_char_app by (repeat (exact J1 || apply append_nonempty)).
      exact J2.
Qed.

(** C9, as stated, fails: two sensors are rendered with one newline
    between their blocks, not with an empty line. *)
Lemma Hwmon_str_no_blank_line :
  let a := "Sensor cpu_thermal:" +:+ nl +:+ "  temperature: 45.0 °C" in
  let b := "Sensor rpi_volt:" +:+ nl +:+ "  low voltage alarm: 0 " in
  mapM Sensor_str (Hwmon_sensors two_sensors) = Ok [a; b]
  /\ Hwmon_str two_sensors = Ok (a +:+ nl +:+ b)
  /\ Hwmon_str two_sensors <> Ok (join (nl +:+ nl) [a; b]).
Proof. cbv zeta. split; [|split]; vm_compute; [reflexivity|reflexivity|discriminate]. Qed.

Lemma num_dumpable_iff (n : num) : num_dumpable n = true <-> few_digits n.
Proof.
  destruct n as [z|f]; cbn [num_dumpable few_digits]; [|tauto]. unfold int_str.
  destruct (Nat.ltb_spec int_max_str_digits (String.length (Z_to_string (Z.abs z))));
    split; try discriminate; try reflexivity; lia.
Qed.

Lemma SensorValue_json_dumpable (v : SensorValue) :
  json_dumpable (JDict (SensorValue_json v)) = num_dumpable (value v).
Proof.
  unfold SensorValue_json.
  destruct (truthy (unit (kind v))), (truthy (label v));
    cbn [json_dumpable forallb dict_set String.eqb Ascii.eqb Bool.eqb snd];
    rewrite ?andb_true_r; reflexivity.
Qed.

Lemma Sensor_json_dumpable (s : Sensor) :
  json_dumpable (Sensor_json s) = true <-> Forall (fun v => few_digits (value v)) (values s).
Proof.
  unfold Sensor_json. cbn [json_dumpable forallb snd andb]. rewrite andb_true_r.
  induction (values s) as [|v vs IH]; cbn [map forallb].
  - split; [constructor|reflexivity].
  - rewrite andb_true_iff, SensorValue_json_dumpable, num_dumpable_iff, IH.
    split; [intros [H1 H2]; now constructor|now inversion 1].
Qed.

Lemma Hwmon_json_dumpable (data : Hwmon) :
  json_dumpable (Hwmon_json data) = true <-> all_few_digits data.
Proof.
  unfold Hwmon_json, all_few_digits. cbn [json_dumpable].
  induction (Hwmon_sensors data) as [|s l IH]; cbn [map forallb].
  - split; [constructor|reflexivity].
  - rewrite andb_true_iff, Sensor_json_dumpable, IH.
    split; [intros [H1 H2]; now constructor|now inversion 1].
Qed.

(** C9, amended. The text of the collection is the blocks of its
    sensors with one newline between consecutive blocks; a block
    begins with [Sensor ] and does not end in a newline, so no empty
    line separates two blocks. The [sensors] command writes nothing
    when the parse or the rendering of the text fails; otherwise it
    prints that text, an empty line and the terminator [=^.^=] in the
    human-readable mode. In the JSON mode it writes the structured
    form and a newline when every value can be written; when a value
    is an int of more than 4300 digits, [json.dump] raises
    [ValueError] part-way and no newline follows. The terminator is
    written exactly in the human-readable mode, when the call
    returns. *)
Theorem sensors_rendering (fs : FileSystem) :
  (forall s, Hwmon_str {| Hwmon_sensors := [s] |} = Sensor_str s)
  /\ (forall s s' rest,
        Hwmon_str {| Hwmon_sensors := s :: s' :: rest |}
        = (b ← Sensor_str s;
           t ← Hwmon_str {| Hwmon_sensors := s' :: rest |};
           Ok (b +:+ nl +:+ t)))
  /\ (forall s b, Sensor_str s = Ok b ->
        startswith b "Sensor " = true /\ ends_with_newline b = false)
  /\ (forall e as_json, Hwmon_parse fs = Raise e -> sensors fs as_json = ([], Some e))
  /\ (forall data, Hwmon_parse fs = Ok data ->
        sensors fs false
        = match Hwmon_str data with
          | Ok text => ([Print text; Print ""; Print "=^.^="], None)
          | Raise e => ([], Some e)
          end
        /\ (all_few_digits data ->
            sensors fs true = ([JsonDump (Hwmon_json data); Print ""], None))
        /\ (~ all_few_digits data ->
            sensors fs true = ([JsonDumpBroken (Hwmon_json data)], Some ValueError)))
  /\ (forall as_json out r, sensors fs as_json = (out, r) ->
        (In (Print "=^.^=") out <-> as_json = false /\ r = None)).
Proof.
  split; [|split; [|split; [|split; [|split]]]].
  - intros s. unfold Hwmon_str. cbn [Hwmon_sensors mapM].
    destruct (Sensor_str s); reflexivity.
  - intros s s' rest. unfold Hwmon_str. cbn [Hwmon_sensors].
    change (mapM Sensor_str (s :: s' :: rest))
      with (b ← Sensor_str s; k ← mapM Sensor_str (s' :: rest); Ok (b :: k)).
    destruct (Sensor_str s) as [b|e]; [|reflexivity]. cbn [mbind result_bind].
    destruct (mapM Sensor_str (s' :: rest)) as [k|e] eqn:E; [|reflexivity].
    cbn [mbind result_bind]. destruct k as [|b' k]; [|reflexivity].
    apply mapM_Ok_Forall2 in E. inversion E.
  - apply Sensor_str_block.
  - intros e as_json H. unfold sensors. now rewrite H.
  - intros data H. unfold sensors. rewrite H. split; [reflexivity|]. split.
    + intros Hd. apply Hwmon_json_dumpable in Hd. now rewrite Hd.
    + intros Hd. destruct (json_dumpable (Hwmon_json data)) eqn:E; [|reflexivity].
      now apply Hwmon_json_dumpable in E.
  - intros as_json out r. unfold sensors.
    destruct (Hwmon_parse fs) as [data|e].
    + destruct as_json.
      * destruct (json_dumpable (Hwmon_json data)); intros [= <- <-].
        -- split; [intros [H|[H|[]]]; discriminate H|intros [H _]; discriminate H].
        -- split; [intros [H|[]]; discriminate H|intros [H _]; discriminate H].
      * destruct (Hwmon_str data) as [text|e]; intros [= <- <-].
        -- split; [now split|]. intros _. right. right. now left.
        -- split; [intros []|intros [_ H]; discriminate H].
    + intros [= <- <-]. split; [intros []|intros [_ H]; discriminate H].
Qed.

(** The sum of a reading of 4300 nines and the offset 1 has 4301
    digits. *)
Lemma huge_parse : Hwmon_parse (tree_fs huge_tree) = Ok huge_data.
Proof. vm_compute. reflexivity. Qed.

Lemma huge_not_few : ~ all_few_digits huge_data.
Proof.
  intros H. apply Hwmon_json_dumpable in H.
  assert (E : json_dumpable (Hwmon_json huge_data) = false) by (vm_compute; reflexivity).
  rewrite E in H. discriminate H.
Qed.

Lemma sensors_rendering_witness :
  let text := "Sensor cpu_thermal:" +:+ nl +:+ "  temperature: 45.0 °C" +:+ nl
              +:+ "Sensor rpi_volt:" +:+ nl +:+ "  low voltage alarm: 0 " in
  sensors (tree_fs board_tree) false = ([Print text; Print ""; Print "=^.^="], None)
  /\ In (Print "=^.^=") [Print text; Print ""; Print "=^.^="]
  /\ (exists data, sensors (tree_fs board_tree) true
                   = ([JsonDump (Hwmon_json data); Print ""], None)
                   /\ ~ In (Print "=^.^=") [JsonDump (Hwmon_json data); Print ""])
  /\ sensors (tree_fs huge_tree) true
     = ([JsonDumpBroken (Hwmon_json huge_data)], Some ValueError).
Proof.
  intros text.
  destruct (sensors_rendering (tree_fs board_tree)) as (_ & _ & _ & _ & Hok & Hterm).
  destruct (Hwmon_parse (tree_fs board_tree)) as [data|e] eqn:Ep; [|discriminate Ep].
  destruct (Hok data eq_refl) as (Ht & Hj & _).
  assert (E : sensors (tree_fs board_tree) false = ([Print text; Print ""; Print "=^.^="], None)).
  { rewrite Ht. vm_compute in Ep. injection Ep as <-. vm_compute. reflexivity. }
  split; [exact E|]. split; [apply (Hterm false _ _ E); now split|]. split.
  - exists data. assert (Hd : all_few_digits data).
    { vm_compute in Ep. injection Ep as <-. repeat constructor; vm_compute; discriminate. }
    split; [exact (Hj Hd)|]. intros Hin. apply (Hterm true _ _ (Hj Hd)) in Hin.
    destruct Hin as [Hin _]. discriminate Hin.
  - destruct (sensors_rendering (tree_fs huge_tree)) as (_ & _ & _ & _ & Hbig & _).
    destruct (Hbig huge_data huge_parse) as (_ & _ & Hbroken).
    exact (Hbroken huge_not_few).
Defined.

(** * Further properties *)

(** ** Generic parsing *)

Lemma parse_channel_Ok (fs : FileSystem) (hwmon v : path) (k : SensorKind) (sv : SensorValue) :
  parse_channel fs hwmon k v = Ok sv -> kind sv = k /\ is_int (value sv) = true.
Proof.
  unfold parse_channel.
  destruct (except_FileNotFoundError _ _) as [l|e]; [|discriminate].
  cbn [mbind result_bind]. destruct (channel_value _ _ _ _) as [z|e]; [|discriminate].
  cbn [mbind result_bind]. intros [= <-]. split; reflexivity.
Qed.

Lemma parse_alarm_Ok (fs : FileSystem) (a : path) (sv : SensorValue) :
  parse_alarm fs a = Ok sv ->
  kind sv = ALARM /\ label sv = Some (path_name a) /\ is_int (value sv) = true.
Proof.
  unfold parse_alarm. destruct (read_text fs a) as [t|e]; [|discriminate].
  cbn [mbind result_bind]. destruct (py_int t) as [z|e]; [|discriminate].
  cbn [mbind result_bind]. intros [= <-]. repeat split.
Qed.

(** What a successful [_parse] is made of. *)
Lemma Sensor__parse_Ok (fs : FileSystem) (hwmon : path) (n : option string) (s : Sensor) :
  Sensor__parse fs hwmon n = Ok s ->
  exists channels alarms,
    values s = concat channels ++ alarms
    /\ Forall2 (fun k vs =>
                  Forall2 (fun v sv => parse_channel fs hwmon k v = Ok sv)
                          (glob fs hwmon (prefix k +:+ "*_input")) vs)
               SensorKind_members channels
    /\ Forall2 (fun a sv => parse_alarm fs a = Ok sv) (glob fs hwmon "*_alarm") alarms.
Proof.
  unfold Sensor__parse.
  destruct (match n with Some _ => _ | None => _ end) as [name|e]; [|discriminate].
  cbn [mbind result_bind].
  destruct (mapM _ SensorKind_members) as [channels|e] eqn:Ec; [|discriminate].
  cbn [mbind result_bind].
  destruct (mapM (parse_alarm fs) _) as [alarms|e] eqn:Ea; [|discriminate].
  cbn [mbind result_bind]. intros [= <-]. exists channels, alarms.
  split; [reflexivity|]. split.
  - apply mapM_Ok_Forall2 in Ec. eapply Forall2_impl; [exact Ec|].
    intros k vs H. cbn beta in H. now apply mapM_Ok_Forall2 in H.
  - now apply mapM_Ok_Forall2.
Qed.

Lemma Sensor__parse_int (fs : FileSystem) (hwmon : path) (n : option string) (s : Sensor) :
  Sensor__parse fs hwmon n = Ok s ->
  Forall (fun v => is_int (value v) = true) (values s).
Proof.
  intros H. destruct (Sensor__parse_Ok _ _ _ _ H) as (channels & alarms & -> & Hc & Ha).
  apply Forall_app. split.
  - apply Forall_concat. clear -Hc.
    induction Hc as [|k vs ks vss Hk _ IH]; constructor; [|exact IH].
    clear -Hk. induction Hk as [|v sv l l' Hv _ IH]; constructor; [|exact IH].
    apply (parse_channel_Ok _ _ _ _ _ Hv).
  - clear -Ha. induction Ha as [|a sv l l' Hv _ IH]; constructor; [|exact IH].
    apply (parse_alarm_Ok _ _ _ Hv).
Qed.

(** X1. Every value of a generically parsed sensor is an integer,
    whatever the files hold: the channels and the alarms are read
    with [int()], and no scale is applied. *)
Theorem Sensor__parse_values_int (fs : FileSystem) (hwmon : path) (n : option string)
    (s : Sensor) :
  Sensor__parse fs hwmon n = Ok s ->
  Forall (fun v => is_int (value v) = true) (values s).
Proof. apply Sensor__parse_int. Qed.

Lemma Sensor__parse_values_int_witness :
  Forall (fun v => is_int (value v) = true)
         [{| label := None; kind := TEMPERATURE; value := PyInt 45000 |}].
Proof.
  apply (Sensor__parse_values_int (tree_fs board_tree) (HWMON // "hwmon0") None
           {| name := "cpu_thermal";
              values := [{| label := None; kind := TEMPERATURE; value := PyInt 45000 |}] |}).
  vm_compute. reflexivity.
Defined.

Lemma fnmatch_cons_literal (c : ascii) (p s : string) :
  literal_char c = true ->
  fnmatch (String c p) s
  = match s with
    | String d s' => Ascii.eqb c d && fnmatch p s'
    | EmptyString => false
    end.
Proof.
  unfold literal_char. intros H. apply andb_prop in H as [H1 H2].
  apply negb_true_iff in H1, H2. cbn [fnmatch]. rewrite H1.
  destruct s as [|d s']; [reflexivity|]. now rewrite H2.
Qed.

Lemma fnmatch_star (p s : string) :
  fnmatch (String "*" p) s
  = (fnmatch p s
     || match s with
        | String _ s' => fnmatch (String "*" p) s'
        | EmptyString => false
        end).
Proof. destruct s; reflexivity. Qed.

Lemma fnmatch_literal (p s : string) :
  literal p = true -> (fnmatch p s = true <-> s = p).
Proof.
  revert s. induction p as [|c p IH]; intros s H.
  - destruct s; cbn; split; congruence.
  - cbn [literal] in H. apply andb_prop in H as [Hc Hp].
    rewrite (fnmatch_cons_literal c p s Hc). destruct s as [|d s'].
    + split; discriminate.
    + rewrite andb_true_iff, (IH s' Hp). split.
      * intros [E ->]. apply Ascii.eqb_eq in E. now subst.
      * intros [= -> ->]. split; [apply Ascii.eqb_refl|reflexivity].
Qed.

Lemma fnmatch_star_literal (p s : string) :
  literal p = true -> (fnmatch (String "*" p) s = true <-> exists mid, s = mid +:+ p).
Proof.
  intros Hp. induction s as [|d s IH]; rewrite fnmatch_star, orb_true_iff.
  - rewrite (fnmatch_literal p "" Hp). split.
    + intros [<-|H]; [now exists ""|discriminate].
    + intros [[|c mid] E]; [left; exact E|discriminate].
  - rewrite (fnmatch_literal p _ Hp), IH. split.
    + intros [->|[mid ->]]; [now exists ""|now exists (String d mid)].
    + intros [[|c mid] E]; [left; exact E|]. injection E as -> ->. right. now exists mid.
Qed.

Lemma fnmatch_literal_prefix (pre rest s : string) :
  literal pre = true ->
  (fnmatch (pre +:+ rest) s = true <-> exists s', s = pre +:+ s' /\ fnmatch rest s' = true).
Proof.
  revert s. induction pre as [|c pre IH]; intros s H.
  - split; [intros E; now exists s|now intros (s' & -> & E)].
  - cbn [literal] in H. apply andb_prop in H as [Hc Hp].
    rewrite append_cons, (fnmatch_cons_literal c _ s Hc). destruct s as [|d s'].
    + split; [discriminate|]. intros (s' & E & _). discriminate E.
    + rewrite andb_true_iff, (IH s' Hp). split.
      * intros [E (t & -> & Ht)]. apply Ascii.eqb_eq in E. subst. now exists t.
      * intros (t & E & Ht). rewrite append_cons in E. injection E as -> ->.
        split; [apply Ascii.eqb_refl|now exists t].
Qed.

(** An entry is a channel of kind [k] exactly when its name is the
    prefix of [k], any text, and [_input]. *)
Lemma is_channel_of_iff (k : SensorKind) (n : string) :
  is_channel_of k n = true <-> exists mid, n = prefix k +:+ mid +:+ "_input".
Proof.
  unfold is_channel_of. rewrite (fnmatch_literal_prefix (prefix k) "*_input" n).
  - split.
    + intros (s' & -> & H). apply (fnmatch_star_literal "_input" s' eq_refl) in H.
      destruct H as (mid & ->). now exists mid.
    + intros (mid & ->). exists (mid +:+ "_input"). split; [reflexivity|].
      apply (fnmatch_star_literal "_input" _ eq_refl). now exists mid.
  - now destruct k.
Qed.

Lemma is_alarm_file_iff (n : string) :
  is_alarm_file n = true <-> exists mid, n = mid +:+ "_alarm".
Proof. apply (fnmatch_star_literal "_alarm" n eq_refl). Qed.

Lemma last_char_input (mid : string) : last_char (mid +:+ "_input") = Some "t"%char.
Proof. now rewrite last_char_app. Qed.

Lemma last_char_alarm (mid : string) : last_char (mid +:+ "_alarm") = Some "m"%char.
Proof. now rewrite last_char_app. Qed.

Lemma channel_kind_unique (n : string) (k1 k2 : SensorKind) :
  is_channel_of k1 n = true -> is_channel_of k2 n = true -> k1 = k2.
Proof.
  intros H1 H2.
  apply is_channel_of_iff in H1 as (m1 & E1), H2 as (m2 & E2). subst n.
  destruct k1, k2; try reflexivity; exfalso; vm_compute in E2; congruence.
Qed.

Lemma channel_not_alarm (n : string) (k : SensorKind) :
  is_channel_of k n = true -> is_alarm_file n = false.
Proof.
  intros H. apply is_channel_of_iff in H as (mid & ->).
  destruct (is_alarm_file _) eqn:E; [|reflexivity].
  apply is_alarm_file_iff in E as (mid' & E).
  apply (f_equal last_char) in E.
  rewrite last_char_alarm, last_char_app, last_char_input in E
    by (apply append_nonempty; discriminate).
  discriminate E.
Qed.

(** X2. The patterns that [Sensor._parse] globs are disjoint. A name
    matches the pattern of a kind exactly when it is the prefix of
    the kind, any text and [_input], and the alarm pattern exactly
    when it ends in [_alarm]; a name matches the pattern of at most
    one kind, and a name that matches a channel pattern does not
    match the alarm pattern. *)
Theorem sensor_patterns_disjoint (n : string) :
  (forall k, is_channel_of k n = true <-> exists mid, n = prefix k +:+ mid +:+ "_input")
  /\ (is_alarm_file n = true <-> exists mid, n = mid +:+ "_alarm")
  /\ (forall k1 k2, is_channel_of k1 n = true -> is_channel_of k2 n = true -> k1 = k2)
  /\ (forall k, is_channel_of k n = true -> is_alarm_file n = false).
Proof.
  split; [intros k; apply is_channel_of_iff|].
  split; [apply is_alarm_file_iff|].
  split; [apply channel_kind_unique|apply channel_not_alarm].
Qed.

Lemma sensor_patterns_disjoint_witness : is_alarm_file "temp1_input" = false.
Proof.
  apply (proj2 (proj2 (proj2 (sensor_patterns_disjoint "temp1_input"))) TEMPERATURE).
  reflexivity.
Defined.

Lemma glob_listed (fs : FileSystem) (dir : path) (pat : string) (names : list string) :
  listdir fs dir = Ok names ->
  glob fs dir pat = map (path_join dir) (List.filter (fnmatch pat) names).
Proof. intros H. unfold glob. now rewrite H. Qed.

Lemma filter_orb_Permutation {A} (p q : A -> bool) (l : list A) :
  (forall a, p a = true -> q a = true -> False) ->
  Permutation (List.filter (fun a => p a || q a) l) (List.filter p l ++ List.filter q l).
Proof.
  intros Hpq. induction l as [|a l IH]; [constructor|]. cbn [List.filter].
  destruct (p a) eqn:Ep, (q a) eqn:Eq; cbn [orb app].
  - now elim (Hpq a).
  - now constructor.
  - now apply Permutation_cons_app.
  - exact IH.
Qed.

Lemma filter_false {A} (l : list A) : List.filter (fun _ => false) l = [].
Proof. induction l as [|a l IH]; [reflexivity|exact IH]. Qed.

Lemma SensorKind_members_NoDup : List.NoDup SensorKind_members.
Proof. unfold SensorKind_members. repeat constructor; cbn; intuition discriminate. Qed.

(** The entries that match a channel pattern, kind by kind. *)
Lemma filter_channels_Permutation (ks : list SensorKind) (names : list string) :
  List.NoDup ks ->
  Permutation (List.filter (fun n => existsb (fun k => is_channel_of k n) ks) names)
              (concat (map (fun k => List.filter (is_channel_of k) names) ks)).
Proof.
  induction 1 as [|k ks Hk _ IH].
  - cbn [existsb map concat]. now rewrite filter_false.
  - cbn [map concat].
    change (fun n => existsb (fun k0 => is_channel_of k0 n) (k :: ks))
      with (fun n => is_channel_of k n || existsb (fun k0 => is_channel_of k0 n) ks).
    rewrite filter_orb_Permutation.
    + now apply Permutation_app_head.
    + intros n H1 H2. apply existsb_exists in H2 as (k' & Hin & H2).
      apply Hk. now rewrite (channel_kind_unique n k k' H1 H2).
Qed.

Lemma sensor_files_Permutation (names : list string) :
  Permutation (concat (map (fun k => List.filter (is_channel_of k) names) SensorKind_members)
               ++ List.filter is_alarm_file names)
              (List.filter sensor_file names).
Proof.
  symmetry.
  change sensor_file
    with (fun n => existsb (fun k => is_channel_of k n) SensorKind_members
                   || is_alarm_file n).
  rewrite filter_orb_Permutation.
  - apply Permutation_app_tail, filter_channels_Permutation, SensorKind_members_NoDup.
  - intros n H1 H2. apply existsb_exists in H1 as (k & _ & H1).
    rewrite (channel_not_alarm n k H1) in H2. discriminate H2.
Qed.

Lemma Forall2_filter_l {A B} (p : A -> bool) (R : A -> B -> Prop) (l : list A) (k : list B) :
  Forall2 R (List.filter p l) k ->
  Forall2 (fun a b => p a = true /\ R a b) (List.filter p l) k.
Proof.
  assert (Hp : Forall (fun a => p a = true) (List.filter p l)).
  { apply Forall_forall. intros a Ha. apply list_elem_of_In, filter_In in Ha. tauto. }
  revert Hp. generalize (List.filter p l). intros m Hp H.
  induction H as [|a b m k Hab _ IH]; constructor.
  - split; [now inversion Hp|exact Hab].
  - apply IH. now inversion Hp.
Qed.

Lemma Forall2_concat_2 {A B} (R : A -> B -> Prop) (ls : list (list A)) (ks : list (list B)) :
  Forall2 (Forall2 R) ls ks -> Forall2 R (concat ls) (concat ks).
Proof.
  induction 1 as [|l k ls ks H _ IH]; [constructor|]. cbn [concat].
  now apply Forall2_app.
Qed.

(** X3. The values of a successful generic parse are in one-to-one
    correspondence with the entries of the directory whose name
    matches a channel pattern or the alarm pattern: they are, in
    order, the readings of a list of entries that holds each matching
    entry of the directory once and nothing else. So there are as
    many values as matching entries. *)
Theorem Sensor__parse_one_value_per_file (fs : FileSystem) (hwmon : path) (o : option string)
    (s : Sensor) (names : list string) :
  Sensor__parse fs hwmon o = Ok s ->
  listdir fs hwmon = Ok names ->
  exists entries,
    Permutation entries (List.filter sensor_file names)
    /\ Forall2 (entry_value fs hwmon) entries (values s)
    /\ length (values s) = length (List.filter sensor_file names).
Proof.
  intros H Hl. destruct (Sensor__parse_Ok _ _ _ _ H) as (channels & alarms & -> & Hc & Ha).
  exists (concat (map (fun k => List.filter (is_channel_of k) names) SensorKind_members)
          ++ List.filter is_alarm_file names).
  assert (HF : Forall2 (entry_value fs hwmon)
                 (concat (map (fun k => List.filter (is_channel_of k) names)
                              SensorKind_members)
                  ++ List.filter is_alarm_file names)
                 (concat channels ++ alarms)).
  { apply Forall2_app.
    - apply Forall2_concat_2, Forall2_fmap_l.
      eapply Forall2_impl; [exact Hc|]. intros k vs Hk. cbn beta in Hk.
      rewrite (glob_listed fs hwmon _ names Hl) in Hk. apply Forall2_fmap_l in Hk.
      apply (Forall2_filter_l (is_channel_of k)) in Hk.
      eapply Forall2_impl; [exact Hk|]. intros n v [Hn Hv]. left. exists k. now split.
    - rewrite (glob_listed fs hwmon _ names Hl) in Ha. apply Forall2_fmap_l in Ha.
      apply (Forall2_filter_l is_alarm_file) in Ha.
      eapply Forall2_impl; [exact Ha|]. intros n v [Hn Hv]. right. now split. }
  split; [apply sensor_files_Permutation|]. split; [exact HF|].
  apply Forall2_length in HF. rewrite <- HF.
  apply Permutation_length, sensor_files_Permutation.
Qed.

Lemma Sensor__parse_one_value_per_file_witness :
  exists entries,
    Permutation entries (List.filter sensor_file ["name"; "temp1_input"])
    /\ Forall2 (entry_value (tree_fs board_tree) (HWMON // "hwmon0")) entries
               [{| label := None; kind := TEMPERATURE; value := PyInt 45000 |}]
    /\ length [{| label := None; kind := TEMPERATURE; value := PyInt 45000 |}]
       = length (List.filter sensor_file ["name"; "temp1_input"]).
Proof.
  apply (Sensor__parse_one_value_per_file (tree_fs board_tree) (HWMON // "hwmon0") None
           {| name := "cpu_thermal";
              values := [{| label := None; kind := TEMPERATURE; value := PyInt 45000 |}] |}).
  - vm_compute. reflexivity.
  - vm_compute. reflexivity.
Defined.

Lemma sensor_file_false (e : string) :
  sensor_file e = false ->
  (forall k, is_channel_of k e = false) /\ is_alarm_file e = false.
Proof.
  unfold sensor_file. intros H. apply orb_false_iff in H as [H1 H2]. split; [|exact H2].
  intros k. destruct (is_channel_of k e) eqn:E; [|reflexivity].
  assert (Hex : existsb (fun k => is_channel_of k e) SensorKind_members = true).
  { apply existsb_exists. exists k. split; [|exact E]. destruct k; cbn; tauto. }
  congruence.
Qed.

(** X4. A directory without an entry that matches a channel pattern or
    the alarm pattern, or one that cannot be listed, gives the sensor
    of the given name without values, whatever its files hold. *)
Theorem Sensor__parse_no_sensor_file (fs : FileSystem) (hwmon : path) (n : string) :
  (forall names, listdir fs hwmon = Ok names ->
                 Forall (fun e => sensor_file e = false) names) ->
  Sensor__parse fs hwmon (Some n) = Ok {| name := n; values := [] |}.
Proof.
  intros H.
  assert (Hk : forall k, glob fs hwmon (prefix k +:+ "*_input") = []).
  { intros k. unfold glob. destruct (listdir fs hwmon) as [names|e]; [|reflexivity].
    specialize (H names eq_refl). induction H as [|e names He _ IH]; [reflexivity|].
    cbn [List.filter]. apply sensor_file_false in He as [He _].
    specialize (He k). unfold is_channel_of in He. rewrite He. exact IH. }
  assert (Ha : glob fs hwmon "*_alarm" = []).
  { unfold glob. destruct (listdir fs hwmon) as [names|e]; [|reflexivity].
    specialize (H names eq_refl). induction H as [|e names He _ IH]; [reflexivity|].
    cbn [List.filter]. apply sensor_file_false in He as [_ He].
    unfold is_alarm_file in He. rewrite He. exact IH. }
  unfold Sensor__parse, SensorKind_members. cbn [mbind result_bind mapM].
  rewrite !Hk, Ha. reflexivity.
Qed.

Lemma Sensor__parse_no_sensor_file_witness :
  Sensor__parse (tree_fs bare_tree) (HWMON // "hwmon0") (Some "soc_thermal")
  = Ok {| name := "soc_thermal"; values := [] |}.
Proof.
  apply Sensor__parse_no_sensor_file.
  intros names [= <-]. repeat constructor.
Defined.

(** ** The collection *)

Lemma mapM_first_Raise {A B} (f : A -> result B) (before after : list A) (x : A) (e : exn) :
  Forall (fun a => exists b, f a = Ok b) before ->
  f x = Raise e ->
  mapM f (before ++ x :: after) = Raise e.
Proof.
  intros Hb Hx. induction Hb as [|a before [b Ha] _ IH]; cbn [app mapM].
  - now rewrite Hx.
  - rewrite Ha. cbn [mbind result_bind]. now rewrite IH.
Qed.

Lemma Forall2_mapM_Ok {A B} (f : A -> result B) (l : list A) (k : list B) :
  Forall2 (fun a b => f a = Ok b) l k -> mapM f l = Ok k.
Proof.
  induction 1 as [|a b l k H _ IH]; [reflexivity|].
  cbn [mapM]. rewrite H. cbn [mbind result_bind]. now rewrite IH.
Qed.

(** X5. [Hwmon.parse] gives all sensors or none: it returns one sensor
    for each entry of the hwmon directory, in directory order, when
    every group parses, and otherwise raises the error of the first
    group that fails; an error on listing the directory is raised as
    it is. *)
Theorem Hwmon_parse_all_or_nothing (fs : FileSystem) :
  (forall e, listdir fs HWMON = Raise e -> Hwmon_parse fs = Raise e)
  /\ (forall before h after e,
        listdir fs HWMON = Ok (before ++ h :: after) ->
        Forall (fun n => exists s, Sensor_parse fs (HWMON // n) = Ok s) before ->
        Sensor_parse fs (HWMON // h) = Raise e ->
        Hwmon_parse fs = Raise e)
  /\ (forall data,
        Hwmon_parse fs = Ok data <->
        exists names, listdir fs HWMON = Ok names
                      /\ Forall2 (fun n s => Sensor_parse fs (HWMON // n) = Ok s)
                                 names (Hwmon_sensors data)).
Proof.
  unfold Hwmon_parse. split; [|split].
  - intros e ->. reflexivity.
  - intros before h after e -> Hb Hh. cbn [mbind result_bind].
    now rewrite (mapM_first_Raise (fun h => Sensor_parse fs (HWMON // h)) before after h e Hb Hh).
  - intros [sensors]. cbn [Hwmon_sensors]. split.
    + destruct (listdir fs HWMON) as [names|e]; [|discriminate].
      cbn [mbind result_bind].
      destruct (mapM _ names) as [l|e] eqn:E; [|discriminate].
      cbn [mbind result_bind]. intros [= <-]. exists names. split; [reflexivity|].
      now apply mapM_Ok_Forall2 in E.
    + intros (names & -> & H). cbn [mbind result_bind].
      now rewrite (Forall2_mapM_Ok (fun h => Sensor_parse fs (HWMON // h)) names sensors H).
Qed.

Lemma Hwmon_parse_all_or_nothing_witness :
  Hwmon_parse (tree_fs broken_tree) = Raise (OSError ENOENT)
  /\ Hwmon_parse (tree_fs board_tree)
     = Ok {| Hwmon_sensors :=
               [{| name := "cpu_thermal";
                   values := [{| label := None; kind := TEMPERATURE; value := PyInt 45000 |}] |};
                {| name := "rpi_volt";
                   values := [{| label := Some "low voltage alarm"; kind := ALARM;
                                 value := PyInt 0 |}] |}] |}.
Proof.
  split.
  - destruct (Hwmon_parse_all_or_nothing (tree_fs broken_tree)) as (_ & H & _).
    apply (H ["hwmon0"] "hwmon1" ["hwmon2"]); [reflexivity| |reflexivity].
    repeat constructor. eexists. vm_compute. reflexivity.
  - destruct (Hwmon_parse_all_or_nothing (tree_fs board_tree)) as (_ & _ & H).
    apply H. exists ["hwmon0"; "hwmon1"]. split; [reflexivity|].
    repeat constructor.
Defined.

(** ** Dispatch *)

Lemma Sensor_SPECIAL_other (n : string) :
  n <> "axp20x_battery" -> n <> "rpi_volt" -> Sensor_SPECIAL !! n = None.
Proof.
  intros H1 H2. unfold Sensor_SPECIAL.
  rewrite lookup_insert_ne by congruence. rewrite lookup_insert_ne by congruence.
  apply lookup_empty.
Qed.

Lemma Sensor_SPECIAL_Some (n : string) (cls : Sensor_subclass) :
  Sensor_SPECIAL !! n = Some cls ->
  (n = "axp20x_battery" /\ cls = Axp20Battery) \/ (n = "rpi_volt" /\ cls = RpiVoltage).
Proof.
  unfold Sensor_SPECIAL. intros H.
  destruct (decide (n = "rpi_volt")) as [->|H2].
  - rewrite lookup_insert_eq in H. injection H as <-. now right.
  - rewrite lookup_insert_ne in H by congruence.
    destruct (decide (n = "axp20x_battery")) as [->|H1].
    + rewrite lookup_insert_eq in H. injection H as <-. now left.
    + rewrite lookup_insert_ne in H by congruence. rewrite lookup_empty in H. discriminate.
Qed.

(** X6. For a group whose name is neither [axp20x_battery] nor
    [rpi_volt], [Sensor.parse] is the generic parse: the same sensor
    or the same error. *)
Theorem Sensor_parse_unregistered (fs : FileSystem) (hwmon : path) :
  (forall txt, read_text fs (hwmon // "name") = Ok txt ->
               strip txt <> "axp20x_battery" /\ strip txt <> "rpi_volt") ->
  Sensor_parse fs hwmon = Sensor__parse fs hwmon None.
Proof.
  intros H. unfold Sensor_parse, Sensor__parse.
  destruct (read_text fs (hwmon // "name")) as [txt|e]; [|reflexivity].
  cbn [mbind result_bind]. destruct (H txt eq_refl) as [H1 H2].
  rewrite (Sensor_SPECIAL_other _ H1 H2).
  destruct (mapM _ SensorKind_members) as [channels|e]; [|reflexivity].
  cbn [mbind result_bind].
  destruct (mapM (parse_alarm fs) _) as [alarms|e]; reflexivity.
Qed.

Lemma Sensor_parse_unregistered_witness :
  Sensor_parse (tree_fs board_tree) (HWMON // "hwmon0")
  = Sensor__parse (tree_fs board_tree) (HWMON // "hwmon0") None.
Proof.
  apply Sensor_parse_unregistered. intros txt [= <-]. split; discriminate.
Defined.

(** ** The registered subclasses *)

Lemma Axp20Battery_extend_cases (fs : FileSystem) (hwmon : path) (base : Sensor)
    (r : result Sensor) (vs : list SensorValue) :
  Axp20Battery_extend fs hwmon base = (r, vs) ->
  match r with
  | Ok s =>
      name s = name base /\ values s = vs
      /\ exists t, vs = values base ++ [{| label := None; kind := TEMPERATURE; value := t |}]
  | Raise _ => vs = values base
  end.
Proof.
  unfold Axp20Battery_extend.
  match goal with |- (match ?tm with _ => _ end) = _ -> _ => destruct tm as [t|e] end.
  - intros [= <- <-]. cbn [name values]. repeat split. now exists t.
  - intros [= <- <-]. reflexivity.
Qed.

(** X7. [Axp20Battery.extend] returns exactly when the resolved path
    has an ancestor of the power supply's name, the [driver] link
    beside the outermost such ancestor resolves to a path named
    [axp20x-rsb], the ADC directory beside it has an entry
    [iio:device*] and [adc_value] returns for the first one: the
    sensor then has the name of [base] and its values followed by
    that temperature, without label, and shares the list of [base].
    In every other case it raises and the list of [base] is as it
    was. *)
Theorem Axp20Battery_extend_Ok_iff (fs : FileSystem) (hwmon : path) (base : Sensor)
    (vs : list SensorValue) :
  (forall s,
      Axp20Battery_extend fs hwmon base = (Ok s, vs) <->
      exists p battery driver iio rest t,
        resolve fs hwmon = Ok p
        /\ find_battery p = Some battery
        /\ resolve fs (path_parent battery // "driver") = Ok driver
        /\ path_name driver = Axp20Battery_DRIVER
        /\ glob fs (path_parent battery // Axp20Battery_ADC) "iio:device*" = iio :: rest
        /\ adc_value fs iio "in_temp" = Ok t
        /\ vs = values base ++ [{| label := None; kind := TEMPERATURE; value := t |}]
        /\ s = {| name := name base; values := vs |})
  /\ (forall e, Axp20Battery_extend fs hwmon base = (Raise e, vs) -> vs = values base).
Proof.
  unfold Axp20Battery_extend, raise_SensorNotSupported, Sensor_class_name. split.
  - intros s. split.
    + destruct (resolve fs hwmon) as [p|e] eqn:Ep; [|discriminate]. cbn [mbind result_bind].
      destruct (find_battery p) as [battery|] eqn:Eb; [|discriminate].
      destruct (resolve fs (path_parent battery // "driver")) as [driver|e] eqn:Er;
        [|discriminate].
      cbn [mbind result_bind].
      destruct (String.eqb (path_name driver) Axp20Battery_DRIVER) eqn:Ed; [|discriminate].
      cbn [negb mbind result_bind]. apply String.eqb_eq in Ed.
      destruct (glob fs _ "iio:device*") as [|iio rest] eqn:Eg; [discriminate|].
      cbn [mbind result_bind].
      destruct (adc_value fs iio "in_temp") as [t|e] eqn:Et; [|discriminate].
      intros [= <- <-]. exists p, battery, driver, iio, rest, t. now repeat split.
    + intros (p & battery & driver & iio & rest & t & Hp & Hb & Hd & Hn & Hg & Ht & -> & ->).
      rewrite Hp. cbn [mbind result_bind]. rewrite Hb, Hd. cbn [mbind result_bind].
      rewrite Hn, String.eqb_refl. cbn [negb mbind result_bind]. rewrite Hg.
      cbn [mbind result_bind]. rewrite Ht. reflexivity.
  - intros e.
    match goal with |- (match ?tm with _ => _ end) = _ -> _ => destruct tm as [t|e'] end;
      [discriminate|]. now intros [= _ <-].
Qed.

Lemma Axp20Battery_extend_Ok_iff_witness :
  exists p battery driver iio rest t,
    resolve (tree_fs (phone_tree phone_adc)) (HWMON // "hwmon3") = Ok p
    /\ find_battery p = Some battery
    /\ resolve (tree_fs (phone_tree phone_adc)) (path_parent battery // "driver") = Ok driver
    /\ path_name driver = Axp20Battery_DRIVER
    /\ glob (tree_fs (phone_tree phone_adc)) (path_parent battery // Axp20Battery_ADC)
            "iio:device*" = iio :: rest
    /\ adc_value (tree_fs (phone_tree phone_adc)) iio "in_temp" = Ok t
    /\ values phone_generic
       ++ [{| label := None; kind := TEMPERATURE; value := PyFloat (float_of_Z 25) |}]
       = values phone_generic ++ [{| label := None; kind := TEMPERATURE; value := t |}]
    /\ {| name := name phone_generic;
          values := values phone_generic
                    ++ [{| label := None; kind := TEMPERATURE;
                           value := PyFloat (float_of_Z 25) |}] |}
       = {| name := name phone_generic;
            values := values phone_generic
                      ++ [{| label := None; kind := TEMPERATURE;
                             value := PyFloat (float_of_Z 25) |}] |}.
Proof.
  apply (proj1 (proj1 (Axp20Battery_extend_Ok_iff (tree_fs (phone_tree phone_adc))
                         (HWMON // "hwmon3") phone_generic
                         (values phone_generic
                          ++ [{| label := None; kind := TEMPERATURE;
                                 value := PyFloat (float_of_Z 25) |}]))
                      {| name := name phone_generic;
                         values := values phone_generic
                                   ++ [{| label := None; kind := TEMPERATURE;
                                          value := PyFloat (float_of_Z 25) |}] |})).
  vm_compute. reflexivity.
Defined.

Lemma find_alarm_Some (j : nat) (vs : list SensorValue) (bound : option (nat * SensorValue))
    (i : nat) (a : SensorValue) :
  find_alarm j vs bound = Some (i, a) ->
  (vs = [] /\ bound = Some (i, a))
  \/ ((j <= i < j + length vs)%nat /\ vs !! (i - j)%nat = Some a).
Proof.
  revert j bound. induction vs as [|v vs IH]; intros j bound; cbn [find_alarm].
  - intros ->. now left.
  - destruct (bool_decide _).
    + intros [= <- <-]. right. split; [cbn [length]; lia|].
      now rewrite Nat.sub_diag.
    + intros H. apply IH in H as [[-> [= <- <-]]|[Hi Ha]]; right.
      * split; [cbn [length]; lia|]. now rewrite Nat.sub_diag.
      * split; [cbn [length]; lia|].
        replace (i - j)%nat with (S (i - S j)) by lia. exact Ha.
Qed.

(** What [list.remove] leaves: the list without one value, which is
    the one in slot [i] or an equal one before it. *)
Lemma list_remove_Ok (j i : nat) (x : SensorValue) (l l' : list SensorValue) :
  (j <= i)%nat -> l !! (i - j)%nat = Some x ->
  list_remove j i x l = Ok l' ->
  exists before y after,
    l = before ++ y :: after /\ l' = before ++ after
    /\ (y = x \/ SensorValue_eq y x = true).
Proof.
  revert j l'. induction l as [|y l IH]; intros j l' Hj Hx; cbn [list_remove]; [discriminate|].
  destruct (j =? i)%nat eqn:E; cbn [orb].
  - intros [= <-]. apply Nat.eqb_eq in E. subst. rewrite Nat.sub_diag in Hx.
    injection Hx as ->. exists [], x, l. repeat split. now left.
  - destruct (SensorValue_eq y x) eqn:Ey.
    + intros [= <-]. exists [], y, l. repeat split. now right.
    + apply Nat.eqb_neq in E.
      destruct (list_remove (S j) i x l) as [l''|e] eqn:El; [|discriminate].
      cbn [mbind result_bind]. intros [= <-].
      replace (i - j)%nat with (S (i - S j)) in Hx by lia. cbn in Hx.
      destruct (IH (S j) l'' ltac:(lia) Hx El) as (before & z & after & -> & -> & Hz).
      exists (y :: before), z, after. repeat split. exact Hz.
Qed.

Lemma RpiVoltage_extend_cases (fs : FileSystem) (hwmon : path) (base : Sensor) :
  match values base with
  | [] => RpiVoltage_extend fs hwmon base = (Raise UnboundLocalError, [])
  | _ :: _ =>
      exists before y after a,
        values base = before ++ y :: after
        /\ (y = a \/ SensorValue_eq y a = true)
        /\ In a (values base)
        /\ RpiVoltage_extend fs hwmon base
           = (Ok {| name := name base; values := before ++ after ++ [relabelled a] |},
              before ++ after ++ [relabelled a])
        /\ length (before ++ after ++ [relabelled a]) = length (values base)
  end.
Proof.
  unfold RpiVoltage_extend. destruct (values base) as [|v vs] eqn:Ev; [reflexivity|].
  destruct (find_alarm 0 (v :: vs) None) as [[i a]|] eqn:Ef.
  - apply find_alarm_Some in Ef as [[H _]|[Hi Ha]]; [discriminate H|].
    rewrite Nat.sub_0_r in Ha.
    destruct (list_remove_in_range 0 i a (v :: vs) Hi) as [l' Hl].
    rewrite Hl.
    destruct (list_remove_Ok 0 i a (v :: vs) l' ltac:(lia)) as (before & y & after & E & -> & Hy);
      [now rewrite Nat.sub_0_r|exact Hl|].
    exists before, y, after, a. rewrite E. split; [reflexivity|]. split; [exact Hy|].
    split; [|split].
    + rewrite <- E. apply list_elem_of_In. eapply list_elem_of_lookup_2, Ha.
    + fold (relabelled a). now rewrite <- app_assoc.
    + rewrite !length_app. cbn [length]. lia.
  - exfalso. clear -Ef. cbn [find_alarm] in Ef. destruct (bool_decide _); [discriminate|].
    assert (H : forall j l b, find_alarm j l (Some b) <> None).
    { intros j l. revert j. induction l as [|x l IH]; intros j b; cbn [find_alarm];
        [discriminate|]. destruct (bool_decide _); [discriminate|apply IH]. }
    eapply H, Ef.
Qed.

(** X8. [RpiVoltage.extend] raises only for a sensor without values,
    and then [UnboundLocalError]. For a sensor with values it returns
    a sensor of the same name that shares the list of [base]: one
    value is taken out, the others keep their order, and a copy
    labelled [low voltage alarm] of the value the loop stopped at (one
    equal to the one taken out) is appended, so the number of values
    is the same. *)
Theorem RpiVoltage_extend_shape (fs : FileSystem) (hwmon : path) (base : Sensor) :
  match values base with
  | [] => RpiVoltage_extend fs hwmon base = (Raise UnboundLocalError, [])
  | _ :: _ =>
      exists before y after a,
        values base = before ++ y :: after
        /\ (y = a \/ SensorValue_eq y a = true)
        /\ In a (values base)
        /\ RpiVoltage_extend fs hwmon base
           = (Ok {| name := name base; values := before ++ after ++ [relabelled a] |},
              before ++ after ++ [relabelled a])
        /\ length (before ++ after ++ [relabelled a]) = length (values base)
  end.
Proof. apply RpiVoltage_extend_cases. Qed.

Lemma RpiVoltage_extend_shape_witness :
  exists before y after a,
    values rpi_base = before ++ y :: after
    /\ (y = a \/ SensorValue_eq y a = true)
    /\ In a (values rpi_base)
    /\ RpiVoltage_extend (tree_fs board_tree) (HWMON // "hwmon1") rpi_base
       = (Ok {| name := name rpi_base; values := before ++ after ++ [relabelled a] |},
          before ++ after ++ [relabelled a])
    /\ length (before ++ after ++ [relabelled a]) = length (values rpi_base).
Proof. exact (RpiVoltage_extend_shape (tree_fs board_tree) (HWMON // "hwmon1") rpi_base). Defined.

(** ** What [Sensor.parse] returns and raises *)

Lemma Sensor__parse_name (fs : FileSystem) (hwmon : path) (n : string) (s : Sensor) :
  Sensor__parse fs hwmon (Some n) = Ok s -> name s = n.
Proof.
  unfold Sensor__parse. cbn [mbind result_bind].
  destruct (mapM _ SensorKind_members) as [channels|e]; [|discriminate].
  cbn [mbind result_bind].
  destruct (mapM (parse_alarm fs) _) as [alarms|e]; [|discriminate].
  cbn [mbind result_bind]. now intros [= <-].
Qed.

(** X9. The sensor that [Sensor.parse] returns has the stripped text of
    the [name] file as its name, and the values of the generic parse
    up to one change: it has as many values or one more, and every
    value is an integer, except that the last value may be a
    temperature without label. *)
Theorem Sensor_parse_shape (fs : FileSystem) (hwmon : path) (s : Sensor) :
  Sensor_parse fs hwmon = Ok s ->
  exists txt generic,
    read_text fs (hwmon // "name") = Ok txt
    /\ Sensor__parse fs hwmon (Some (strip txt)) = Ok generic
    /\ name s = strip txt
    /\ (length (values generic) <= length (values s) <= S (length (values generic)))%nat
    /\ exists front, Forall (fun v => is_int (value v) = true) front
                     /\ ((values s = front)
                         \/ exists v, values s = front ++ [v] /\ int_or_temperature v).
Proof.
  unfold Sensor_parse.
  destruct (read_text fs (hwmon // "name")) as [txt|e] eqn:Er; [|discriminate].
  cbn [mbind result_bind].
  destruct (Sensor__parse fs hwmon (Some (strip txt))) as [generic|e] eqn:Eg; [|discriminate].
  cbn [mbind result_bind]. intros H. exists txt, generic.
  split; [reflexivity|]. split; [exact Eg|].
  pose proof (Sensor__parse_name _ _ _ _ Eg) as Hn.
  pose proof (Sensor__parse_int _ _ _ _ Eg) as Hi.
  destruct (Sensor_SPECIAL !! strip txt) as [cls|].
  - destruct cls; cbn [extend] in H.
    + destruct (Axp20Battery_extend fs hwmon generic) as [r vs] eqn:Ex.
      pose proof (Axp20Battery_extend_cases _ _ _ _ _ Ex) as Hc.
      destruct r as [s'|e].
      * injection H as ->. destruct Hc as (Hname & Hv & t & Ht). subst vs.
        split; [congruence|]. rewrite Ht, length_app. cbn [length].
        split; [lia|]. exists (values generic). split; [exact Hi|]. right.
        eexists. split; [reflexivity|]. right. split; reflexivity.
      * destruct e; try discriminate H. injection H as <-. subst vs.
        cbn [with_values name values]. split; [exact Hn|]. split; [lia|].
        exists (values generic). split; [exact Hi|]. now left.
    + pose proof (RpiVoltage_extend_cases fs hwmon generic) as Hc.
      destruct (values generic) as [|v vs] eqn:Ev.
      * rewrite Hc in H. discriminate H.
      * destruct Hc as (before & y & after & a & E & Hy & Ha & Hx & Hlen).
        rewrite Hx in H. injection H as <-. cbn [name values].
        split; [exact Hn|]. split; [lia|].
        rewrite E in Hi. apply Forall_app in Hi as [Hb Hr]. inversion Hr; subst.
        exists (before ++ after). split; [apply Forall_app; now split|]. right.
        exists (relabelled a). split; [now rewrite app_assoc|]. left.
        cbn [relabelled value]. rewrite <- Ev in Ha.
        pose proof (Sensor__parse_int _ _ _ _ Eg) as Hi'.
        rewrite Forall_forall in Hi'. apply Hi'. apply list_elem_of_In. exact Ha.
  - injection H as <-. split; [exact Hn|]. split; [lia|].
    exists (values generic). split; [exact Hi|]. now left.
Qed.

Lemma Sensor_parse_shape_witness :
  exists txt generic,
    read_text (tree_fs (phone_tree phone_adc)) (HWMON // "hwmon3" // "name") = Ok txt
    /\ Sensor__parse (tree_fs (phone_tree phone_adc)) (HWMON // "hwmon3") (Some (strip txt))
       = Ok generic
    /\ "axp20x_battery" = strip txt
    /\ (length (values generic) <= 3 <= S (length (values generic)))%nat
    /\ exists front,
         Forall (fun v => is_int (value v) = true) front
         /\ (([{| label := None; kind := VOLTAGE; value := PyInt 4100 |};
               {| label := None; kind := CURRENT; value := PyInt (-350) |};
               {| label := None; kind := TEMPERATURE; value := PyFloat (float_of_Z 25) |}]
              = front)
             \/ exists v,
                  [{| label := None; kind := VOLTAGE; value := PyInt 4100 |};
                   {| label := None; kind := CURRENT; value := PyInt (-350) |};
                   {| label := None; kind := TEMPERATURE; value := PyFloat (float_of_Z 25) |}]
                  = front ++ [v] /\ int_or_temperature v).
Proof.
  exact (Sensor_parse_shape (tree_fs (phone_tree phone_adc)) (HWMON // "hwmon3")
           {| name := "axp20x_battery";
              values := [{| label := None; kind := VOLTAGE; value := PyInt 4100 |};
                         {| label := None; kind := CURRENT; value := PyInt (-350) |};
                         {| label := None; kind := TEMPERATURE;
                            value := PyFloat (float_of_Z 25) |}] |}
           eq_refl).
Defined.

Lemma mapM_Raise {A B} (f : A -> result B) (l : list A) (e : exn) :
  mapM f l = Raise e -> exists a, In a l /\ f a = Raise e.
Proof.
  induction l as [|a l IH]; cbn [mapM]; [discriminate|].
  destruct (f a) as [b|e'] eqn:E.
  - cbn [mbind result_bind]. destruct (mapM f l) as [k|e'']; [discriminate|].
    cbn. intros [= <-]. destruct (IH eq_refl) as (x & Hx & Hf). exists x. split; [now right|exact Hf].
  - cbn. intros [= <-]. exists a. split; [now left|exact E].
Qed.

Lemma except_FileNotFoundError_raises {A} (body handler : result A) (e : exn) :
  except_FileNotFoundError body handler = Raise e ->
  (body = Raise e /\ e <> OSError ENOENT) \/ (body = Raise (OSError ENOENT) /\ handler = Raise e).
Proof.
  unfold except_FileNotFoundError.
  destruct body as [a|[[]| | | | | | |]]; try discriminate;
    try (intros [= <-]; left; split; [reflexivity|discriminate]).
  intros H. now right.
Qed.

(** What a channel and an alarm can raise. *)
Lemma parse_channel_raises (fs : FileSystem) (hwmon v : path) (k : SensorKind) (e : exn) :
  os_errors_only fs -> parse_channel fs hwmon k v = Raise e -> os_exn e \/ e = ValueError.
Proof.
  intros (Hr & _ & _). unfold parse_channel.
  destruct (except_FileNotFoundError _ (Ok None)) as [l|e0] eqn:El.
  - cbn [mbind result_bind]. unfold channel_value.
    destruct (read_text fs v) as [t|e1] eqn:E1.
    + cbn [mbind result_bind]. destruct (py_int t) as [z|e2] eqn:E2.
      * cbn [mbind result_bind].
        destruct (except_FileNotFoundError _ (Ok z)) as [z'|e3] eqn:E3; [discriminate|].
        cbn. intros [= <-].
        apply except_FileNotFoundError_raises in E3 as [[E3 _]|[_ E3]]; [|discriminate E3].
        destruct (read_text fs (hwmon // (_ +:+ "_offset"))) as [t'|e4] eqn:E4.
        -- cbn [mbind result_bind] in E3.
           destruct (py_int t') as [o|e5] eqn:E5; [discriminate E3|].
           cbn in E3. injection E3 as <-. right. eapply py_int_raises, E5.
        -- cbn in E3. injection E3 as <-. left. eapply Hr, E4.
      * cbn. intros [= <-]. right. eapply py_int_raises, E2.
    + cbn. intros [= <-]. left. eapply Hr, E1.
  - cbn. intros [= <-].
    apply except_FileNotFoundError_raises in El as [[El _]|[_ El]]; [|discriminate El].
    destruct (read_text fs _) as [t'|e4] eqn:E4; [discriminate El|].
    cbn in El. injection El as <-. left. eapply Hr, E4.
Qed.

Lemma parse_alarm_raises (fs : FileSystem) (a : path) (e : exn) :
  os_errors_only fs -> parse_alarm fs a = Raise e -> os_exn e \/ e = ValueError.
Proof.
  intros (Hr & _ & _). unfold parse_alarm.
  destruct (read_text fs a) as [t|e1] eqn:E1.
  - cbn [mbind result_bind]. destruct (py_int t) as [z|e2] eqn:E2; [discriminate|].
    cbn. intros [= <-]. right. eapply py_int_raises, E2.
  - cbn. intros [= <-]. left. eapply Hr, E1.
Qed.

Lemma Sensor__parse_raises (fs : FileSystem) (hwmon : path) (n : option string) (e : exn) :
  os_errors_only fs -> Sensor__parse fs hwmon n = Raise e -> os_exn e \/ e = ValueError.
Proof.
  intros Hfs. pose proof Hfs as (Hr & _ & _). unfold Sensor__parse.
  destruct (match n with Some _ => _ | None => _ end) as [nm|e0] eqn:En.
  - cbn [mbind result_bind].
    destruct (mapM _ SensorKind_members) as [channels|e1] eqn:Ec.
    + cbn [mbind result_bind].
      destruct (mapM (parse_alarm fs) _) as [alarms|e2] eqn:Ea; [discriminate|].
      cbn. intros [= <-]. apply mapM_Raise in Ea as (a & _ & Ha).
      eapply parse_alarm_raises; eassumption.
    + cbn. intros [= <-]. apply mapM_Raise in Ec as (k & _ & Hk).
      apply mapM_Raise in Hk as (v & _ & Hv).
      eapply parse_channel_raises; eassumption.
  - cbn. intros [= <-]. destruct n as [nm|]; [discriminate En|].
    destruct (read_text fs (hwmon // "name")) as [t|e1] eqn:E1; [discriminate En|].
    cbn in En. injection En as <-. left. eapply Hr, E1.
Qed.

(** X10. On a file system whose calls raise only their own errors,
    [Sensor.parse] raises an error of the file system, [ValueError]
    (a malformed number), [OverflowError] (the scaled temperature),
    [AttributeError] (a declining battery extension) or
    [UnboundLocalError] (the alarm extension on a sensor without
    values), and never [SensorNotSupported]. *)
Theorem Sensor_parse_raises (fs : FileSystem) (hwmon : path) (e : exn) :
  os_errors_only fs ->
  Sensor_parse fs hwmon = Raise e ->
  os_exn e \/ e = ValueError \/ e = OverflowError \/ e = AttributeError
  \/ e = UnboundLocalError.
Proof.
  intros Hfs. pose proof Hfs as (Hr & _ & Hres). unfold Sensor_parse.
  destruct (read_text fs (hwmon // "name")) as [txt|e0] eqn:Er.
  2:{ cbn. intros [= <-]. left. eapply Hr, Er. }
  cbn [mbind result_bind].
  destruct (Sensor__parse fs hwmon (Some (strip txt))) as [generic|e1] eqn:Eg.
  2:{ cbn. intros [= <-]. apply (Sensor__parse_raises _ _ _ _ Hfs) in Eg. tauto. }
  cbn [mbind result_bind].
  destruct (Sensor_SPECIAL !! strip txt) as [[]|]; [| |discriminate]; cbn [extend].
  - unfold Axp20Battery_extend.
    match goal with |- (let '(_, _) := match ?tm with _ => _ end in _) = _ -> _ =>
      destruct tm as [t|e2] eqn:Et end; [discriminate|].
    assert (He2 : os_exn e2 \/ e2 = ValueError \/ e2 = OverflowError \/ e2 = AttributeError).
    { revert Et. destruct (resolve fs hwmon) as [p|e3] eqn:E3;
        [|intros [= <-]; left; eapply Hres, E3].
      cbn [mbind result_bind].
      destruct (find_battery p) as [battery|]; [|intros [= <-]; tauto].
      destruct (resolve fs (path_parent battery // "driver")) as [d|e4] eqn:E4;
        [|intros [= <-]; left; eapply Hres, E4].
      cbn [mbind result_bind]. destruct (negb _); [intros [= <-]; tauto|].
      cbn [mbind result_bind].
      destruct (glob fs _ _) as [|iio l]; [intros [= <-]; tauto|].
      cbn [mbind result_bind]. intros E.
      apply (adc_value_raises fs iio "in_temp" _ Hfs) in E. tauto. }
    destruct e2; try (intros [= <-]); try tauto.
  - pose proof (RpiVoltage_extend_cases fs hwmon generic) as Hc.
    destruct (values generic) as [|v vs].
    + rewrite Hc. intros [= <-]. tauto.
    + destruct Hc as (before & y & after & a & _ & _ & _ & -> & _). discriminate.
Qed.

Lemma Sensor_parse_raises_witness :
  os_exn AttributeError \/ AttributeError = ValueError \/ AttributeError = OverflowError
  \/ AttributeError = AttributeError \/ AttributeError = UnboundLocalError.
Proof.
  apply (Sensor_parse_raises (tree_fs plain_battery_tree) (HWMON // "hwmon0") AttributeError).
  - apply tree_fs_os_errors_only.
  - vm_compute. reflexivity.
Defined.

(** ** When [adc_value] returns *)

Lemma except_FileNotFoundError_Ok {A} (body handler : result A) (a : A) :
  except_FileNotFoundError body handler = Ok a <->
  body = Ok a \/ (body = Raise (OSError ENOENT) /\ handler = Ok a).
Proof.
  unfold except_FileNotFoundError.
  destruct body as [b|e].
  - split; [now left|]. intros [H|[H _]]; [exact H|discriminate H].
  - destruct e as [[]| | | | | | |]; split;
      try discriminate;
      try (intros [H|[H _]]; discriminate H);
      try (intros H; right; split; [reflexivity|exact H]);
      try (intros [H|[_ H]]; [discriminate H|exact H]).
Qed.

(** X11. [adc_value] returns exactly when the raw file holds an integer
    and each of the offset and scale files is absent or holds a
    number (and the integer is in the range of a float when it is
    scaled): an absent offset counts as 0, an absent scale leaves the
    integer. Every other state of the three files is an error. *)
Theorem adc_value_Ok_iff (fs : FileSystem) (iio : path) (item : string) (v : num) :
  adc_value fs iio item = Ok v <->
  exists raw off,
    holds_int fs (iio // (item +:+ "_raw")) raw
    /\ ((absent fs (iio // (item +:+ "_offset")) /\ off = 0)
        \/ holds_int fs (iio // (item +:+ "_offset")) off)
    /\ ((absent fs (iio // (item +:+ "_scale")) /\ v = PyInt (raw + off))
        \/ exists s f, holds_float fs (iio // (item +:+ "_scale")) s
                       /\ int_to_float (raw + off) = Ok f
                       /\ v = PyFloat (float_mul f s)).
Proof.
  unfold adc_value, holds_int, holds_float, absent. split.
  - destruct (read_text fs (iio // (item +:+ "_raw"))) as [t|e]; [|discriminate].
    cbn [mbind result_bind]. destruct (py_int (strip t)) as [raw|e] eqn:Eraw; [|discriminate].
    cbn [mbind result_bind].
    destruct (except_FileNotFoundError _ (Ok raw)) as [raw'|e] eqn:Eo; [|discriminate].
    cbn [mbind result_bind]. intros Es.
    apply except_FileNotFoundError_Ok in Eo, Es.
    exists raw, (raw' - raw). split; [now exists t|]. split.
    + destruct Eo as [Eo|[Eo [= <-]]].
      * right. destruct (read_text fs (iio // (item +:+ "_offset"))) as [t'|e]; [|discriminate].
        cbn [mbind result_bind] in Eo. destruct (py_int (strip t')) as [o|e] eqn:Eoi;
          [|discriminate]. cbn in Eo. injection Eo as <-. exists t'. split; [reflexivity|].
        rewrite Eoi. f_equal. lia.
      * left. destruct (read_text fs (iio // (item +:+ "_offset"))) as [t'|e].
        -- cbn [mbind result_bind] in Eo. destruct (py_int (strip t')) as [o|e] eqn:Eoi;
             [discriminate|]. apply py_int_raises in Eoi. subst e. discriminate.
        -- cbn in Eo. injection Eo as ->. split; [reflexivity|lia].
    + replace (raw + (raw' - raw)) with raw' by lia.
      destruct Es as [Es|[Es [= <-]]].
      * right. destruct (read_text fs (iio // (item +:+ "_scale"))) as [ts|e]; [|discriminate].
        cbn [mbind result_bind] in Es. destruct (py_float (strip ts)) as [s|e] eqn:Ef;
          [|discriminate]. cbn [mbind result_bind py_mul] in Es.
        destruct (int_to_float raw') as [f|e]; [|discriminate]. cbn in Es. injection Es as <-.
        exists s, f. split; [now exists ts|]. split; reflexivity.
      * left. destruct (read_text fs (iio // (item +:+ "_scale"))) as [ts|e].
        -- cbn [mbind result_bind] in Es. destruct (py_float (strip ts)) as [s|e] eqn:Ef.
           ++ cbn [mbind result_bind py_mul] in Es.
              destruct (int_to_float raw') as [f|e] eqn:Ei; [discriminate|].
              apply int_to_float_raises in Ei. subst e. discriminate.
           ++ apply py_float_raises in Ef. subst e. discriminate.
        -- cbn in Es. injection Es as ->. split; reflexivity.
  - intros (raw & off & (t & Hr & Hi) & Ho & Hs).
    rewrite Hr. cbn [mbind result_bind]. rewrite Hi. cbn [mbind result_bind].
    assert (Eo : except_FileNotFoundError
                   (txt ← read_text fs (iio // (item +:+ "_offset"));
                    offset ← py_int (strip txt); Ok (raw + offset)) (Ok raw)
                 = Ok (raw + off)).
    { destruct Ho as [[Ha ->]|(t' & Hr' & Hi')].
      - rewrite Ha. cbn. f_equal. lia.
      - rewrite Hr'. cbn [mbind result_bind]. rewrite Hi'. reflexivity. }
    rewrite Eo. cbn [mbind result_bind].
    destruct Hs as [[Ha ->]|(s & f & (ts & Hr' & Hf) & Hi' & ->)].
    + rewrite Ha. reflexivity.
    + rewrite Hr'. cbn [mbind result_bind]. rewrite Hf. cbn [mbind result_bind py_mul].
      rewrite Hi'. reflexivity.
Qed.

Lemma adc_value_Ok_iff_witness :
  exists raw off,
    holds_int (tree_fs offset_tree) (["iio:device0"] // ("in_temp" +:+ "_raw")) raw
    /\ ((absent (tree_fs offset_tree) (["iio:device0"] // ("in_temp" +:+ "_offset")) /\ off = 0)
        \/ holds_int (tree_fs offset_tree) (["iio:device0"] // ("in_temp" +:+ "_offset")) off)
    /\ ((absent (tree_fs offset_tree) (["iio:device0"] // ("in_temp" +:+ "_scale"))
         /\ PyInt 105 = PyInt (raw + off))
        \/ exists s f,
             holds_float (tree_fs offset_tree) (["iio:device0"] // ("in_temp" +:+ "_scale")) s
             /\ int_to_float (raw + off) = Ok f
             /\ PyInt 105 = PyFloat (float_mul f s)).
Proof.
  apply (proj1 (adc_value_Ok_iff (tree_fs offset_tree) ["iio:device0"] "in_temp" (PyInt 105))).
  vm_compute. reflexivity.
Defined.

(** ** When a value is shown *)

Lemma int_to_float_1000 : int_to_float 1000 = Ok (S754_finite false 8796093022208000 (-43)).
Proof. reflexivity. Qed.

(** X12. Showing a value fails only for an integer: with
    [OverflowError] when it is too large to be divided into a float,
    with [ValueError] when it has too many digits for [str]. A float
    value is always shown. *)
Theorem SensorValue_str_raises (v : SensorValue) (e : exn) :
  SensorValue_str v = Raise e ->
  is_int (value v) = true /\ (e = OverflowError \/ e = ValueError).
Proof.
  destruct v as [l k x]. unfold SensorValue_str. cbn [kind label value].
  assert (Hn : forall y, num_str y = Raise e -> is_int y = true /\ e = ValueError).
  { intros [z|f]; cbn [num_str]; [|discriminate]. unfold int_str.
    destruct (_ <? _)%nat; [|discriminate]. intros [= <-]. split; reflexivity. }
  assert (Hplain : forall u : option string,
             (shown ← num_str x;
              Ok (or_str l (lower (SensorKind_name k)) +:+ ": " +:+ shown +:+ " " +:+ or_str u ""))
             = Raise e -> is_int x = true /\ (e = OverflowError \/ e = ValueError)).
  { intros u. destruct (num_str x) as [shown|e'] eqn:E; [discriminate|].
    cbn. intros [= <-]. destruct (Hn x E) as [H1 H2]. tauto. }
  assert (Hmilli : forall u : option string,
             ('(value, unit) ← (q ← py_truediv x (PyInt 1000); Ok (q, u));
              shown ← num_str value;
              Ok (or_str l (lower (SensorKind_name k)) +:+ ": " +:+ shown +:+ " " +:+ or_str unit ""))
             = Raise e -> is_int x = true /\ (e = OverflowError \/ e = ValueError)).
  { intros u. destruct x as [z|f]; cbn [py_truediv].
    - unfold int_truediv.
      destruct (Z.abs z) as [|n|n];
        [discriminate| |discriminate].
      destruct (float_of_ratio _ n _) as [s|s| |s m ex]; cbn; try discriminate.
      intros [= <-]. split; [reflexivity|now left].
    - rewrite int_to_float_1000. cbn. discriminate. }
  destruct k; cbn [unit startswith String.prefix]; first [apply Hplain|idtac].
  all: try apply (Hmilli (Some (lstrip_char "m" "mV"))).
  all: try apply (Hmilli (Some (lstrip_char "m" "m°C"))).
  all: try apply (Hmilli (Some (lstrip_char "m" "mA"))).
  all: cbn; apply Hplain.
Qed.

Lemma SensorValue_str_raises_witness :
  is_int (PyInt (10 ^ 400)) = true /\ (OverflowError = OverflowError \/ OverflowError = ValueError).
Proof.
  apply (SensorValue_str_raises {| label := None; kind := VOLTAGE; value := PyInt (10 ^ 400) |}).
  vm_compute. reflexivity.
Defined.

(** ** The walk to the battery directory *)

Lemma find_battery_None (p : path) :
  ~ In Axp20Battery_POWER_SUPPLY (path_parent p) -> find_battery p = None.
Proof.
  intros Hno. unfold find_battery, path_parents.
  assert (H : forall n, (n <= length p)%nat ->
                        fold_left
                          (fun battery b =>
                             if String.eqb (path_name b) Axp20Battery_POWER_SUPPLY
                             then Some b else battery)
                          (parents_from n p) None = None); [|apply H; lia].
  induction n as [|n IH]; intros Hn; [reflexivity|].
  cbn [parents_from fold_left].
  destruct (String.eqb (path_name (take n p)) Axp20Battery_POWER_SUPPLY) eqn:E;
    [|apply IH; lia].
  exfalso. apply String.eqb_eq in E. apply Hno.
  destruct (exists_last (l := take n p)) as (q & x & Hq).
  { intros Hnil. rewrite Hnil in E. discriminate E. }
  unfold path_name in E. rewrite Hq, last_last in E. subst x.
  unfold path_parent. rewrite <- (take_drop n p), Hq.
  rewrite removelast_app.
  - apply in_or_app. left. apply in_or_app. right. now left.
  - intros Hd. apply (f_equal length) in Hd. rewrite length_drop in Hd. cbn in Hd. lia.
Qed.

(** X13. The walk over [hwmon.parents] finds a directory exactly when
    a proper ancestor of the path is named
    [axp20x-battery-power-supply]; the last component of the path
    itself is not looked at. What it finds is a proper prefix of the
    path with that name and no such name above it, the outermost
    one. *)
Theorem find_battery_spec (p : path) :
  match find_battery p with
  | Some b => exists post, p = b ++ post /\ post <> []
                           /\ path_name b = Axp20Battery_POWER_SUPPLY
                           /\ ~ In Axp20Battery_POWER_SUPPLY (path_parent b)
  | None => ~ In Axp20Battery_POWER_SUPPLY (path_parent p)
  end.
Proof.
  destruct (in_dec string_dec Axp20Battery_POWER_SUPPLY (path_parent p)) as [Hin|Hno].
  - apply list_elem_of_In, list_elem_of_split_l in Hin.
    destruct Hin as (l1 & l2 & Hp & Hl1).
    assert (Hne : p <> []) by (intros ->; destruct l1; discriminate Hp).
    pose proof (app_removelast_last "" Hne) as Hsplit.
    unfold path_parent in Hp. rewrite Hp in Hsplit.
    rewrite <- app_assoc in Hsplit. cbn [app] in Hsplit.
    remember (List.last p "") as x eqn:Hx. clear Hx Hp Hne. subst p.
    rewrite find_battery_outermost.
    + exists (l2 ++ [x]). split; [|split; [|split]].
      * rewrite <- app_assoc. reflexivity.
      * now destruct l2.
      * apply path_name_app.
      * rewrite path_parent_app. intros H. apply Hl1, list_elem_of_In, H.
    + intros H. apply Hl1, list_elem_of_In, H.
    + now destruct l2.
  - rewrite find_battery_None by exact Hno. exact Hno.
Qed.

Lemma find_battery_spec_witness :
  exists post,
    ["sys"; "devices"; "sunxi-rsb-3a3"; "axp20x-battery-power-supply"; "power_supply";
     "axp20x-battery"; "hwmon"; "hwmon3"]
    = ["sys"; "devices"; "sunxi-rsb-3a3"; "axp20x-battery-power-supply"] ++ post
    /\ post <> []
    /\ path_name ["sys"; "devices"; "sunxi-rsb-3a3"; "axp20x-battery-power-supply"]
       = Axp20Battery_POWER_SUPPLY
    /\ ~ In Axp20Battery_POWER_SUPPLY
           (path_parent ["sys"; "devices"; "sunxi-rsb-3a3"; "axp20x-battery-power-supply"]).
Proof.
  exact (find_battery_spec ["sys"; "devices"; "sunxi-rsb-3a3"; "axp20x-battery-power-supply";
                            "power_supply"; "axp20x-battery"; "hwmon"; "hwmon3"]).
Defined.

(** ** The label of a channel *)

Lemma before_underscore_app (id rest : string) :
  before_underscore (id +:+ "_" +:+ rest) = before_underscore id.
Proof.
  induction id as [|c id IH].
  - reflexivity.
  - rewrite append_cons. cbn [before_underscore]. destruct (Ascii.eqb c "_"); [reflexivity|].
    f_equal. exact IH.
Qed.

Lemma path_name_join (p : path) (n : string) : path_name (p // n) = n.
Proof. apply path_name_app. Qed.

(** X14. The label of a channel comes from the file whose name is the
    text before the first underscore of the entry plus [_label]: the
    stripped content of that file, no label when the file does not
    exist, and any other error of reading it ends the parse with that
    error, whatever the input file holds. *)
Theorem parse_channel_label (fs : FileSystem) (hwmon : path) (k : SensorKind)
    (id rest : string) :
  before_underscore id = id ->
  (forall sv, parse_channel fs hwmon k (hwmon // (id +:+ "_" +:+ rest)) = Ok sv ->
              match read_text fs (hwmon // (id +:+ "_label")) with
              | Ok t => label sv = Some (strip t)
              | Raise e => e = OSError ENOENT /\ label sv = None
              end)
  /\ (forall e, read_text fs (hwmon // (id +:+ "_label")) = Raise e ->
                e <> OSError ENOENT ->
                parse_channel fs hwmon k (hwmon // (id +:+ "_" +:+ rest)) = Raise e).
Proof.
  intros Hid. unfold parse_channel. rewrite path_name_join, before_underscore_app, Hid.
  destruct (read_text fs (hwmon // (id +:+ "_label"))) as [t|e] eqn:El.
  - split; [|discriminate]. intros sv. cbn [mbind result_bind except_FileNotFoundError].
    destruct (channel_value _ _ _ _); [|discriminate]. cbn. now intros [= <-].
  - split.
    + intros sv. destruct e as [[]| | | | | | |]; try discriminate.
      cbn [mbind result_bind except_FileNotFoundError].
      destruct (channel_value _ _ _ _); [|discriminate]. cbn. now intros [= <-].
    + intros e' [= <-] Hne. destruct e as [[]| | | | | | |]; try reflexivity.
      now elim Hne.
Qed.

Lemma parse_channel_label_witness :
  label {| label := Some "Composite"; kind := TEMPERATURE; value := PyInt 30000 |}
  = Some (strip ("Composite" +:+ nl)).
Proof.
  exact (proj1 (parse_channel_label (tree_fs labelled_tree) ["hwmon0"] TEMPERATURE
                  "temp1" "input" eq_refl)
           {| label := Some "Composite"; kind := TEMPERATURE; value := PyInt 30000 |}
           eq_refl).
Defined.

(** ** The report of all items *)

Lemma parse_items_Raises {J E} (pre post : list (string * outcome E (InfoItem J E)))
    (name : string) (e : exn + E) (data : list (string * InfoItem J E)) :
  e <> inl (OSError ENOENT) ->
  Forall (fun p => forall e', p.2 = Raises e' -> e' = inl (OSError ENOENT)) pre ->
  parse_items (pre ++ (name, Raises e) :: post) data = Raises e.
Proof.
  intros He Hpre. revert data. induction Hpre as [|[n p] pre Hp Hpre IH]; intros data.
  - cbn. destruct e as [[[]| | | | | | |]|x]; try reflexivity. now elim He.
  - cbn [app parse_items]. destruct p as [item|e'].
    + apply IH.
    + rewrite (Hp e' eq_refl). apply IH.
Qed.

(** X15. [_all] parses every item before it writes anything: when the
    first [parse()] that raises something other than
    [FileNotFoundError] raises [e], the call ends with [e] and
    nothing is written, in both output modes. *)
Theorem all_parse_error {J E} (fs : FileSystem) (o : other_classes J E) (as_json : bool)
    (pre post : list (string * outcome E (InfoItem J E))) (name : string) (e : exn + E) :
  ITEMS fs o = pre ++ (name, Raises e) :: post ->
  e <> inl (OSError ENOENT) ->
  Forall (fun p => forall e', p.2 = Raises e' -> e' = inl (OSError ENOENT)) pre ->
  _all (ITEMS fs o) as_json = ([], Some e).
Proof.
  intros -> He Hpre. unfold _all. now rewrite parse_items_Raises.
Qed.

Lemma all_parse_error_witness :
  _all (ITEMS (tree_fs plain_battery_tree) sample_classes) true
  = ([], Some (inl AttributeError)).
Proof.
  apply (all_parse_error (tree_fs plain_battery_tree) sample_classes true
           (removelast (ITEMS (tree_fs plain_battery_tree) sample_classes)) [] "hwmon").
  - vm_compute. reflexivity.
  - discriminate.
  - repeat constructor; cbn; intros e' H; try discriminate H.
    now injection H as <-.
Defined.

Lemma parse_items_app {J E} (pre post : list (string * outcome E (InfoItem J E)))
    (data : list (string * InfoItem J E)) :
  parse_items (pre ++ post) data
  = match parse_items pre data with
    | Returns data' => parse_items post data'
    | Raises e => Raises e
    end.
Proof.
  revert data. induction pre as [|[n p] pre IH]; intros data; [reflexivity|].
  cbn [app parse_items]. destruct p as [item|[[[]| | | | | | |]|x]]; try reflexivity; apply IH.
Qed.

(** The group that has no [name] file, after groups that parse. *)
Lemma Hwmon_parse_missing_name (fs : FileSystem) (names rest : list string) (h : string) :
  listdir fs HWMON = Ok (names ++ h :: rest) ->
  Forall (fun n => exists s, Sensor_parse fs (HWMON // n) = Ok s) names ->
  absent fs (HWMON // h // "name") ->
  Hwmon_parse fs = Raise (OSError ENOENT).
Proof.
  intros Hl Hn Ha. unfold Hwmon_parse. rewrite Hl. cbn [mbind result_bind].
  rewrite (mapM_first_Raise (fun h => Sensor_parse fs (HWMON // h)) names rest h
             (OSError ENOENT)); [reflexivity|exact Hn|].
  unfold Sensor_parse. rewrite Ha. reflexivity.
Qed.

(** X16. A [FileNotFoundError] anywhere in the parsing of the sensors,
    such as a group without [name] file, makes the [sensors] command
    end with that error, whereas [_all] goes on without it: it
    writes what it writes when [ITEMS] has no [hwmon] entry, all
    sensor groups left out. *)
Theorem all_skips_hwmon {J E} (fs : FileSystem) (o : other_classes J E) (as_json : bool) :
  Hwmon_parse fs = Raise (OSError ENOENT) ->
  sensors fs as_json = ([], Some (OSError ENOENT))
  /\ _all (ITEMS fs o) as_json = _all (removelast (ITEMS fs o)) as_json.
Proof.
  intros H. split.
  - unfold sensors. now rewrite H.
  - unfold _all, ITEMS. rewrite H. cbn [removelast].
    change [("uname", Returns (Uname_parsed o)); ("system", SystemType_parsed o);
            ("uptime", Uptime_parsed o); ("cpufreq", Cpufreq_parsed o);
            ("memory", Meminfo_parsed o);
            ("hwmon", @Raises E (InfoItem J E) (inl (OSError ENOENT)))]
      with ([("uname", Returns (Uname_parsed o)); ("system", SystemType_parsed o);
             ("uptime", Uptime_parsed o); ("cpufreq", Cpufreq_parsed o);
             ("memory", Meminfo_parsed o)]
            ++ [("hwmon", @Raises E (InfoItem J E) (inl (OSError ENOENT)))]).
    rewrite parse_items_app.
    destruct (parse_items _ []) as [data|e]; reflexivity.
Qed.

Lemma all_skips_hwmon_witness :
  sensors (tree_fs broken_tree) false = ([], Some (OSError ENOENT))
  /\ _all (ITEMS (tree_fs broken_tree) sample_classes) false
     = _all (removelast (ITEMS (tree_fs broken_tree) sample_classes)) false.
Proof.
  apply (all_skips_hwmon (tree_fs broken_tree) sample_classes false).
  apply (Hwmon_parse_missing_name (tree_fs broken_tree) ["hwmon0"] ["hwmon2"] "hwmon1").
  - vm_compute. reflexivity.
  - repeat constructor. eexists. vm_compute. reflexivity.
  - vm_compute. reflexivity.
Defined.

Lemma print_items_last {J E} (data : list (string * InfoItem J E)) :
  last (print_items data).1 = None \/ last (print_items data).1 = Some (Line "").
Proof.
  induction data as [|[n item] data IH]; [now left|].
  cbn [print_items]. destruct (item_str item) as [t|e]; [|now left].
  destruct (print_items data) as [out r]. cbn [fst] in *. right.
  destruct out as [|w out]; [reflexivity|].
  destruct IH as [IH|IH]; [apply last_None in IH; discriminate IH|].
  change (last (Line t :: Line "" :: w :: out)) with (last (w :: out)). exact IH.
Qed.

(** X17. In the text mode the terminator line [=^.^=] is the last line
    written exactly when [_all] returns: a call that an exception
    ends has written nothing, or blocks that end in an empty line.
    In the JSON mode the terminator is never written. *)
Theorem all_terminator {J E} (items : list (string * outcome E (InfoItem J E)))
    (out : list (written J)) (r : option (exn + E)) :
  (_all items false = (out, r) -> (r = None <-> last out = Some (Line "=^.^=")))
  /\ (_all items true = (out, r) -> ~ In (Line "=^.^=") out).
Proof.
  unfold _all. destruct (parse_items items []) as [data|e].
  - split.
    + pose proof (print_items_last data) as Hl.
      destruct (print_items data) as [out' [e|]]; cbn [fst] in Hl; intros [= <- <-].
      * split; [discriminate|]. intros H. destruct Hl as [Hl|Hl]; rewrite Hl in H; discriminate H.
      * split; [|reflexivity]. intros _. apply last_snoc.
    + cbv zeta. destruct (forallb _ _); intros [= <- <-].
      * intros [H|[H|[]]]; discriminate H.
      * intros [H|[]]; discriminate H.
  - split; intros [= <- <-]; [|intros []].
    split; discriminate.
Qed.

Lemma all_terminator_witness :
  last (_all (ITEMS (tree_fs board_tree) sample_classes) false).1 = Some (Line "=^.^=").
Proof.
  destruct (all_terminator (ITEMS (tree_fs board_tree) sample_classes)
              (_all (ITEMS (tree_fs board_tree) sample_classes) false).1 None) as [H _].
  apply H; [vm_compute|]; reflexivity.
Defined.

Lemma parse_items_keeps_first {J E} (items : list (string * outcome E (InfoItem J E)))
    (k : string) (v : InfoItem J E) (data data' : list (string * InfoItem J E)) :
  parse_items items ((k, v) :: data) = Returns data' ->
  ~ In k (map fst items) ->
  exists rest, data' = (k, v) :: rest.
Proof.
  revert data. induction items as [|[n p] items IH]; intros data.
  - cbn. intros [= <-] _. now exists data.
  - cbn [parse_items map fst In]. intros H Hk.
    assert (Hn : String.eqb n k = false).
    { apply String.eqb_neq. intros ->. apply Hk. now left. }
    destruct p as [item|[[[]| | | | | | |]|x]]; try discriminate H.
    + cbn [dict_set] in H. rewrite Hn in H. eapply IH; [exact H|tauto].
    + eapply IH; [exact H|tauto].
Qed.

(** X18. [Uname.parse] cannot fail, so the report in text mode is never
    the terminator alone: when [_all] returns, what it has written
    begins with the text of the [uname] item and an empty line. *)
Theorem all_begins_with_uname {J E} (fs : FileSystem) (o : other_classes J E)
    (out : list (written J)) :
  _all (ITEMS fs o) false = (out, None) ->
  exists text rest,
    item_str (Uname_parsed o) = Returns text /\ out = Line text :: Line "" :: rest.
Proof.
  unfold _all.
  change (parse_items (ITEMS fs o) [])
    with (parse_items (tl (ITEMS fs o)) [("uname", Uname_parsed o)]).
  destruct (parse_items (tl (ITEMS fs o)) [("uname", Uname_parsed o)]) as [data|e] eqn:Ep;
    [|discriminate].
  apply parse_items_keeps_first in Ep.
  - destruct Ep as [rest ->]. cbn [print_items].
    destruct (item_str (Uname_parsed o)) as [text|e]; [|discriminate].
    destruct (print_items rest) as [out' [e|]]; intros [= <-].
    exists text, (out' ++ [Line "=^.^="]). split; reflexivity.
  - cbn. intros [H|[H|[H|[H|[H|[]]]]]]; discriminate H.
Qed.

Lemma all_begins_with_uname_witness :
  exists text rest,
    item_str (Uname_parsed sample_classes) = Returns text
    /\ (_all (ITEMS (tree_fs board_tree) sample_classes) false).1
       = Line text :: Line "" :: rest.
Proof.
  apply (all_begins_with_uname (tree_fs board_tree) sample_classes).
  vm_compute. reflexivity.
Defined.

(** ** Regular expressions *)

Lemma app_assoc_s (a b c : string) : (a +:+ b) +:+ c = a +:+ b +:+ c.
Proof. induction a as [|x a IH]; [reflexivity|]. rewrite !append_cons. now rewrite IH. Qed.

Lemma app_nil_r_s (a : string) : a +:+ "" = a.
Proof. induction a as [|x a IH]; [reflexivity|]. rewrite append_cons. now rewrite IH. Qed.

Lemma drop_str_app (a b : string) : drop_str (String.length a) (a +:+ b) = b.
Proof. induction a as [|x a IH]; [now destruct b|]. rewrite append_cons. exact IH. Qed.

Lemma all_chars_app (p : ascii -> bool) (a b : string) :
  all_chars p (a +:+ b) = all_chars p a && all_chars p b.
Proof.
  induction a as [|x a IH]; [reflexivity|]. rewrite append_cons. cbn [all_chars].
  rewrite IH. now rewrite andb_assoc.
Qed.

Lemma match_star_sound {A} (p : ascii -> bool) (rest pre : string)
    (k : string -> string -> option A) (m : A) :
  match_star p pre rest k = Some m ->
  exists a b, rest = a +:+ b /\ all_chars p a = true /\ k (pre +:+ a) b = Some m.
Proof.
  revert pre. induction rest as [|c rest IH]; intros pre; cbn [match_star].
  - intros H. exists "", "". rewrite (app_nil_r_s pre). now repeat split.
  - assert (Hstop : k pre (String c rest) = Some m ->
                    exists a b, String c rest = a +:+ b /\ all_chars p a = true
                                /\ k (pre +:+ a) b = Some m).
    { intros H. exists "", (String c rest). rewrite (app_nil_r_s pre). now repeat split. }
    destruct (p c) eqn:Hc; [|exact Hstop].
    destruct (match_star p (pre +:+ String c "") rest k) as [m'|] eqn:E; [|exact Hstop].
    intros [= ->]. destruct (IH _ E) as (a & b & -> & Ha & Hk).
    exists (String c a), b. rewrite append_cons. cbn [all_chars]. rewrite Hc, Ha.
    repeat split. rewrite app_assoc_s in Hk. exact Hk.
Qed.

Lemma match_star_complete {A} (p : ascii -> bool) (a pre b : string)
    (k : string -> string -> option A) (m : A) :
  all_chars p a = true -> k (pre +:+ a) b = Some m ->
  exists m', match_star p pre (a +:+ b) k = Some m'.
Proof.
  revert pre. induction a as [|c a IH]; intros pre.
  - intros _. rewrite app_nil_r_s. intros Hk. change ("" +:+ b) with b.
    destruct b as [|c b]; cbn [match_star]; [eauto|].
    destruct (p c); [|eauto]. destruct (match_star p _ b k); eauto.
  - cbn [all_chars]. intros [Hc Ha]%andb_true_iff Hk. rewrite append_cons.
    cbn [match_star]. rewrite Hc.
    change (String c a) with (String c "" +:+ a) in Hk. rewrite <- app_assoc_s in Hk.
    destruct (IH _ Ha Hk) as [m' ->]. eauto.
Qed.

Lemma match_at_sound (r : regex) :
  forall pre rest groups k m,
    match_at r pre rest groups k = Some m ->
    exists a b groups',
      rest = a +:+ b /\ denotes r pre a b groups groups'
      /\ k (pre +:+ a) b groups' = Some m.
Proof.
  induction r as [| |c|p|p|n r IH|r1 IH1 r2 IH2]; intros pre rest groups k m;
    cbn [match_at denotes].
  - destruct pre; [|discriminate]. intros H. exists "", rest, groups. now repeat split.
  - destruct rest as [|c [|d rest]].
    + intros H. exists "", "", groups. rewrite (app_nil_r_s pre). repeat split; tauto.
    + destruct (Ascii.eqb c "010") eqn:Ec; [|discriminate].
      apply Ascii.eqb_eq in Ec. subst c. intros H. exists "", nl, groups.
      rewrite (app_nil_r_s pre). repeat split; tauto.
    + discriminate.
  - destruct rest as [|d rest]; [discriminate|].
    destruct (Ascii.eqb d c) eqn:Ec; [|discriminate]. apply Ascii.eqb_eq in Ec. subst d.
    intros H. exists (String c ""), rest, groups. now repeat split.
  - destruct rest as [|d rest]; [discriminate|].
    destruct (p d) eqn:Ed; [|discriminate].
    intros H. exists (String d ""), rest, groups. repeat split; eauto.
  - intros H. apply match_star_sound in H. destruct H as (a & b & -> & Ha & Hk).
    exists a, b, groups. now repeat split.
  - intros H. apply IH in H. destruct H as (a & b & g0 & -> & Hr & Hk).
    rewrite drop_str_app in Hk. exists a, b, ((n, a) :: g0). repeat split; eauto.
  - intros H. apply IH1 in H. destruct H as (a1 & b1 & g1 & -> & Hr1 & H).
    apply IH2 in H. destruct H as (a2 & b2 & g2 & -> & Hr2 & Hk).
    exists (a1 +:+ a2), b2, g2. rewrite app_assoc_s. split; [reflexivity|].
    split; [exists a1, a2, g1; now repeat split|]. rewrite <- app_assoc_s. exact Hk.
Qed.

Lemma match_at_complete (r : regex) :
  forall pre a b groups groups' k m,
    denotes r pre a b groups groups' ->
    k (pre +:+ a) b groups' = Some m ->
    exists m', match_at r pre (a +:+ b) groups k = Some m'.
Proof.
  induction r as [| |c|p|p|n r IH|r1 IH1 r2 IH2]; intros pre a b groups groups' k m;
    cbn [match_at denotes].
  - intros (-> & -> & ->) Hk. cbn. eauto.
  - intros (-> & Hb & ->) Hk. rewrite app_nil_r_s in Hk. change ("" +:+ b) with b.
    destruct Hb as [-> | ->]; cbn; eauto.
  - intros (-> & ->) Hk. rewrite append_cons. change ("" +:+ b) with b.
    rewrite Ascii.eqb_refl. eauto.
  - intros (d & Hd & -> & ->) Hk. rewrite append_cons. change ("" +:+ b) with b.
    rewrite Hd. eauto.
  - intros (Ha & ->) Hk. eapply match_star_complete; [exact Ha|exact Hk].
  - intros (g0 & Hr & ->) Hk. eapply IH; [exact Hr|]. cbn beta.
    rewrite drop_str_app. exact Hk.
  - intros (a1 & a2 & g1 & -> & Hr1 & Hr2) Hk. rewrite app_assoc_s.
    rewrite <- app_assoc_s in Hk.
    destruct (IH2 _ _ _ _ _ _ _ Hr2 Hk) as [m2 H2].
    eapply IH1; [exact Hr1|exact H2].
Qed.

Lemma Meminfo_line_denotes_1 (a b : string) (g g' : list (nat * string)) :
  denotes Meminfo_line "" a b g g' ->
  exists key ws digits,
    a = key +:+ ":" +:+ ws +:+ digits +:+ " kB" /\ (b = "" \/ b = nl)
    /\ all_chars dot key = true
    /\ ws <> "" /\ all_chars is_space ws = true
    /\ digits <> "" /\ all_chars is_digit digits = true
    /\ g' = (2%nat, digits) :: (1%nat, key) :: g.
Proof.
  unfold Meminfo_line, Plus. cbn [denotes].
  intros (a1 & a2 & g1 & -> & (_ & -> & ->) & H).
  destruct H as (key & a3 & g2 & -> & (g3 & (Hkey & ->) & ->) & H).
  destruct H as (colon & a4 & g4 & -> & (-> & ->) & H).
  destruct H as (ws & a5 & g5 & -> & Hws & H).
  destruct Hws as (w1 & ws' & g6 & -> & (w & Hw & -> & ->) & (Hws' & ->)).
  destruct H as (digits & a6 & g7 & -> & Hd & H).
  destruct Hd as (g8 & (d1 & ds' & g9 & -> & (d & Hd & -> & ->) & (Hds' & ->)) & ->).
  destruct H as (x1 & a7 & g10 & -> & (-> & ->) & H).
  destruct H as (x2 & a8 & g11 & -> & (-> & ->) & H).
  destruct H as (x3 & a9 & g12 & -> & (-> & ->) & (-> & Hb & ->)).
  exists key, (String w ws'), (String d ds'). cbn [all_chars]. rewrite Hw, Hd, Hws', Hds'.
  repeat split; try reflexivity; try discriminate; assumption.
Qed.

Lemma Meminfo_line_denotes_2 (key ws digits b : string) (g : list (nat * string)) :
  (b = "" \/ b = nl) ->
  all_chars dot key = true ->
  ws <> "" -> all_chars is_space ws = true ->
  digits <> "" -> all_chars is_digit digits = true ->
  denotes Meminfo_line "" (key +:+ ":" +:+ ws +:+ digits +:+ " kB") b g
          ((2%nat, digits) :: (1%nat, key) :: g).
Proof.
  intros Hb Hkey Hws0 Hws Hd0 Hd.
  destruct ws as [|w ws']; [now elim Hws0|]. destruct digits as [|d ds']; [now elim Hd0|].
  cbn [all_chars] in Hws, Hd. apply andb_true_iff in Hws, Hd.
  destruct Hws as [Hw Hws'], Hd as [Hd Hds'].
  unfold Meminfo_line, Plus. cbn [denotes].
  exists "", (key +:+ ":" +:+ String w ws' +:+ String d ds' +:+ " kB"), g.
  split; [reflexivity|]. split; [now repeat split|].
  exists key, (":" +:+ String w ws' +:+ String d ds' +:+ " kB"), ((1%nat, key) :: g).
  split; [reflexivity|]. split; [exists g; now repeat split|].
  exists ":", (String w ws' +:+ String d ds' +:+ " kB"), ((1%nat, key) :: g).
  split; [reflexivity|]. split; [now split|].
  exists (String w ws'), (String d ds' +:+ " kB"), ((1%nat, key) :: g).
  split; [reflexivity|]. split.
  { exists (String w ""), ws', ((1%nat, key) :: g). split; [reflexivity|].
    split; [exists w; now repeat split|now split]. }
  exists (String d ds'), " kB", ((2%nat, String d ds') :: (1%nat, key) :: g).
  split; [reflexivity|]. split.
  { exists ((1%nat, key) :: g). split; [|reflexivity].
    exists (String d ""), ds', ((1%nat, key) :: g). split; [reflexivity|].
    split; [exists d; now repeat split|now split]. }
  exists " ", "kB", ((2%nat, String d ds') :: (1%nat, key) :: g).
  split; [reflexivity|]. split; [now split|].
  exists "k", "B", ((2%nat, String d ds') :: (1%nat, key) :: g).
  split; [reflexivity|]. split; [now split|].
  exists "B", "", ((2%nat, String d ds') :: (1%nat, key) :: g).
  split; [reflexivity|]. split; [now split|]. now repeat split.
Qed.

Lemma all_chars_impl (p q : ascii -> bool) (s : string) :
  (forall c, p c = true -> q c = true) -> all_chars p s = true -> all_chars q s = true.
Proof.
  intros Hpq. induction s as [|c s IH]; [reflexivity|]. cbn [all_chars].
  intros [Hc Hs]%andb_true_iff. now rewrite (Hpq c Hc), IH.
Qed.

(** A split of a text into a run of a class and a rest that does not
    begin in the class is unique. *)
Lemma span_unique (p : ascii -> bool) (a a' b b' : string) :
  all_chars p a = true -> all_chars p a' = true ->
  all_chars p (take_str 1 b) = false -> all_chars p (take_str 1 b') = false ->
  a +:+ b = a' +:+ b' -> a = a' /\ b = b'.
Proof.
  revert a'. induction a as [|c a IH]; intros [|c' a'] Ha Ha' Hb Hb'.
  - intros H. split; [reflexivity|exact H].
  - change ("" +:+ b) with b. rewrite append_cons. intros ->.
    cbn [all_chars take_str] in Ha', Hb. apply andb_true_iff in Ha'.
    destruct Ha' as [Hc _]. rewrite Hc in Hb. discriminate Hb.
  - change ("" +:+ b') with b'. rewrite append_cons. intros <-.
    cbn [all_chars take_str] in Ha, Hb'. apply andb_true_iff in Ha.
    destruct Ha as [Hc _]. rewrite Hc in Hb'. discriminate Hb'.
  - rewrite !append_cons. intros [= <- H]. cbn [all_chars] in Ha, Ha'.
    apply andb_true_iff in Ha, Ha'. destruct (IH a') as [-> ->]; tauto.
Qed.

(** A split of a text at a character that does not occur after it is
    unique. *)
Lemma last_split_unique (x : ascii) (a a' t t' : string) :
  all_chars (fun c => negb (Ascii.eqb c x)) t = true ->
  all_chars (fun c => negb (Ascii.eqb c x)) t' = true ->
  a +:+ String x t = a' +:+ String x t' -> a = a' /\ t = t'.
Proof.
  intros Ht Ht'. revert a'. induction a as [|c a IH]; intros [|c' a'].
  - now intros [= ->].
  - change ("" +:+ String x t) with (String x t). rewrite append_cons. intros [= <- ->].
    rewrite all_chars_app in Ht. cbn [all_chars] in Ht. rewrite Ascii.eqb_refl in Ht.
    cbn in Ht. rewrite andb_false_r in Ht. discriminate Ht.
  - change ("" +:+ String x t') with (String x t'). rewrite append_cons. intros [= -> <-].
    rewrite all_chars_app in Ht'. cbn [all_chars] in Ht'. rewrite Ascii.eqb_refl in Ht'.
    cbn in Ht'. rewrite andb_false_r in Ht'. discriminate Ht'.
  - rewrite !append_cons. intros [= <- H]. destruct (IH a' H) as [-> ->]. now split.
Qed.

Lemma is_space_not_colon (c : ascii) : is_space c = true -> negb (Ascii.eqb c ":") = true.
Proof. destruct (Ascii.eqb c ":") eqn:E; [|reflexivity]. apply Ascii.eqb_eq in E. now subst c. Qed.

Lemma is_digit_not_colon (c : ascii) : is_digit c = true -> negb (Ascii.eqb c ":") = true.
Proof. destruct (Ascii.eqb c ":") eqn:E; [|reflexivity]. apply Ascii.eqb_eq in E. now subst c. Qed.

Lemma is_digit_not_space (c : ascii) : is_digit c = true -> is_space c = false.
Proof.
  unfold is_digit, is_space, is_c_space, is_separator.
  destruct (nat_of_ascii c) as [|n] eqn:E; [discriminate|].
  intros [H1 H2]%andb_true_iff. apply Nat.leb_le in H1, H2.
  repeat match goal with |- context [(?x <=? ?y)%nat] => destruct (Nat.leb_spec x y) end;
    repeat match goal with |- context [(?x =? ?y)%nat] => destruct (Nat.eqb_spec x y) end;
    try reflexivity; lia.
Qed.

Lemma Meminfo_entry_unique (key key' ws ws' digits digits' e e' : string) :
  (e = "" \/ e = nl) -> (e' = "" \/ e' = nl) ->
  all_chars is_space ws = true -> all_chars is_space ws' = true ->
  digits <> "" -> digits' <> "" ->
  all_chars is_digit digits = true -> all_chars is_digit digits' = true ->
  key +:+ ":" +:+ ws +:+ digits +:+ " kB" +:+ e
  = key' +:+ ":" +:+ ws' +:+ digits' +:+ " kB" +:+ e' ->
  key = key' /\ digits = digits' /\ e = e'.
Proof.
  intros He He' Hws Hws' Hd0 Hd0' Hd Hd' H.
  assert (Htail : forall w d x, (x = "" \/ x = nl) -> all_chars is_space w = true ->
            all_chars is_digit d = true ->
            all_chars (fun c => negb (Ascii.eqb c ":")) (w +:+ d +:+ " kB" +:+ x) = true).
  { intros w d x Hx Hw Hdd. rewrite !all_chars_app.
    rewrite (all_chars_impl _ _ _ is_space_not_colon Hw).
    rewrite (all_chars_impl _ _ _ is_digit_not_colon Hdd).
    destruct Hx as [-> | ->]; reflexivity. }
  change (":" +:+ ws +:+ digits +:+ " kB" +:+ e)
    with (String ":" (ws +:+ digits +:+ " kB" +:+ e)) in H.
  change (":" +:+ ws' +:+ digits' +:+ " kB" +:+ e')
    with (String ":" (ws' +:+ digits' +:+ " kB" +:+ e')) in H.
  apply last_split_unique in H; [|now apply Htail|now apply Htail].
  destruct H as [-> H]. split; [reflexivity|].
  assert (Hhead : forall d x, d <> "" -> all_chars is_digit d = true ->
            all_chars is_space (take_str 1 (d +:+ x)) = false).
  { intros [|c d] x Hne Hdd; [now elim Hne|]. rewrite append_cons. cbn [take_str all_chars].
    cbn [all_chars] in Hdd. apply andb_true_iff in Hdd. destruct Hdd as [Hc _].
    now rewrite (is_digit_not_space c Hc). }
  apply (span_unique is_space) in H; [|assumption|assumption|now apply Hhead|now apply Hhead].
  destruct H as [_ H].
  apply (span_unique is_digit) in H; [|assumption|assumption|reflexivity|reflexivity].
  destruct H as [-> H]. split; [reflexivity|].
  now apply (String.app_inj " kB") in H.
Qed.

Lemma re_match_Meminfo_line_Some (line : string) (m : list (nat * string)) :
  re_match Meminfo_line line = Some m ->
  exists key digits,
    m = [(2%nat, digits); (1%nat, key)] /\ Meminfo_entry line key digits.
Proof.
  unfold re_match. intros H. apply match_at_sound in H.
  destruct H as (a & b & g' & -> & Hd & [= <-]).
  apply Meminfo_line_denotes_1 in Hd.
  destruct Hd as (key & ws & digits & -> & Hb & Hkey & Hws0 & Hws & Hd0 & Hd & ->).
  exists key, digits. split; [reflexivity|]. exists ws, b.
  rewrite !app_assoc_s. change (":" +:+ ?x) with (String ":" x).
  now repeat split.
Qed.

Lemma re_match_Meminfo_line_entry (line key digits : string) :
  Meminfo_entry line key digits ->
  re_match Meminfo_line line = Some [(2%nat, digits); (1%nat, key)].
Proof.
  intros (ws & eol & Hl & He & Hkey & Hws0 & Hws & Hd0 & Hd).
  pose proof (Meminfo_line_denotes_2 key ws digits eol [] He Hkey Hws0 Hws Hd0 Hd) as Hden.
  destruct (match_at_complete Meminfo_line "" _ _ [] _ (fun _ _ groups => Some groups) _
              Hden eq_refl) as [m Hm].
  assert (Hline : line = (key +:+ ":" +:+ ws +:+ digits +:+ " kB") +:+ eol).
  { rewrite Hl, !app_assoc_s. reflexivity. }
  fold (re_match Meminfo_line ((key +:+ ":" +:+ ws +:+ digits +:+ " kB") +:+ eol)) in Hm.
  rewrite <- Hline in Hm. rewrite Hm.
  destruct (re_match_Meminfo_line_Some line m Hm) as (key' & digits' & -> & Hentry).
  destruct Hentry as (ws' & eol' & Hl' & He' & _ & _ & Hws' & Hd0' & Hd').
  rewrite Hl in Hl'.
  destruct (Meminfo_entry_unique key key' ws ws' digits digits' eol eol') as (-> & -> & _);
    auto.
Qed.

(** ** Meminfo *)

Lemma is_digit_not_c_space (c : ascii) : is_digit c = true -> is_c_space c = false.
Proof.
  intros H. apply is_digit_not_space in H. unfold is_space in H.
  now apply orb_false_iff in H.
Qed.

Lemma rstrip_with_none (sp : ascii -> bool) (s : string) :
  all_chars (fun c => negb (sp c)) s = true -> rstrip_with sp s = s.
Proof.
  induction s as [|c s IH]; [reflexivity|]. cbn [all_chars rstrip_with].
  intros [Hc Hs]%andb_true_iff. rewrite (IH Hs). apply negb_true_iff in Hc.
  destruct s; [now rewrite Hc|reflexivity].
Qed.

Lemma number_strip_digits (s : string) : all_chars is_digit s = true -> number_strip s = s.
Proof.
  intros H. unfold number_strip, strip_with. rewrite rstrip_with_none.
  - destruct s as [|c s]; [reflexivity|]. cbn [all_chars] in H.
    apply andb_true_iff in H. destruct H as [Hc _]. cbn [lstrip_with].
    now rewrite (is_digit_not_c_space c Hc).
  - eapply all_chars_impl; [|exact H]. intros c Hc.
    now rewrite (is_digit_not_c_space c Hc).
Qed.

Lemma digit_val_nonneg (c : ascii) : is_digit c = true -> 0 <= digit_val c.
Proof.
  unfold is_digit, digit_val. cbv zeta. intros [H _]%andb_true_iff.
  apply Nat.leb_le in H. lia.
Qed.

Lemma digitpart_tail_digits (s : string) :
  all_chars is_digit s = true ->
  forall acc n, 0 <= acc ->
    exists v, 0 <= v /\ digitpart_tail s acc n = (v, (n + String.length s)%nat, "").
Proof.
  induction s as [|c s IH]; intros H acc n Hacc.
  - exists acc. cbn. rewrite Nat.add_0_r. now split.
  - cbn [all_chars] in H. apply andb_true_iff in H. destruct H as [Hc Hs].
    cbn [digitpart_tail String.length]. rewrite Hc.
    pose proof (digit_val_nonneg c Hc) as Hv.
    destruct (IH Hs (10 * acc + digit_val c) (S n)) as (v & Hv0 & ->); [lia|].
    exists v. split; [exact Hv0|]. do 2 f_equal. lia.
Qed.

(** [int()] of a text of digits: the number, which is not negative,
    unless the digits are more than [int()] converts. *)
Lemma py_int_digits (s : string) :
  s <> "" -> all_chars is_digit s = true ->
  exists v, 0 <= v
            /\ py_int s = if (int_max_str_digits <? String.length s)%nat
                          then Raise ValueError else Ok v.
Proof.
  intros Hne H. unfold py_int. rewrite (number_strip_digits s H).
  destruct s as [|c s]; [now elim Hne|]. cbn [all_chars] in H.
  apply andb_true_iff in H. destruct H as [Hc Hs].
  assert (Hsign : split_sign (String c s) = (false, String c s)).
  { unfold split_sign. destruct (Ascii.eqb c "-") eqn:E1.
    - apply Ascii.eqb_eq in E1. subst c. discriminate Hc.
    - destruct (Ascii.eqb c "+") eqn:E2; [|reflexivity].
      apply Ascii.eqb_eq in E2. subst c. discriminate Hc. }
  rewrite Hsign. cbn [digitpart]. rewrite Hc.
  destruct (digitpart_tail_digits s Hs (digit_val c) 1 (digit_val_nonneg c Hc))
    as (v & Hv & ->).
  exists v. split; [exact Hv|]. reflexivity.
Qed.

Lemma Meminfo_parse_line_cases (data : list (string * Z)) (line : string) :
  (forall key digits,
      Meminfo_entry line key digits ->
      Meminfo_parse_line data line = (value ← py_int digits; Ok (dict_set key value data))
      /\ exists v, 0 <= v
                   /\ py_int digits = if (int_max_str_digits <? String.length digits)%nat
                                      then Raise ValueError else Ok v)
  /\ ((forall key digits, ~ Meminfo_entry line key digits) ->
      Meminfo_parse_line data line = Ok data).
Proof.
  split.
  - intros key digits He. split.
    + unfold Meminfo_parse_line. rewrite (re_match_Meminfo_line_entry line key digits He).
      reflexivity.
    + destruct He as (ws & eol & _ & _ & _ & _ & _ & Hd0 & Hd).
      now apply py_int_digits.
  - intros Hno. unfold Meminfo_parse_line.
    destruct (re_match Meminfo_line line) as [m|] eqn:E; [|reflexivity].
    destruct (re_match_Meminfo_line_Some line m E) as (key & digits & _ & He).
    now elim (Hno key digits).
Qed.

(** X19. A line of [/proc/meminfo] counts exactly when it is a key
    without newline, a colon, white space, digits, [ kB] and the end
    of the line: then the key, the text before the last colon, is
    set to the number, which is not negative, and [int()] fails only
    for more than 4300 digits. Any other line, such as an entry
    without [kB], leaves the dict as it is. *)
Theorem Meminfo_parse_line_entry (data : list (string * Z)) (line : string) :
  (forall key digits,
      Meminfo_entry line key digits ->
      Meminfo_parse_line data line = (value ← py_int digits; Ok (dict_set key value data))
      /\ exists v, 0 <= v
                   /\ py_int digits = if (int_max_str_digits <? String.length digits)%nat
                                      then Raise ValueError else Ok v)
  /\ ((forall key digits, ~ Meminfo_entry line key digits) ->
      Meminfo_parse_line data line = Ok data).
Proof. apply Meminfo_parse_line_cases. Qed.

Lemma Meminfo_parse_line_entry_witness :
  Meminfo_parse_line [("MemTotal", 1)] ("MemTotal:       16384 kB" +:+ nl)
  = Ok [("MemTotal", 16384)].
Proof.
  destruct (Meminfo_parse_line_entry [("MemTotal", 1)] ("MemTotal:       16384 kB" +:+ nl))
    as [H _].
  destruct (H "MemTotal" "16384") as [-> _]; [|reflexivity].
  exists "       ", nl. repeat split; try reflexivity; try discriminate. now right.
Defined.

Lemma dict_set_keys {A} (k : string) (v : A) (d : list (string * A)) :
  (In k (map fst d) /\ map fst (dict_set k v d) = map fst d)
  \/ (~ In k (map fst d) /\ map fst (dict_set k v d) = map fst d ++ [k]).
Proof.
  induction d as [|[k' v'] d IH]; [right; split; [intros []|reflexivity]|].
  cbn [dict_set map fst].
  destruct (String.eqb_spec k k') as [->|Hne].
  - left. split; [now left|reflexivity].
  - cbn [map fst]. destruct IH as [[Hin ->]|[Hno ->]].
    + left. split; [now right|reflexivity].
    + right. split; [|reflexivity]. intros [H|H]; [now elim Hne|now elim Hno].
Qed.

Lemma dict_set_NoDup {A} (k : string) (v : A) (d : list (string * A)) :
  List.NoDup (map fst d) -> List.NoDup (map fst (dict_set k v d)).
Proof.
  intros H. destruct (dict_set_keys k v d) as [[_ ->]|[Hno ->]]; [exact H|].
  apply NoDup_ListNoDup, NoDup_app.
  split; [now apply NoDup_ListNoDup|]. split; [|apply NoDup_singleton].
  intros x Hx ->%list_elem_of_singleton. now apply Hno, list_elem_of_In.
Qed.

Lemma dict_set_key_in {A} (k : string) (v : A) (d : list (string * A)) :
  In k (map fst (dict_set k v d)).
Proof.
  destruct (dict_set_keys k v d) as [[Hin ->]|[_ ->]]; [exact Hin|].
  apply in_or_app. right. now left.
Qed.

Lemma dict_set_keys_incl {A} (k k' : string) (v : A) (d : list (string * A)) :
  In k' (map fst d) -> In k' (map fst (dict_set k v d)).
Proof.
  intros H. destruct (dict_set_keys k v d) as [[_ ->]|[_ ->]]; [exact H|].
  apply in_or_app. now left.
Qed.

Lemma dict_set_In {A} (k k' : string) (v v' : A) (d : list (string * A)) :
  In (k', v') (dict_set k v d) -> (k', v') = (k, v) \/ In (k', v') d.
Proof.
  induction d as [|[k0 v0] d IH]; cbn [dict_set].
  - intros [H|[]]. now left.
  - destruct (String.eqb k k0).
    + intros [H|H]; [now left|right; now right].
    + intros [H|H]; [right; now left|]. destruct (IH H) as [H'|H']; [now left|right; now right].
Qed.

Lemma Meminfo_parse_line_inv (seen : list string) (data data' : list (string * Z))
    (line : string) :
  Meminfo_inv seen data ->
  Meminfo_parse_line data line = Ok data' ->
  Meminfo_inv (seen ++ [line]) data'.
Proof.
  intros (Hnd & Hval & Hkey) Hp.
  destruct (Meminfo_parse_line_cases data line) as [Hentry Hnone].
  unfold Meminfo_parse_line in Hp.
  destruct (re_match Meminfo_line line) as [m|] eqn:E.
  - destruct (re_match_Meminfo_line_Some line m E) as (key & digits & -> & He).
    cbn in Hp. change (group _ 2) with digits in Hp.
    destruct (Hentry key digits He) as [_ (v0 & Hv0 & Hint)].
    destruct (py_int digits) as [v|e] eqn:Ev; [|discriminate Hp].
    cbn in Hp. injection Hp as <-.
    assert (Hvv : 0 <= v).
    { destruct (_ <? _)%nat; [discriminate Hint|]. now injection Hint as ->. }
    split; [now apply dict_set_NoDup|]. split.
    + intros k' v' Hin. apply dict_set_In in Hin. destruct Hin as [[= -> ->]|Hin].
      * split; [exact Hvv|]. exists line, digits. split; [|now split].
        apply in_or_app. right. now left.
      * destruct (Hval k' v' Hin) as (Hv' & l & d & Hl & Hd).
        split; [exact Hv'|]. exists l, d. split; [|exact Hd]. apply in_or_app. now left.
    + intros l k' d [Hl|[<-|[]]]%in_app_or He'.
      * apply dict_set_keys_incl. eapply Hkey; eassumption.
      * pose proof (re_match_Meminfo_line_entry line k' d He') as E'.
        rewrite E in E'. injection E' as <- <-. apply dict_set_key_in.
  - injection Hp as <-. split; [exact Hnd|]. split.
    + intros k v Hin. destruct (Hval k v Hin) as (Hv' & l & d & Hl & Hd).
      split; [exact Hv'|]. exists l, d. split; [|exact Hd]. apply in_or_app. now left.
    + intros l k' d [Hl|[<-|[]]]%in_app_or He'.
      * eapply Hkey; eassumption.
      * rewrite (re_match_Meminfo_line_entry line k' d He') in E. discriminate E.
Qed.

Lemma Meminfo_parse_lines_inv (lines seen : list string) (data data' : list (string * Z)) :
  Meminfo_inv seen data ->
  Meminfo_parse_lines data lines = Ok data' ->
  Meminfo_inv (seen ++ lines) data'.
Proof.
  revert seen data. induction lines as [|line lines IH]; intros seen data Hinv.
  - cbn. intros [= <-]. now rewrite app_nil_r.
  - cbn [Meminfo_parse_lines]. destruct (Meminfo_parse_line data line) as [d1|e] eqn:E;
      [|discriminate]. cbn [mbind result_bind]. intros H.
    replace (seen ++ line :: lines) with ((seen ++ [line]) ++ lines)
      by (rewrite <- app_assoc; reflexivity).
    eapply IH; [|exact H]. eapply Meminfo_parse_line_inv; eassumption.
Qed.

(** X20. What [Meminfo.parse] returns: the keys are distinct, every
    value is a number that is not negative and comes from a line of
    the file that is an entry in kB for its key, and every such line
    has its key in the dict. *)
Theorem Meminfo_parse_stats (fs : FileSystem) (text : string) (m : Meminfo) :
  read_text fs MEMINFO = Ok text ->
  Meminfo_parse fs = Ok m ->
  List.NoDup (map fst (stats m))
  /\ (forall k v, In (k, v) (stats m) ->
                  0 <= v /\ exists line digits,
                              In line (file_lines text) /\ Meminfo_entry line k digits
                              /\ py_int digits = Ok v)
  /\ (forall line key digits,
         In line (file_lines text) -> Meminfo_entry line key digits ->
         In key (map fst (stats m))).
Proof.
  intros Hr. unfold Meminfo_parse. rewrite Hr. cbn [mbind result_bind].
  destruct (Meminfo_parse_lines [] (file_lines text)) as [data|e] eqn:E; [|discriminate].
  cbn. intros [= <-]. cbn [stats].
  apply (Meminfo_parse_lines_inv (file_lines text) [] [] data); [|exact E].
  split; [constructor|]. split; [intros k v []|intros l k d []].
Qed.

Lemma Meminfo_parse_stats_witness :
  List.NoDup (map fst [("MemTotal", 32768); ("MemAvailable", 8192)])
  /\ (forall k v, In (k, v) [("MemTotal", 32768); ("MemAvailable", 8192)] ->
                  0 <= v /\ exists line digits,
                              In line (file_lines meminfo_text) /\ Meminfo_entry line k digits
                              /\ py_int digits = Ok v)
  /\ (forall line key digits,
         In line (file_lines meminfo_text) -> Meminfo_entry line key digits ->
         In key (map fst [("MemTotal", 32768); ("MemAvailable", 8192)])).
Proof.
  apply (Meminfo_parse_stats (tree_fs meminfo_tree) meminfo_text
           {| stats := [("MemTotal", 32768); ("MemAvailable", 8192)] |});
    vm_compute; reflexivity.
Defined.

Lemma Meminfo_parse_lines_Raise (lines : list string) (data : list (string * Z)) (e : exn) :
  Meminfo_parse_lines data lines = Raise e ->
  e = ValueError
  /\ exists line key digits,
       In line lines /\ Meminfo_entry line key digits
       /\ (int_max_str_digits < String.length digits)%nat.
Proof.
  revert data. induction lines as [|line lines IH]; intros data; [discriminate|].
  cbn [Meminfo_parse_lines].
  destruct (Meminfo_parse_line data line) as [d1|e1] eqn:E; cbn [mbind result_bind].
  - intros H. destruct (IH _ H) as (-> & l & k & d & Hl & Hd).
    split; [reflexivity|]. exists l, k, d. split; [now right|exact Hd].
  - intros [= ->]. unfold Meminfo_parse_line in E.
    destruct (re_match Meminfo_line line) as [m|] eqn:Em; [|discriminate E].
    destruct (re_match_Meminfo_line_Some line m Em) as (key & digits & -> & He).
    change (group _ 2) with digits in E. change (group _ 1) with key in E.
    destruct (Meminfo_parse_line_cases data line) as [Hentry _].
    destruct (Hentry key digits He) as [_ (v & _ & Hint)].
    destruct (Nat.ltb_spec int_max_str_digits (String.length digits)) as [Hlt|Hge].
    + rewrite Hint in E. cbn in E. injection E as <-.
      split; [reflexivity|]. exists line, key, digits. split; [now left|now split].
    + rewrite Hint in E. discriminate E.
Qed.

(** X21. [Meminfo.parse] fails only when the file cannot be read, with
    the error of the reading, or with [ValueError] when an entry
    line has a number of more than 4300 digits; no other content of
    the file makes it fail. *)
Theorem Meminfo_parse_raises (fs : FileSystem) (e : exn) :
  Meminfo_parse fs = Raise e ->
  read_text fs MEMINFO = Raise e
  \/ (e = ValueError
      /\ exists text line key digits,
           read_text fs MEMINFO = Ok text /\ In line (file_lines text)
           /\ Meminfo_entry line key digits
           /\ (int_max_str_digits < String.length digits)%nat).
Proof.
  unfold Meminfo_parse. destruct (read_text fs MEMINFO) as [text|e'].
  - cbn [mbind result_bind].
    destruct (Meminfo_parse_lines [] (file_lines text)) as [data|e'] eqn:E; [discriminate|].
    cbn. intros [= ->]. right.
    destruct (Meminfo_parse_lines_Raise _ _ _ E) as (-> & l & k & d & H).
    split; [reflexivity|]. exists text, l, k, d. split; [reflexivity|exact H].
  - cbn. intros [= ->]. now left.
Qed.

Lemma Meminfo_parse_raises_witness :
  read_text (tree_fs board_tree) MEMINFO = Raise (OSError ENOENT)
  \/ (OSError ENOENT = ValueError
      /\ exists text line key digits,
           read_text (tree_fs board_tree) MEMINFO = Ok text /\ In line (file_lines text)
           /\ Meminfo_entry line key digits
           /\ (int_max_str_digits < String.length digits)%nat).
Proof.
  apply (Meminfo_parse_raises (tree_fs board_tree) (OSError ENOENT)).
  vm_compute. reflexivity.
Defined.

Lemma dict_set_other {A} (k k' : string) (v v' : A) (d : list (string * A)) :
  k <> k' -> In (k', v') d -> In (k', v') (dict_set k v d).
Proof.
  intros Hne. induction d as [|[k0 v0] d IH]; [intros []|]. cbn [dict_set].
  destruct (String.eqb_spec k k0) as [->|Hk].
  - intros [[= -> ->]|H]; [now elim Hne|now right].
  - intros [H|H]; [now left|right; now apply IH].
Qed.

Lemma dict_set_In_key {A} (k : string) (v : A) (d : list (string * A)) :
  In (k, v) (dict_set k v d).
Proof.
  induction d as [|[k0 v0] d IH]; [now left|]. cbn [dict_set].
  destruct (String.eqb k k0); [now left|now right].
Qed.

Lemma Meminfo_parse_lines_keeps (lines : list string) (data data' : list (string * Z))
    (key : string) (v : Z) :
  In (key, v) data ->
  (forall l d, In l lines -> ~ Meminfo_entry l key d) ->
  Meminfo_parse_lines data lines = Ok data' ->
  In (key, v) data'.
Proof.
  revert data. induction lines as [|line lines IH]; intros data Hin Hno.
  - cbn. now intros [= <-].
  - cbn [Meminfo_parse_lines].
    destruct (Meminfo_parse_line data line) as [d1|e1] eqn:E; [|discriminate].
    cbn [mbind result_bind]. apply IH; [|intros l d Hl; apply Hno; now right].
    unfold Meminfo_parse_line in E.
    destruct (re_match Meminfo_line line) as [m|] eqn:Em; [|now injection E as <-].
    destruct (re_match_Meminfo_line_Some line m Em) as (k' & digits & -> & He).
    change (group _ 2) with digits in E. change (group _ 1) with k' in E.
    destruct (py_int digits) as [v'|e]; [|discriminate E]. cbn in E. injection E as <-.
    apply dict_set_other; [|exact Hin]. intros ->. apply (Hno line digits); [now left|exact He].
Qed.

Lemma Meminfo_parse_lines_app (l1 l2 : list string) (data : list (string * Z)) :
  Meminfo_parse_lines data (l1 ++ l2)
  = (d ← Meminfo_parse_lines data l1; Meminfo_parse_lines d l2).
Proof.
  revert data. induction l1 as [|l l1 IH]; intros data; [reflexivity|].
  cbn [app Meminfo_parse_lines]. destruct (Meminfo_parse_line data l); [|reflexivity].
  cbn [mbind result_bind]. apply IH.
Qed.

(** X22. When a key has several entry lines in [/proc/meminfo], the
    dict that [Meminfo.parse] returns holds the number of the last
    of them. *)
Theorem Meminfo_parse_last_wins (fs : FileSystem) (text : string) (m : Meminfo)
    (before after : list string) (line key digits : string) :
  read_text fs MEMINFO = Ok text ->
  Meminfo_parse fs = Ok m ->
  file_lines text = before ++ line :: after ->
  Meminfo_entry line key digits ->
  (forall l d, In l after -> ~ Meminfo_entry l key d) ->
  exists v, py_int digits = Ok v /\ In (key, v) (stats m).
Proof.
  intros Hr Hp Hl He Hafter. unfold Meminfo_parse in Hp. rewrite Hr in Hp.
  cbn [mbind result_bind] in Hp. rewrite Hl, Meminfo_parse_lines_app in Hp.
  destruct (Meminfo_parse_lines [] before) as [d0|e]; [|discriminate Hp].
  cbn [mbind result_bind Meminfo_parse_lines] in Hp.
  destruct (Meminfo_parse_line_cases d0 line) as [Hentry _].
  destruct (Hentry key digits He) as [Hline _]. rewrite Hline in Hp.
  destruct (py_int digits) as [v|e]; [|discriminate Hp]. cbn [mbind result_bind] in Hp.
  destruct (Meminfo_parse_lines _ after) as [d1|e] eqn:E; [|discriminate Hp].
  cbn in Hp. injection Hp as <-. exists v. split; [reflexivity|]. cbn [stats].
  eapply Meminfo_parse_lines_keeps; [|exact Hafter|exact E]. apply dict_set_In_key.
Qed.

Lemma Meminfo_parse_last_wins_witness :
  exists v, py_int "32768" = Ok v
            /\ In ("MemTotal", v) [("MemTotal", 32768); ("MemAvailable", 8192)].
Proof.
  apply (Meminfo_parse_last_wins (tree_fs meminfo_tree) meminfo_text
           {| stats := [("MemTotal", 32768); ("MemAvailable", 8192)] |}
           ["MemTotal:       16384 kB" +:+ nl; "MemAvailable:    8192 kB" +:+ nl;
            "HugePages_Total:       0" +:+ nl]
           [] ("MemTotal:       32768 kB" +:+ nl)).
  - vm_compute. reflexivity.
  - vm_compute. reflexivity.
  - vm_compute. reflexivity.
  - exists "       ", nl. repeat split; try reflexivity; try discriminate. now right.
  - intros l d [].
Defined.
